(** * Token-budgeted parquet query plugins: a shallow embedding

    The plugins of [project/plugins] (query_parquet_files, get_schema,
    list_tables_in_directory) are embedded as Rocq functions.  Python
    values are modelled as follows.

    - [str]: a Rocq [string], one [ascii] per character, so the model covers
      the code points 0 to 255 and [String.length] is Python's [len].  The
      bullet character of the suggestion text lies outside that range and is
      written as its three UTF-8 bytes.
    - [int]: [Z].  [float]: IEEE-754 binary64, through [SpecFloat] with
      precision 53 and maximal exponent 1024.
    - exceptions: a function that can raise returns a [result].
    - the query engine and the file system are external: they are the
      fields of a [World] record that every plugin takes as an argument.

    Of the driver auto_rca_script.py the reading of the task description is
    embedded; the session it then runs is outside this development. *)

From Stdlib Require Import ZArith String Ascii List Lia Bool.
From Stdlib Require Import Floats.SpecFloat.
From stdpp Require Import base option list gmap sets strings pretty.

Set Warnings "-register-all,-clear-no-such-hyp".
Open Scope Z_scope.
Open Scope string_scope.

(** ** Exceptions and results

    [OSError] stands for the class and its subclasses other than
    FileNotFoundError, which the plugins tell apart. *)

Inductive exn : Type :=
| FileNotFoundError (msg : string)
| ValueError (msg : string)
| RuntimeError (msg : string)
| TypeError (msg : string)
| OverflowError (msg : string)
| IndexError (msg : string)
| JSONDecodeError (msg : string)
| EngineError (msg : string)
| OSError (msg : string).

(** [str(e)] *)
Definition exn_str (e : exn) : string :=
  match e with
  | FileNotFoundError m | ValueError m | RuntimeError m | TypeError m
  | OverflowError m | IndexError m | JSONDecodeError m | EngineError m
  | OSError m => m
  end.

Inductive result (A : Type) : Type :=
| Ok (a : A)
| Raise (e : exn).
Arguments Ok {A} a.
Arguments Raise {A} e.

#[global] Instance result_ret : MRet result := fun A a => Ok a.
#[global] Instance result_bind : MBind result := fun A B f m =>
  match m with
  | Ok a => f a
  | Raise e => Raise e
  end.
#[global] Instance result_fmap : FMap result := fun A B f m =>
  match m with
  | Ok a => Ok (f a)
  | Raise e => Raise e
  end.

Definition is_Ok {A} (r : result A) : bool :=
  match r with Ok _ => true | Raise _ => false end.

(** [[f(x) for x in l]] where [f] may raise: the first failure wins. *)
Definition mapM {A B} (f : A -> result B) : list A -> result (list B) :=
  fix go l :=
    match l with
    | [] => Ok []
    | x :: l' =>
        match f x with
        | Raise e => Raise e
        | Ok y => match go l' with
                  | Raise e => Raise e
                  | Ok ys => Ok (y :: ys)
                  end
        end
    end.

(** ** Strings *)

Definition dquote : ascii := "034"%char.
Definition newline : ascii := "010"%char.
Definition NL : string := String newline EmptyString.
Definition DQ : string := String dquote EmptyString.

(** [sep.join(l)] *)
Fixpoint join (sep : string) (l : list string) : string :=
  match l with
  | [] => EmptyString
  | [x] => x
  | x :: l' => x +:+ sep +:+ join sep l'
  end.

(** [s.startswith(p)] *)
Fixpoint startswith (s p : string) : bool :=
  match p, s with
  | EmptyString, _ => true
  | String c p', String d s' => if Ascii.eqb c d then startswith s' p' else false
  | String _ _, EmptyString => false
  end.

(** [sub in s] *)
Fixpoint str_contains (s sub : string) : bool :=
  startswith s sub ||
  match s with
  | EmptyString => false
  | String _ s' => str_contains s' sub
  end.

(** [c * n] for a one-character string [c] *)
Fixpoint str_repeat (c : ascii) (n : nat) : string :=
  match n with
  | O => EmptyString
  | S n' => String c (str_repeat c n')
  end.

(** [str.lower] on the characters of the model: A-Z, and the Latin-1
    capitals U+00C0..U+00DE except the multiplication sign U+00D7. *)
Definition lower_char (c : ascii) : ascii :=
  let n := nat_of_ascii c in
  if ((65 <=? n) && (n <=? 90))%nat then ascii_of_nat (n + 32)
  else if ((192 <=? n) && (n <=? 222) && negb (n =? 215))%nat then ascii_of_nat (n + 32)
  else c.

Fixpoint lower (s : string) : string :=
  match s with
  | EmptyString => EmptyString
  | String c s' => String (lower_char c) (lower s')
  end.

(** [len(s)] *)
Definition len (s : string) : Z := Z.of_nat (String.length s).

(** ["%0<w>d" % n] for a natural number *)
Definition zero_pad (w : nat) (n : nat) : string :=
  let d := pretty n in
  str_repeat "0" (w - String.length d) +:+ d.

(** ** Binary64 arithmetic *)

Module Float.
Definition prec : Z := 53.
Definition emax : Z := 1024.
Definition float := spec_float.

(** [float(n)] for an integer, rounded to nearest even.  Python raises
    OverflowError where this yields an infinity. *)
Definition of_int (n : Z) : float := binary_normalize prec emax n 0 false.
Definition mul (x y : float) : float := SFmul prec emax x y.
(** [a / b] on integers below 2^53, where it is the IEEE quotient of the
    two conversions. *)
Definition int_div (a b : Z) : float := SFdiv prec emax (of_int a) (of_int b).
(** The literal [0.8]: the double nearest to 8/10. *)
Definition lit_0_8 : float := Eval vm_compute in int_div 8 10.

(** [int(x)]: truncation towards zero; infinities and NaN raise. *)
Definition to_int (x : float) : result Z :=
  match x with
  | S754_zero _ => Ok 0
  | S754_finite s m e =>
      let a := match e with
               | Z0 => Zpos m
               | Zpos p => Zpos m * 2 ^ Zpos p
               | Zneg p => Zpos m `div` 2 ^ Zpos p
               end in
      Ok (if s then - a else a)
  | S754_infinity _ => Raise (OverflowError "cannot convert float infinity to integer")
  | S754_nan => Raise (ValueError "cannot convert float NaN to integer")
  end.
End Float.

(** ** Python values *)

(** [datetime.date], [datetime.time] and [datetime.datetime].  A UTC offset
    is kept in whole seconds; [None] is a naive value. *)
Record date := { d_year : nat; d_month : nat; d_day : nat }.
Record time := { t_hour : nat; t_minute : nat; t_second : nat;
                 t_microsecond : nat; t_utcoffset : option Z }.
Record datetime := { dt_date : date; dt_time : time }.

(** The values a row or a report can hold.  A float is carried as its
    [repr] text: no plugin computes with a float taken from a row.  A dict
    is its list of items in insertion order, keys distinct.  [POther] is a
    value of any other class the engine hands back for a column (Decimal,
    bytes, UUID, timedelta, ...), known by the name of its class: the
    plugins pass it along untouched, and json.dumps refuses it. *)
Inductive pyval : Type :=
| PNone
| PBool (b : bool)
| PInt (z : Z)
| PFloat (repr : string)
| PStr (s : string)
| PDate (d : date)
| PTime (t : time)
| PDatetime (d : datetime)
| POther (type_name : string)
| PList (l : list pyval)
| PDict (d : list (string * pyval)).

(** [d[k] = v] on a dict: an existing key keeps its position. *)
Fixpoint dict_set (k : string) (v : pyval) (d : list (string * pyval)) : list (string * pyval) :=
  match d with
  | [] => [(k, v)]
  | (k', v') :: d' => if String.eqb k k' then (k, v) :: d' else (k', v') :: dict_set k v d'
  end.

(** [dict(pairs)] *)
Definition dict_of_pairs (pairs : list (string * pyval)) : list (string * pyval) :=
  fold_left (fun d kv => dict_set (fst kv) (snd kv) d) pairs [].

(** [d.get(k)] *)
Fixpoint dict_get (k : string) (d : list (string * pyval)) : option pyval :=
  match d with
  | [] => None
  | (k', v) :: d' => if String.eqb k k' then Some v else dict_get k d'
  end.

(** [zip(a, b, strict=False)] *)
Fixpoint zip {A B} (a : list A) (b : list B) : list (A * B) :=
  match a, b with
  | x :: a', y :: b' => (x, y) :: zip a' b'
  | _, _ => []
  end.

(** *** isoformat *)

Definition format_time (t : time) : string :=
  zero_pad 2 (t_hour t) +:+ ":" +:+ zero_pad 2 (t_minute t) +:+ ":" +:+ zero_pad 2 (t_second t)
  +:+ (if (t_microsecond t =? 0)%nat then EmptyString else "." +:+ zero_pad 6 (t_microsecond t)).

Definition format_offset (off : option Z) : string :=
  match off with
  | None => EmptyString
  | Some o =>
      let sign := if (o <? 0)%Z then "-" else "+" in
      let a := Z.abs o in
      let hh := a `div` 3600 in
      let mm := (a `mod` 3600) `div` 60 in
      let ss := a `mod` 60 in
      sign +:+ zero_pad 2 (Z.to_nat hh) +:+ ":" +:+ zero_pad 2 (Z.to_nat mm)
      +:+ (if (ss =? 0)%Z then EmptyString else ":" +:+ zero_pad 2 (Z.to_nat ss))
  end.

Definition date_isoformat (d : date) : string :=
  zero_pad 4 (d_year d) +:+ "-" +:+ zero_pad 2 (d_month d) +:+ "-" +:+ zero_pad 2 (d_day d).

Definition time_isoformat (t : time) : string :=
  format_time t +:+ format_offset (t_utcoffset t).

Definition datetime_isoformat (d : datetime) : string :=
  date_isoformat (dt_date d) +:+ "T" +:+ format_time (dt_time d)
  +:+ format_offset (t_utcoffset (dt_time d)).

(** ** The json module *)

Module Json.

(** *** json.dumps(v, ensure_ascii=False, indent=2) *)

Definition hex_digit (n : nat) : ascii :=
  if (n <? 10)%nat then ascii_of_nat (48 + n) else ascii_of_nat (87 + n).

Definition escape_char (c : ascii) : string :=
  let n := nat_of_ascii c in
  if Ascii.eqb c dquote then String "\" DQ
  else if Ascii.eqb c "\" then "\\"
  else if (n =? 8)%nat then "\b"
  else if (n =? 12)%nat then "\f"
  else if (n =? 10)%nat then "\n"
  else if (n =? 13)%nat then "\r"
  else if (n =? 9)%nat then "\t"
  else if (n <? 32)%nat then "\u00" +:+ String (hex_digit (n / 16)) (String (hex_digit (n mod 16)) EmptyString)
  else String c EmptyString.

Fixpoint escape (s : string) : string :=
  match s with
  | EmptyString => EmptyString
  | String c s' => escape_char c +:+ escape s'
  end.

Definition encode_string (s : string) : string := DQ +:+ escape s +:+ DQ.

Definition newline_indent (level : nat) : string := NL +:+ str_repeat " " (2 * level).

Definition not_serializable (ty : string) : exn :=
  TypeError ("Object of type " +:+ ty +:+ " is not JSON serializable").

Fixpoint encode (level : nat) (v : pyval) : result string :=
  match v with
  | PNone => Ok "null"
  | PBool true => Ok "true"
  | PBool false => Ok "false"
  | PInt z => Ok (pretty z)
  | PFloat r => Ok r
  | PStr s => Ok (encode_string s)
  | PDate _ => Raise (not_serializable "date")
  | PTime _ => Raise (not_serializable "time")
  | PDatetime _ => Raise (not_serializable "datetime")
  | POther type_name => Raise (not_serializable type_name)
  | PList [] => Ok "[]"
  | PList l =>
      match mapM (encode (S level)) l with
      | Raise e => Raise e
      | Ok items =>
          Ok ("[" +:+ newline_indent (S level)
              +:+ join ("," +:+ newline_indent (S level)) items
              +:+ newline_indent level +:+ "]")
      end
  | PDict [] => Ok "{}"
  | PDict d =>
      match mapM (fun kv => let '(k, x) := kv in
                            match encode (S level) x with
                            | Raise e => Raise e
                            | Ok t => Ok (encode_string k +:+ ": " +:+ t)
                            end) d with
      | Raise e => Raise e
      | Ok items =>
          Ok ("{" +:+ newline_indent (S level)
              +:+ join ("," +:+ newline_indent (S level)) items
              +:+ newline_indent level +:+ "}")
      end
  end.

Definition dumps (v : pyval) : result string := encode 0 v.

(** *** json.loads(s)

    The result is the parse tree: a number and a string keep their source
    text.  The plugins only take [len] of a parsed top-level array. *)

Inductive json : Type :=
| JNull
| JBool (b : bool)
| JNumber (lit : string)
| JString (body : string)
| JArray (items : list json)
| JObject (members : list (string * json)).

Definition is_ws (c : ascii) : bool :=
  Ascii.eqb c " " || Ascii.eqb c "009" || Ascii.eqb c "010" || Ascii.eqb c "013".

Fixpoint skip_ws (s : string) : string :=
  match s with
  | EmptyString => EmptyString
  | String c r => if is_ws c then skip_ws r else s
  end.

Definition is_digit (c : ascii) : bool :=
  let n := nat_of_ascii c in ((48 <=? n) && (n <=? 57))%nat.

Definition is_hex (c : ascii) : bool :=
  let n := nat_of_ascii c in
  (((48 <=? n) && (n <=? 57)) || ((65 <=? n) && (n <=? 70)) || ((97 <=? n) && (n <=? 102)))%nat.

(** The longest prefix of digits, and what follows it. *)
Fixpoint span_digits (s : string) : string * string :=
  match s with
  | EmptyString => (EmptyString, EmptyString)
  | String c r =>
      if is_digit c then let '(ds, r') := span_digits r in (String c ds, r')
      else (EmptyString, s)
  end.

(** The optional fraction: a dot and at least one digit. *)
Definition scan_frac (s : string) : string * string :=
  match s with
  | String c r =>
      if Ascii.eqb c "." then
        match span_digits r with
        | (EmptyString, _) => (EmptyString, s)
        | (ds, r') => (String c ds, r')
        end
      else (EmptyString, s)
  | EmptyString => (EmptyString, s)
  end.

(** The optional exponent: e or E, an optional sign, at least one digit. *)
Definition scan_exp (s : string) : string * string :=
  match s with
  | String c r =>
      if Ascii.eqb c "e" || Ascii.eqb c "E" then
        let '(sign, r1) :=
          match r with
          | String d r1 =>
              if Ascii.eqb d "-" || Ascii.eqb d "+" then (String d EmptyString, r1)
              else (EmptyString, r)
          | EmptyString => (EmptyString, r)
          end in
        match span_digits r1 with
        | (EmptyString, _) => (EmptyString, s)
        | (ds, r') => (String c (sign +:+ ds), r')
        end
      else (EmptyString, s)
  | EmptyString => (EmptyString, s)
  end.

(** The integer part: an optional minus sign, then either a single zero
    or a digit from 1 to 9 followed by any digits. *)
Definition scan_int (s : string) : option (string * string) :=
  let '(sign, s1) :=
    match s with
    | String c r => if Ascii.eqb c "-" then (String c EmptyString, r) else (EmptyString, s)
    | EmptyString => (EmptyString, s)
    end in
  match s1 with
  | String c r =>
      if Ascii.eqb c "0" then Some (sign +:+ "0", r)
      else if is_digit c then
        let '(ds, r') := span_digits s1 in Some (sign +:+ ds, r')
      else None
  | EmptyString => None
  end.

Definition scan_number (s : string) : option (string * string) :=
  match scan_int s with
  | None => None
  | Some (i, r) =>
      let '(f, r1) := scan_frac r in
      let '(e, r2) := scan_exp r1 in
      Some (i +:+ f +:+ e, r2)
  end.

(** The body of a string literal, up to its closing quote (strict mode:
    a control character is refused). *)
Fixpoint scan_string (s : string) : option (string * string) :=
  match s with
  | EmptyString => None
  | String c r =>
      if Ascii.eqb c dquote then Some (EmptyString, r)
      else if Ascii.eqb c "\" then
        match r with
        | String e r' =>
            if Ascii.eqb e "u" then
              match r' with
              | String h1 (String h2 (String h3 (String h4 r''))) =>
                  if is_hex h1 && is_hex h2 && is_hex h3 && is_hex h4 then
                    match scan_string r'' with
                    | Some (b, rest) =>
                        Some (String c (String e (String h1 (String h2 (String h3 (String h4 b))))), rest)
                    | None => None
                    end
                  else None
              | _ => None
              end
            else if Ascii.eqb e dquote || Ascii.eqb e "\" || Ascii.eqb e "/"
                    || Ascii.eqb e "b" || Ascii.eqb e "f" || Ascii.eqb e "n"
                    || Ascii.eqb e "r" || Ascii.eqb e "t" then
              match scan_string r' with
              | Some (b, rest) => Some (String c (String e b), rest)
              | None => None
              end
            else None
        | EmptyString => None
        end
      else if (nat_of_ascii c <? 32)%nat then None
      else
        match scan_string r with
        | Some (b, rest) => Some (String c b, rest)
        | None => None
        end
  end.

(** [Some r] when [s = p ++ r]. *)
Fixpoint strip_prefix (p s : string) : option string :=
  match p, s with
  | EmptyString, _ => Some s
  | String c p', String d s' => if Ascii.eqb c d then strip_prefix p' s' else None
  | String _ _, EmptyString => None
  end.

Definition scan_literal (s : string) : option (json * string) :=
  match strip_prefix "null" s with
  | Some r => Some (JNull, r)
  | None =>
  match strip_prefix "true" s with
  | Some r => Some (JBool true, r)
  | None =>
  match strip_prefix "false" s with
  | Some r => Some (JBool false, r)
  | None =>
  match scan_number s with
  | Some (n, r) => Some (JNumber n, r)
  | None =>
  match strip_prefix "NaN" s with
  | Some r => Some (JNumber "NaN", r)
  | None =>
  match strip_prefix "Infinity" s with
  | Some r => Some (JNumber "Infinity", r)
  | None =>
  match strip_prefix "-Infinity" s with
  | Some r => Some (JNumber "-Infinity", r)
  | None => None
  end end end end end end end.

(** The scanner.  [fuel] bounds the depth of the calls; [loads] gives one
    more than the length of the text, which is enough (see
    [scan_once_fuel]). *)
Fixpoint scan_once (fuel : nat) (s : string) : option (json * string) :=
  match fuel with
  | O => None
  | S fuel' =>
      match s with
      | EmptyString => None
      | String c r =>
          if Ascii.eqb c dquote then
            match scan_string r with
            | Some (b, r') => Some (JString b, r')
            | None => None
            end
          else if Ascii.eqb c "{" then
            match skip_ws r with
            | String d r1 =>
                if Ascii.eqb d "}" then Some (JObject [], r1)
                else parse_members fuel' (String d r1) []
            | EmptyString => None
            end
          else if Ascii.eqb c "[" then
            match skip_ws r with
            | String d r1 =>
                if Ascii.eqb d "]" then Some (JArray [], r1)
                else parse_items fuel' (String d r1) []
            | EmptyString => None
            end
          else scan_literal s
      end
  end
with parse_items (fuel : nat) (s : string) (acc : list json) : option (json * string) :=
  match fuel with
  | O => None
  | S fuel' =>
      match scan_once fuel' s with
      | None => None
      | Some (v, r) =>
          match skip_ws r with
          | String d r1 =>
              if Ascii.eqb d "]" then Some (JArray (rev (v :: acc)), r1)
              else if Ascii.eqb d "," then parse_items fuel' (skip_ws r1) (v :: acc)
              else None
          | EmptyString => None
          end
      end
  end
with parse_members (fuel : nat) (s : string) (acc : list (string * json)) : option (json * string) :=
  match fuel with
  | O => None
  | S fuel' =>
      match s with
      | String q r0 =>
          if Ascii.eqb q dquote then
            match scan_string r0 with
            | None => None
            | Some (k, r) =>
                match skip_ws r with
                | String d r1 =>
                    if Ascii.eqb d ":" then
                      match scan_once fuel' (skip_ws r1) with
                      | None => None
                      | Some (v, r2) =>
                          match skip_ws r2 with
                          | String d2 r3 =>
                              if Ascii.eqb d2 "}" then Some (JObject (rev ((k, v) :: acc)), r3)
                              else if Ascii.eqb d2 "," then
                                parse_members fuel' (skip_ws r3) ((k, v) :: acc)
                              else None
                          | EmptyString => None
                          end
                      end
                    else None
                | EmptyString => None
                end
            end
          else None
      | EmptyString => None
      end
  end.

Definition loads (s : string) : result json :=
  match scan_once (S (String.length s)) (skip_ws s) with
  | None => Raise (JSONDecodeError "Expecting value")
  | Some (v, r) =>
      match skip_ws r with
      | EmptyString => Ok v
      | String _ _ => Raise (JSONDecodeError "Extra data")
      end
  end.

(** [len(v)] for a parsed value.  The plugins call it on the parse of a
    text that starts with an opening bracket, which is always an array. *)
Definition py_len (v : json) : result Z :=
  match v with
  | JArray items => Ok (Z.of_nat (length items))
  | JObject members => Ok (Z.of_nat (length (remove_dups (map fst members))))
  | JString body => Ok (len body)
  | _ => Raise (TypeError "object has no len()")
  end.

End Json.

(** ** The token budget

    Each of the three plugin files carries its own copy of [TOKEN_LIMIT],
    [_estimate_token_count] and [_enforce_token_limit].  The copies agree
    except for the [warning] dict: the one of parquet_tools.py has a
    seventh key, the suggestion text.  [enforce_with] is the shared body,
    taking the dict as an argument. *)

Definition opt_int (o : option Z) : pyval :=
  match o with
  | Some n => PInt n
  | None => PNone
  end.

Module token_budget.

Definition TOKEN_LIMIT : Z := 5000.

Definition _estimate_token_count (text : string) : Z :=
  let average_chars_per_token := 3 in
  (len text + average_chars_per_token - 1) `div` average_chars_per_token.

(** [len(json.loads(payload)) if payload.startswith("[") else None] *)
Definition current_size_of (payload : string) : result (option Z) :=
  if startswith payload "[" then
    match Json.loads payload with
    | Raise e => Raise e
    | Ok v => match Json.py_len v with
              | Raise e => Raise e
              | Ok n => Ok (Some n)
              end
    end
  else Ok None.

(** [current_size * ratio * 0.8], evaluated from left to right in binary64 *)
Definition scaled_size (token_estimate current_size : Z) : Float.float :=
  let ratio := Float.int_div TOKEN_LIMIT token_estimate in
  Float.mul (Float.mul (Float.of_int current_size) ratio) Float.lit_0_8.

(** [max(1, int(current_size * ratio * 0.8))] under [if current_size:],
    which skips both [None] and 0. *)
Definition suggested_limit_of (token_estimate : Z) (current_size : option Z) : result (option Z) :=
  match current_size with
  | None => Ok None
  | Some n =>
      if (n =? 0)%Z then Ok None
      else
        match Float.to_int (scaled_size token_estimate n) with
        | Raise e => Raise e
        | Ok t => Ok (Some (Z.max 1 t))
        end
  end.

Definition enforce_with (warning : string -> Z -> option Z -> option Z -> pyval)
    (payload context : string) : result string :=
  let token_estimate := _estimate_token_count payload in
  if (token_estimate <=? TOKEN_LIMIT)%Z then Ok payload
  else
    match current_size_of payload with
    | Raise e => Raise e
    | Ok current_size =>
        match suggested_limit_of token_estimate current_size with
        | Raise e => Raise e
        | Ok suggested_limit =>
            Json.dumps (warning context token_estimate current_size suggested_limit)
        end
    end.

(** The [warning] dict of get_schema.py and list_tables_in_directory.py. *)
Definition warning (context : string) (token_estimate : Z)
    (current_size suggested_limit : option Z) : pyval :=
  PDict [ ("error", PStr "Result exceeds token budget");
          ("context", PStr context);
          ("estimated_tokens", PInt token_estimate);
          ("token_limit", PInt TOKEN_LIMIT);
          ("rows_returned", opt_int current_size);
          ("suggested_limit", opt_int suggested_limit) ].

End token_budget.

(** ** pathlib, on a POSIX host *)

Module pathlib.

(** A parsed path: [root] is empty, one slash or two slashes; [parts] are
    the components after the root. *)
Record Path := { root : string; parts : list string }.

(** [s.split("/")] *)
Fixpoint split (s : string) : list string :=
  match s with
  | EmptyString => [EmptyString]
  | String c r =>
      if Ascii.eqb c "/" then EmptyString :: split r
      else match split r with
           | x :: xs => String c x :: xs
           | [] => [String c EmptyString]
           end
  end.

(** A component is kept unless it is empty or a single dot. *)
Definition is_part (x : string) : bool :=
  negb (String.eqb x EmptyString) && negb (String.eqb x ".").

(** Exactly two leading slashes are kept; one, or three and more, are one. *)
Definition root_of (s : string) : string :=
  if negb (startswith s "/") then EmptyString
  else if negb (startswith s "//") || startswith s "///" then "/"
  else "//".

(** [Path(s)] *)
Definition of_str (s : string) : Path :=
  {| root := root_of s; parts := filter (fun x => is_part x = true) (split s) |}.

(** [str(p)] *)
Definition str (p : Path) : string :=
  match root p, parts p with
  | EmptyString, [] => "."
  | r, t => r +:+ join "/" t
  end.

Definition is_absolute (p : Path) : bool := negb (String.eqb (root p) EmptyString).

(** [p / q] *)
Definition joinpath (p q : Path) : Path :=
  if is_absolute q then q
  else {| root := root p; parts := parts p ++ parts q |}.

(** [p.name]: the last component, empty when there is none. *)
Definition name (p : Path) : string := List.last (parts p) EmptyString.

(** [s.rfind(c)], [None] for -1 *)
Fixpoint rfind (c : ascii) (s : string) : option nat :=
  match s with
  | EmptyString => None
  | String d r =>
      match rfind c r with
      | Some i => Some (S i)
      | None => if Ascii.eqb d c then Some O else None
      end
  end.

(** [p.stem]: the name without its last suffix.  A leading or a trailing
    dot starts no suffix. *)
Definition stem (p : Path) : string :=
  let n := name p in
  match rfind "." n with
  | Some i => if ((0 <? i) && (i <? String.length n - 1))%nat then substring 0 i n else n
  | None => n
  end.

Fixpoint list_startswith (l pre : list string) : bool :=
  match pre, l with
  | [], _ => true
  | x :: pre', y :: l' => String.eqb x y && list_startswith l' pre'
  | _ :: _, [] => false
  end.

(** [p.relative_to(other)] *)
Definition relative_to (p other : Path) : result Path :=
  if String.eqb (root p) (root other) && list_startswith (parts p) (parts other) then
    Ok {| root := EmptyString; parts := drop (length (parts other)) (parts p) |}
  else
    Raise (ValueError (str p +:+ " is not in the subpath of " +:+ str other)).

(** [s.endswith(suffix)] *)
Definition endswith (s suffix : string) : bool :=
  let n := String.length s in
  let k := String.length suffix in
  ((k <=? n)%nat && String.eqb (substring (n - k) k s) suffix).

End pathlib.

(** ** The world outside: file system and query engine *)

(** What [conn.execute(sql)] gives: an error of the engine with its text,
    or a result set. *)
Record ResultSet := { description : list (string * string); rs_rows : list (list pyval) }.

Inductive outcome : Type :=
| Fails (text : string)
| Returns (rs : ResultSet).

(** What [os.stat] finds at a path: no entry (the errors that
    [Path.exists] and [Path.is_dir] swallow: ENOENT, ENOTDIR, EBADF, ELOOP),
    a file, a directory, or an error that the two tests let through, such
    as ENAMETOOLONG or EACCES, with the text of the [OSError]. *)
Inductive stat_result : Type :=
| NoEntry
| IsFile
| IsDir
| StatError (text : string).

(** [engine history sql] is the outcome of [sql] on a connection opened on
    an empty in-memory database on which the statements of [history] have
    run.  [iter_set] is the order in which a set of strings is iterated;
    Python leaves it open. *)
Record World := {
  getcwd : string;
  fs_stat : string -> stat_result;
  fs_scandir : string -> list string;
  engine : list string -> string -> outcome;
  iter_set : gset string -> list string;
  iter_set_perm : forall s, iter_set s ≡ₚ elements s
}.

(** The path names something, and it names a directory. *)
Definition fs_exists (w : World) (p : string) : bool :=
  match fs_stat w p with
  | IsFile | IsDir => true
  | NoEntry | StatError _ => false
  end.

Definition fs_is_dir (w : World) (p : string) : bool :=
  match fs_stat w p with
  | IsDir => true
  | NoEntry | IsFile | StatError _ => false
  end.

(** [Path.exists()] and [Path.is_dir()] *)
Definition path_exists (w : World) (p : pathlib.Path) : result bool :=
  match fs_stat w (pathlib.str p) with
  | StatError text => Raise (OSError text)
  | _ => Ok (fs_exists w (pathlib.str p))
  end.

Definition path_is_dir (w : World) (p : pathlib.Path) : result bool :=
  match fs_stat w (pathlib.str p) with
  | StatError text => Raise (OSError text)
  | _ => Ok (fs_is_dir w (pathlib.str p))
  end.

(** The connections of the engine: [connect] opens a fresh one, [close]
    releases it. *)
Record Conns := { next_id : nat; open_ids : gset nat }.

Definition connect (s : Conns) : nat * Conns :=
  (next_id s, {| next_id := S (next_id s); open_ids := {[ next_id s ]} ∪ open_ids s |}).

Definition close (conn : nat) (s : Conns) : Conns :=
  {| next_id := next_id s; open_ids := open_ids s ∖ {[ conn ]} |}.

(** [rows.fetchone()] *)
Definition fetchone (rs : ResultSet) : option (list pyval) := head (rs_rows rs).

(** [row[0]] *)
Definition first_column (row : list pyval) : result pyval :=
  match row with
  | x :: _ => Ok x
  | [] => Raise (IndexError "tuple index out of range")
  end.

(** [l[:k]] *)
Definition slice_to (k : Z) (l : list pyval) : list pyval :=
  if (k <? 0)%Z then take (Z.to_nat (Z.of_nat (length l) + k)) l
  else take (Z.to_nat k) l.

(** The path handed to the engine: relative to the working directory when
    the file lies under it.  The three plugins spell this out inline. *)
Definition relative_path (cwd : pathlib.Path) (file_path : string) : string :=
  let file_path_obj := pathlib.of_str file_path in
  if pathlib.is_absolute file_path_obj then
    match pathlib.relative_to file_path_obj cwd with
    | Ok r => pathlib.str r
    | Raise _ => pathlib.str file_path_obj
    end
  else file_path.

Definition count_sql (file : string) : string :=
  "SELECT COUNT(*) FROM read_parquet('" +:+ file +:+ "')".
Definition schema_sql (file : string) : string :=
  "SELECT * FROM read_parquet('" +:+ file +:+ "') LIMIT 0".

(** ** parquet_tools.py *)

(** [parquet_files: Union[str, List[str]]] *)
Inductive files_arg : Type :=
| OneFile (file : string)
| FileList (files : list string).

Module parquet_tools.

Definition TOKEN_LIMIT : Z := token_budget.TOKEN_LIMIT.

Fixpoint _serialize_datetime (obj : pyval) : pyval :=
  match obj with
  | PDatetime d => PStr (datetime_isoformat d)
  | PDict d => PDict (map (fun kv => (fst kv, _serialize_datetime (snd kv))) d)
  | PList l => PList (map _serialize_datetime l)
  | _ => obj
  end.

Definition _estimate_token_count (text : string) : Z :=
  token_budget._estimate_token_count text.

Definition suggestion_parts (suggested_limit : option Z) : list string :=
  [ "The query result is too large. Please adjust your query:";
    "  • Reduce the LIMIT value"
      +:+ match suggested_limit with
          | Some l => if (l =? 0)%Z then EmptyString else " (try LIMIT " +:+ pretty l +:+ ")"
          | None => EmptyString
          end;
    "  • Filter rows with WHERE clauses to reduce result size";
    "  • Select only necessary columns instead of SELECT *";
    "  • Use aggregation (COUNT, SUM, AVG) instead of retrieving raw rows" ].

(** The [warning] dict, that is, the OverflowReport. *)
Definition warning (context : string) (token_estimate : Z)
    (current_size suggested_limit : option Z) : pyval :=
  PDict [ ("error", PStr "Result exceeds token budget");
          ("context", PStr context);
          ("estimated_tokens", PInt token_estimate);
          ("token_limit", PInt TOKEN_LIMIT);
          ("rows_returned", opt_int current_size);
          ("suggested_limit", opt_int suggested_limit);
          ("suggestion", PStr (join NL (suggestion_parts suggested_limit))) ].

Definition _enforce_token_limit (payload context : string) : result string :=
  token_budget.enforce_with warning payload context.

(** The [for file_path in parquet_files] loop: the exception it ends in,
    if any. *)
Fixpoint validate_loop (w : World) (parquet_files : list string) : option exn :=
  match parquet_files with
  | [] => None
  | file_path :: rest =>
      match path_exists w (pathlib.of_str file_path) with
      | Raise e => Some e
      | Ok false =>
          Some (FileNotFoundError
                  ("Parquet file not found: " +:+ file_path +:+ NL
                   +:+ "Please check the file path and ensure the file exists. "
                   +:+ "You may use 'list_tables_in_directory' to discover available parquet files."))
      | Ok true => validate_loop w rest
      end
  end.

Definition _validate_parquet_files (w : World) (parquet_files : files_arg) : result (list string) :=
  let parquet_files :=
    match parquet_files with
    | OneFile f => [f]
    | FileList l => l
    end in
  match validate_loop w parquet_files with
  | Some e => Raise e
  | None => Ok parquet_files
  end.

(** The [while table_name in table_names] loop.  [fuel] bounds its
    iterations; [unique_table_name] gives as many as the set has members,
    which is enough (see [next_free_name_total]). *)
Fixpoint next_free_name (fuel : nat) (base_name table_name : string) (counter : nat)
    (table_names : gset string) : option string :=
  if decide (table_name ∈ table_names) then
    match fuel with
    | O => None
    | S fuel' =>
        next_free_name fuel' base_name (base_name +:+ "_" +:+ pretty counter) (S counter) table_names
    end
  else Some table_name.

Definition unique_table_name (base_name : string) (table_names : gset string) : string :=
  default base_name (next_free_name (size table_names) base_name base_name 1 table_names).

Definition create_view_sql (table_name file_path : string) : string :=
  "CREATE VIEW " +:+ table_name +:+ " AS SELECT * FROM read_parquet('" +:+ file_path +:+ "')".

(** The registration loop.  It returns [table_names] as the loop leaves it,
    also when a statement fails, and the statements that have run. *)
Fixpoint register_views (w : World) (parquet_files : list string) (table_names : gset string)
    (history : list string) : gset string * result (list string) :=
  match parquet_files with
  | [] => (table_names, Ok history)
  | file_path :: rest =>
      let base_name := pathlib.stem (pathlib.of_str file_path) in
      let table_name := unique_table_name base_name table_names in
      let table_names := {[ table_name ]} ∪ table_names in
      let sql := create_view_sql table_name file_path in
      match engine w history sql with
      | Fails text => (table_names, Raise (EngineError text))
      | Returns _ => register_views w rest table_names (history ++ [sql])
      end
  end.

(** [dict(zip(columns, row, strict=False))] for each row *)
Definition rows_as_dicts (rs : ResultSet) : list pyval :=
  let columns := map fst (description rs) in
  map (fun row => PDict (dict_of_pairs (zip columns row))) (rs_rows rs).

(** [if len(serialized_rows) > limit: serialized_rows = serialized_rows[:limit]] *)
Definition apply_limit (limit : Z) (serialized_rows : list pyval) : list pyval :=
  if (limit <? Z.of_nat (length serialized_rows))%Z then slice_to limit serialized_rows
  else serialized_rows.

(** The text handed to [_enforce_token_limit]. *)
Definition result_json_of (rs : ResultSet) (limit : Z) : result string :=
  match _serialize_datetime (PList (rows_as_dicts rs)) with
  | PList serialized_rows => Json.dumps (PList (apply_limit limit serialized_rows))
  | _ => Raise (TypeError "object has no len()")
  end.

(** The body of the [try] block, with [table_names] as it stands when the
    block is left. *)
Definition query_body (w : World) (parquet_files : list string) (query : string) (limit : Z)
    : gset string * result string :=
  let cwd := pathlib.of_str (getcwd w) in
  let parquet_files := map (relative_path cwd) parquet_files in
  let '(table_names, registered) := register_views w parquet_files ∅ [] in
  (table_names,
   match registered with
   | Raise e => Raise e
   | Ok history =>
       match engine w history query with
       | Fails text => Raise (EngineError text)
       | Returns rs =>
           match result_json_of rs limit with
           | Raise e => Raise e
           | Ok result_json => _enforce_token_limit result_json "query_parquet_files"
           end
       end
   end).

(** [', '.join(table_names) if table_names else 'None'] *)
Definition available_tables (w : World) (table_names : gset string) : string :=
  if decide (table_names = ∅) then "None" else join ", " (iter_set w table_names).

(** The [except] clauses: what is raised in place of [e]. *)
Definition query_except (w : World) (query : string) (table_names : gset string) (e : exn) : exn :=
  match e with
  | FileNotFoundError _ => e
  | _ =>
      let error_msg := exn_str e in
      if str_contains (lower error_msg) "syntax error" || str_contains (lower error_msg) "parser error" then
        RuntimeError ("SQL syntax error in query: " +:+ error_msg +:+ NL
                      +:+ "Query: " +:+ query +:+ NL
                      +:+ "Available tables: " +:+ available_tables w table_names +:+ NL
                      +:+ "Tip: Use 'get_schema' to check column names before querying.")
      else if str_contains (lower error_msg) "catalog" || str_contains (lower error_msg) "table" then
        RuntimeError ("Table reference error: " +:+ error_msg +:+ NL
                      +:+ "Query: " +:+ query +:+ NL
                      +:+ "Available tables: " +:+ available_tables w table_names +:+ NL
                      +:+ "Make sure table names in your query match the registered table names.")
      else
        RuntimeError ("Query execution failed: " +:+ error_msg +:+ NL
                      +:+ "Query: " +:+ query +:+ NL
                      +:+ "Available tables: " +:+ available_tables w table_names)
  end.

(** [QueryParquetFilesPlugin.__call__] *)
Definition QueryParquetFilesPlugin (w : World) (parquet_files : files_arg) (query : string)
    (limit : Z) (s : Conns) : result string * Conns :=
  match _validate_parquet_files w parquet_files with
  | Raise e => (Raise e, s)
  | Ok parquet_files =>
      let '(conn, s) := connect s in
      let '(table_names, r) := query_body w parquet_files query limit in
      let r := match r with
               | Ok v => Ok v
               | Raise e => Raise (query_except w query table_names e)
               end in
      (r, close conn s)
  end.

End parquet_tools.

(** ** get_schema.py *)

Module get_schema.

Definition _enforce_token_limit (payload context : string) : result string :=
  token_budget.enforce_with token_budget.warning payload context.

(** The body of the [try] block after the path is made relative. *)
Definition schema_body (w : World) (parquet_file : string) : result string :=
  match engine w [] (schema_sql parquet_file) with
  | Fails text => Raise (EngineError text)
  | Returns result =>
      let schema := map (fun desc => PDict [("name", PStr (fst desc)); ("type", PStr (snd desc))])
                        (description result) in
      match engine w [schema_sql parquet_file] (count_sql parquet_file) with
      | Fails text => Raise (EngineError text)
      | Returns counted =>
          match fetchone counted with
          | None => Raise (RuntimeError "Failed to read row count from parquet file")
          | Some row_count_result =>
              match first_column row_count_result with
              | Raise e => Raise e
              | Ok row_count =>
                  let schema_info := PDict [ ("file", PStr parquet_file);
                                             ("row_count", row_count);
                                             ("columns", PList schema) ] in
                  match Json.dumps schema_info with
                  | Raise e => Raise e
                  | Ok result_json => _enforce_token_limit result_json "get_schema"
                  end
              end
          end
      end
  end.

Definition schema_except (parquet_file : string) (e : exn) : exn :=
  match e with
  | FileNotFoundError _ => e
  | _ =>
      RuntimeError ("Failed to extract schema from parquet file: " +:+ exn_str e +:+ NL
                    +:+ "File: " +:+ parquet_file +:+ NL
                    +:+ "This may indicate a corrupted file or unsupported parquet format.")
  end.

(** [GetSchemaPlugin.__call__] *)
Definition GetSchemaPlugin (w : World) (parquet_file : string) (s : Conns) : result string * Conns :=
  match path_exists w (pathlib.of_str parquet_file) with
  | Raise e => (Raise e, s)
  | Ok false =>
    (Raise (FileNotFoundError
              ("Parquet file not found: " +:+ parquet_file +:+ NL
               +:+ "Please verify the file path. Use 'list_tables_in_directory' to discover available files.")),
     s)
  | Ok true =>
    let '(conn, s) := connect s in
    let parquet_file := relative_path (pathlib.of_str (getcwd w)) parquet_file in
    let r := match schema_body w parquet_file with
             | Ok v => Ok v
             | Raise e => Raise (schema_except parquet_file e)
             end in
    (r, close conn s)
  end.

End get_schema.

(** ** list_tables_in_directory.py *)

Module list_tables_in_directory.

Definition _enforce_token_limit (payload context : string) : result string :=
  token_budget.enforce_with token_budget.warning payload context.

(** [dir_path.glob("*.parquet")]: the entries of the directory, in the
    order the file system lists them, whose name ends in .parquet. *)
Definition glob_parquet (w : World) (dir_path : pathlib.Path) : list pathlib.Path :=
  map (fun entry => {| pathlib.root := pathlib.root dir_path;
                       pathlib.parts := pathlib.parts dir_path ++ [entry] |})
      (filter (fun entry => pathlib.endswith entry ".parquet" = true)
              (fs_scandir w (pathlib.str dir_path))).

(** The statements of the inner [try] block up to [conn.close()]: the row
    count and the column count. *)
Definition probe (w : World) (file_path_str : string) : result (pyval * Z) :=
  match engine w [] (count_sql file_path_str) with
  | Fails text => Raise (EngineError text)
  | Returns counted =>
      match fetchone counted with
      | None => Raise (RuntimeError "Failed to read row count from parquet file")
      | Some row_count_result =>
          match first_column row_count_result with
          | Raise e => Raise e
          | Ok row_count =>
              match engine w [count_sql file_path_str] (schema_sql file_path_str) with
              | Fails text => Raise (EngineError text)
              | Returns result => Ok (row_count, Z.of_nat (length (description result)))
              end
          end
      end
  end.

(** One turn of the [for] loop: the entry appended to [files_info], and the
    connections after it.  [conn.close()] stands inside the [try] block,
    after the probes: a failing probe jumps over it. *)
Definition list_one (w : World) (cwd : pathlib.Path) (file_path : pathlib.Path) (s : Conns)
    : pyval * Conns :=
  let file_path_str := relative_path cwd (pathlib.str file_path) in
  let '(conn, s) := connect s in
  match probe w file_path_str with
  | Ok (row_count, column_count) =>
      (PDict [ ("filename", PStr (pathlib.name file_path));
               ("path", PStr (pathlib.str file_path));
               ("row_count", row_count);
               ("column_count", PInt column_count) ],
       close conn s)
  | Raise e =>
      (PDict [ ("filename", PStr (pathlib.name file_path));
               ("path", PStr (pathlib.str file_path));
               ("error", PStr (exn_str e)) ],
       s)
  end.

(** The [for] loop: [files_info] and the connections after it. *)
Fixpoint list_files (w : World) (cwd : pathlib.Path) (files : list pathlib.Path)
    (files_info : list pyval) (s : Conns) : list pyval * Conns :=
  match files with
  | [] => (files_info, s)
  | file_path :: rest =>
      let '(entry, s) := list_one w cwd file_path s in
      list_files w cwd rest (files_info ++ [entry]) s
  end.

(** [ListTablesInDirectoryPlugin.__call__] *)
Definition ListTablesInDirectoryPlugin (w : World) (directory : string) (s : Conns)
    : result string * Conns :=
  let dir_path := pathlib.of_str directory in
  match path_exists w dir_path with
  | Raise e => (Raise e, s)
  | Ok false =>
    (Raise (FileNotFoundError
              ("Directory not found: " +:+ directory +:+ NL
               +:+ "Please verify the directory path exists and is accessible.")),
     s)
  | Ok true =>
  match path_is_dir w dir_path with
  | Raise e => (Raise e, s)
  | Ok false =>
    (Raise (ValueError
              ("Path is not a directory: " +:+ directory +:+ NL
               +:+ "Please provide a valid directory path, not a file path.")),
     s)
  | Ok true =>
    let cwd := pathlib.of_str (getcwd w) in
    let '(files_info, s) := list_files w cwd (glob_parquet w dir_path) [] s in
    match Json.dumps (PList files_info) with
    | Raise e => (Raise e, s)
    | Ok result_json => (_enforce_token_limit result_json "list_tables_in_directory", s)
    end
  end
  end.

End list_tables_in_directory.

(** ** parquet_tools.py: its own get_schema and list_tables_in_directory

    parquet_tools.py repeats the two classes of get_schema.py and
    list_tables_in_directory.py word for word; in its scope the enforcer is
    the one whose report carries the suggestion text. *)

Module parquet_tools_inspect.

Definition schema_body (w : World) (parquet_file : string) : result string :=
  match engine w [] (schema_sql parquet_file) with
  | Fails text => Raise (EngineError text)
  | Returns result =>
      let schema := map (fun desc => PDict [("name", PStr (fst desc)); ("type", PStr (snd desc))])
                        (description result) in
      match engine w [schema_sql parquet_file] (count_sql parquet_file) with
      | Fails text => Raise (EngineError text)
      | Returns counted =>
          match fetchone counted with
          | None => Raise (RuntimeError "Failed to read row count from parquet file")
          | Some row_count_result =>
              match first_column row_count_result with
              | Raise e => Raise e
              | Ok row_count =>
                  let schema_info := PDict [ ("file", PStr parquet_file);
                                             ("row_count", row_count);
                                             ("columns", PList schema) ] in
                  match Json.dumps schema_info with
                  | Raise e => Raise e
                  | Ok result_json => parquet_tools._enforce_token_limit result_json "get_schema"
                  end
              end
          end
      end
  end.

(** [GetSchemaPlugin.__call__] of parquet_tools.py *)
Definition GetSchemaPlugin (w : World) (parquet_file : string) (s : Conns) : result string * Conns :=
  match path_exists w (pathlib.of_str parquet_file) with
  | Raise e => (Raise e, s)
  | Ok false =>
    (Raise (FileNotFoundError
              ("Parquet file not found: " +:+ parquet_file +:+ NL
               +:+ "Please verify the file path. Use 'list_tables_in_directory' to discover available files.")),
     s)
  | Ok true =>
    let '(conn, s) := connect s in
    let parquet_file := relative_path (pathlib.of_str (getcwd w)) parquet_file in
    let r := match schema_body w parquet_file with
             | Ok v => Ok v
             | Raise e => Raise (get_schema.schema_except parquet_file e)
             end in
    (r, close conn s)
  end.

(** [ListTablesInDirectoryPlugin.__call__] of parquet_tools.py; the loop is
    [list_tables_in_directory.list_files]. *)
Definition ListTablesInDirectoryPlugin (w : World) (directory : string) (s : Conns)
    : result string * Conns :=
  let dir_path := pathlib.of_str directory in
  match path_exists w dir_path with
  | Raise e => (Raise e, s)
  | Ok false =>
    (Raise (FileNotFoundError
              ("Directory not found: " +:+ directory +:+ NL
               +:+ "Please verify the directory path exists and is accessible.")),
     s)
  | Ok true =>
  match path_is_dir w dir_path with
  | Raise e => (Raise e, s)
  | Ok false =>
    (Raise (ValueError
              ("Path is not a directory: " +:+ directory +:+ NL
               +:+ "Please provide a valid directory path, not a file path.")),
     s)
  | Ok true =>
    let cwd := pathlib.of_str (getcwd w) in
    let '(files_info, s) :=
      list_tables_in_directory.list_files w cwd (list_tables_in_directory.glob_parquet w dir_path) [] s in
    match Json.dumps (PList files_info) with
    | Raise e => (Raise e, s)
    | Ok result_json => (parquet_tools._enforce_token_limit result_json "list_tables_in_directory", s)
    end
  end
  end.

End parquet_tools_inspect.

(** ** auto_rca_script.py: reading the task description *)

Module auto_rca_script.

(** The text looked for in problem.json, and the three quotes that close
    the description. *)
Definition triple_quote : string := DQ +:+ DQ +:+ DQ.
Definition marker : string := "TASK_DESCRIPTION = " +:+ triple_quote.

(** [s.find(sub)], [None] for -1 *)
Fixpoint find (sub s : string) : option nat :=
  if startswith s sub then Some O
  else match s with
       | EmptyString => None
       | String _ r => match find sub r with
                       | Some i => Some (S i)
                       | None => None
                       end
       end.

(** [s.rfind(sub)], [None] for -1 *)
Fixpoint rfind (sub s : string) : option nat :=
  match s with
  | EmptyString => if startswith s sub then Some O else None
  | String _ r =>
      match rfind sub r with
      | Some i => Some (S i)
      | None => if startswith s sub then Some O else None
      end
  end.

(** [c.isspace()] on the characters of the model *)
Definition is_space (c : ascii) : bool :=
  let n := nat_of_ascii c in
  (((9 <=? n) && (n <=? 13)) || ((28 <=? n) && (n <=? 32)) || (n =? 133) || (n =? 160))%nat.

Fixpoint lstrip (s : string) : string :=
  match s with
  | EmptyString => EmptyString
  | String c r => if is_space c then lstrip r else s
  end.

Fixpoint rstrip (s : string) : string :=
  match s with
  | EmptyString => EmptyString
  | String c r =>
      match rstrip r with
      | EmptyString => if is_space c then EmptyString else String c EmptyString
      | r' => String c r'
      end
  end.

(** [s.strip()] *)
Definition strip (s : string) : string := rstrip (lstrip s).

(** [s[start:stop]] for indices that are not negative *)
Definition slice (start stop : nat) (s : string) : string := substring start (stop - start) s.

(** The description [main] takes from the content of problem.json. *)
Definition task_description (content : string) : string :=
  match find marker content with
  | Some i =>
      let start := (i + String.length marker)%nat in
      let stop := match rfind triple_quote content with
                  | Some j => j
                  | None => (String.length content - 1)%nat
                  end in
      strip (slice start stop content)
  | None => content
  end.

(** What [main] does with it: an empty description ends the run before any
    session is created. *)
Inductive reading : Type :=
| EmptyTaskDescription
| SendTask (task_description : string).

Definition read_task (content : string) : reading :=
  let d := task_description content in
  if String.eqb d EmptyString then EmptyTaskDescription else SendTask d.

End auto_rca_script.

(** ** Vocabulary of the statements *)

(** [ceil(a / b)] for a positive [b] *)
Definition ceil_div (a b : Z) : Z := - ((- a) `div` b).

(** The value a dict holds under a key. *)
Definition field (key : string) (v : pyval) : option pyval :=
  match v with
  | PDict d => dict_get key d
  | _ => None
  end.

(** [sub] occurs in [s]. *)
Definition occurs_in (sub s : string) : Prop :=
  exists pre post, s = pre +:+ sub +:+ post.

(** The test of the specification: [needle], written in small letters,
    occurs in the text when capital and small letters are not told apart.
    It is spelt out character by character, without [lower]: a character
    of the text stands for a small letter of the needle when it is that
    letter or its capital. *)
Definition same_letter (small c : ascii) : bool :=
  Ascii.eqb c small
  || ((97 <=? nat_of_ascii small) && (nat_of_ascii small <=? 122)
      && (nat_of_ascii c + 32 =? nat_of_ascii small))%nat.

Fixpoint starts_ignoring_case (s needle : string) : bool :=
  match needle, s with
  | EmptyString, _ => true
  | String a needle', String c s' => same_letter a c && starts_ignoring_case s' needle'
  | String _ _, EmptyString => false
  end.

Fixpoint contains_ignoring_case (s needle : string) : bool :=
  starts_ignoring_case s needle ||
  match s with
  | EmptyString => false
  | String _ s' => contains_ignoring_case s' needle
  end.

(** A needle of small letters and spaces. *)
Definition small_char (a : ascii) : bool :=
  let n := nat_of_ascii a in ((n =? 32) || (97 <=? n) && (n <=? 122))%nat.

Fixpoint small_text (s : string) : bool :=
  match s with
  | EmptyString => true
  | String a r => small_char a && small_text r
  end.

(** The claimed suggested limit, in exact arithmetic:
    max(1, floor(n * (5000 / estimate) * 0.8)). *)
Definition exact_suggested_limit (n estimate : Z) : Z :=
  Z.max 1 ((n * 5000 * 8) `div` (estimate * 10)).

Definition long_object : string := "{" +:+ str_repeat " " (Z.to_nat 15002) +:+ "}".
Definition padded_empty_array : string := "[" +:+ str_repeat " " (Z.to_nat 15003) +:+ "]".
Definition rows_309 : string :=
  "[" +:+ join "," (repeat "1" 309) +:+ str_repeat " " (Z.to_nat 24101) +:+ "]".

(** The text of a result, empty when it raised. *)
Definition text_of (r : result string) : string :=
  match r with
  | Ok out => out
  | Raise _ => EmptyString
  end.

(** Induction on a value, with the hypothesis for every member of a list
    and for every value of a dict. *)
Definition pyval_nested_ind (P : pyval -> Prop)
    (HNone : P PNone) (HBool : forall b, P (PBool b)) (HInt : forall z, P (PInt z))
    (HFloat : forall r, P (PFloat r)) (HStr : forall s, P (PStr s))
    (HDate : forall d, P (PDate d)) (HTime : forall t, P (PTime t))
    (HDatetime : forall d, P (PDatetime d))
    (HOther : forall type_name, P (POther type_name))
    (HList : forall l, Forall P l -> P (PList l))
    (HDict : forall d, Forall (fun kv => P (snd kv)) d -> P (PDict d)) : forall v, P v :=
  fix go (v : pyval) : P v :=
    match v with
    | PNone => HNone
    | PBool b => HBool b
    | PInt z => HInt z
    | PFloat r => HFloat r
    | PStr s => HStr s
    | PDate d => HDate d
    | PTime t => HTime t
    | PDatetime d => HDatetime d
    | POther type_name => HOther type_name
    | PList l =>
        HList l ((fix all (l : list pyval) : Forall P l :=
                    match l with
                    | [] => @List.Forall_nil _ P
                    | x :: l' => @List.Forall_cons _ P x l' (go x) (all l')
                    end) l)
    | PDict d =>
        HDict d ((fix all (d : list (string * pyval)) : Forall (fun kv => P (snd kv)) d :=
                    match d with
                    | [] => @List.Forall_nil _ (fun kv => P (snd kv))
                    | kv :: d' => @List.Forall_cons _ (fun kv => P (snd kv)) kv d' (go (snd kv)) (all d')
                    end) d)
    end.

(** The serializer the specification describes: every temporal scalar,
    date, time and timestamp alike, becomes its ISO-8601 string. *)
Fixpoint serialize_all_temporal (obj : pyval) : pyval :=
  match obj with
  | PDate d => PStr (date_isoformat d)
  | PTime t => PStr (time_isoformat t)
  | PDatetime d => PStr (datetime_isoformat d)
  | PDict d => PDict (map (fun kv => (fst kv, serialize_all_temporal (snd kv))) d)
  | PList l => PList (map serialize_all_temporal l)
  | _ => obj
  end.

(** [v'] is [v] with each timestamp replaced by its ISO-8601 string, and
    nothing else touched: same members in the same order, same keys in the
    same order. *)
Inductive timestamps_replaced : pyval -> pyval -> Prop :=
| tr_datetime d : timestamps_replaced (PDatetime d) (PStr (datetime_isoformat d))
| tr_none : timestamps_replaced PNone PNone
| tr_bool b : timestamps_replaced (PBool b) (PBool b)
| tr_int z : timestamps_replaced (PInt z) (PInt z)
| tr_float r : timestamps_replaced (PFloat r) (PFloat r)
| tr_str s : timestamps_replaced (PStr s) (PStr s)
| tr_date d : timestamps_replaced (PDate d) (PDate d)
| tr_time t : timestamps_replaced (PTime t) (PTime t)
| tr_other type_name : timestamps_replaced (POther type_name) (POther type_name)
| tr_list l l' :
    Forall2 timestamps_replaced l l' -> timestamps_replaced (PList l) (PList l')
| tr_dict d d' :
    Forall2 (fun kv kv' => fst kv = fst kv' /\ timestamps_replaced (snd kv) (snd kv')) d d' ->
    timestamps_replaced (PDict d) (PDict d').

(** Some timestamp occurs in the value. *)
Fixpoint has_datetime (v : pyval) : bool :=
  match v with
  | PDatetime _ => true
  | PList l => existsb has_datetime l
  | PDict d => existsb (fun kv => has_datetime (snd kv)) d
  | _ => false
  end.

(** Some date or time occurs in the value. *)
Fixpoint has_date_or_time (v : pyval) : bool :=
  match v with
  | PDate _ | PTime _ => true
  | PList l => existsb has_date_or_time l
  | PDict d => existsb (fun kv => has_date_or_time (snd kv)) d
  | _ => false
  end.

(** Some value of a class outside the ones [pyval] spells out occurs in
    the value. *)
Fixpoint has_other (v : pyval) : bool :=
  match v with
  | POther _ => true
  | PList l => existsb has_other l
  | PDict d => existsb (fun kv => has_other (snd kv)) d
  | _ => false
  end.

(** Values that json.dumps encodes without a float: None, booleans,
    integers, strings, and lists and dicts of such. *)
Fixpoint plain (v : pyval) : bool :=
  match v with
  | PNone | PBool _ | PInt _ | PStr _ => true
  | PFloat _ | PDate _ | PTime _ | PDatetime _ | POther _ => false
  | PList l => forallb plain l
  | PDict d => forallb (fun kv => plain (snd kv)) d
  end.

(** The parse tree of the encoding of a plain value. *)
Fixpoint tree_of (v : pyval) : Json.json :=
  match v with
  | PBool b => Json.JBool b
  | PInt z => Json.JNumber (pretty z)
  | PStr s => Json.JString (Json.escape s)
  | PList l => Json.JArray (map tree_of l)
  | PDict d => Json.JObject (map (fun kv => (Json.escape (fst kv), tree_of (snd kv))) d)
  | _ => Json.JNull
  end.

(** The first character of an encoded value. *)
Definition value_head (c : ascii) : bool :=
  Json.is_digit c || Ascii.eqb c "-" || Ascii.eqb c dquote || Ascii.eqb c "[" || Ascii.eqb c "{"
  || Ascii.eqb c "n" || Ascii.eqb c "t" || Ascii.eqb c "f".

(** What follows an encoded value in the output of json.dumps: nothing, a
    comma or a line break. *)
Definition delimited (rest : string) : bool :=
  match rest with
  | EmptyString => true
  | String c _ => Ascii.eqb c "," || Ascii.eqb c newline
  end.

Fixpoint all_digits (s : string) : bool :=
  match s with
  | EmptyString => true
  | String c r => Json.is_digit c && all_digits r
  end.

(** [text] starts like a value and is scanned as [tree], whatever
    delimited text follows it, with any fuel from some amount on. *)
Definition parses_to (text : string) (tree : Json.json) : Prop :=
  (exists c r, text = String c r /\ value_head c = true) /\
  forall rest, delimited rest = true ->
    exists k, forall fuel, (k <= fuel)%nat ->
      Json.scan_once fuel (text +:+ rest) = Some (tree, rest).

(** [item] is the text of a member of an object: key, colon, value. *)
Definition member_parses (item : string) (m : string * Json.json) : Prop :=
  exists k t, item = Json.encode_string k +:+ ": " +:+ t /\ m.1 = Json.escape k /\ parses_to t m.2.

(** A row with a DATE column, as the engine hands it over. *)
Definition row_with_date : pyval :=
  PList [PDict [("id", PInt 1); ("day", PDate {| d_year := 2024; d_month := 3; d_day := 9 |})]].

(** Well-formed paths: a component holds no slash and is neither empty nor
    a single dot; the root is empty, one slash or two. *)
Fixpoint no_slash (s : string) : bool :=
  match s with
  | EmptyString => true
  | String c r => negb (Ascii.eqb c "/") && no_slash r
  end.

Definition part_ok (x : string) : bool := pathlib.is_part x && no_slash x.

Definition wf_path (p : pathlib.Path) : Prop :=
  (pathlib.root p = EmptyString \/ pathlib.root p = "/" \/ pathlib.root p = "//") /\
  Forall (fun x => part_ok x = true) (pathlib.parts p).

(** [p] lies under [c]: same root, and the components of [c] start those
    of [p].  This is pathlib's is_relative_to. *)
Definition under (p c : pathlib.Path) : Prop :=
  pathlib.root p = pathlib.root c /\ exists rest, pathlib.parts p = (pathlib.parts c ++ rest)%list.


(** The table names [register_views] assigns, file by file, when
    [table_names] are taken already: the loop without the engine. *)
Fixpoint table_names_for (parquet_files : list string) (table_names : gset string) : list string :=
  match parquet_files with
  | [] => []
  | file_path :: rest =>
      let table_name :=
        parquet_tools.unique_table_name (pathlib.stem (pathlib.of_str file_path)) table_names in
      table_name :: table_names_for rest ({[ table_name ]} ∪ table_names)
  end.

(** A connection handle is fresh: every open one is below [next_id]. *)
Definition conns_ok (s : Conns) : Prop := forall i, i ∈ open_ids s -> (i < next_id s)%nat.

(** The files of a listing whose probe fails. *)
Definition failing_files (w : World) (cwd : pathlib.Path) (files : list pathlib.Path) : list pathlib.Path :=
  filter (fun f => is_Ok (list_tables_in_directory.probe w (relative_path cwd (pathlib.str f))) = false) files.

(** The row count of every successful probe is an integer, as COUNT yields
    it. *)
Definition integer_counts (w : World) (cwd : pathlib.Path) (files : list pathlib.Path) : Prop :=
  forall file row_count column_count,
    file ∈ files ->
    list_tables_in_directory.probe w (relative_path cwd (pathlib.str file))
      = Ok (row_count, column_count) ->
    exists n, row_count = PInt n.

(** The row count of every file is an integer of the range of BIGINT, as
    COUNT yields it. *)
Definition bigint_counts (w : World) (cwd : pathlib.Path) (files : list pathlib.Path) : Prop :=
  forall file counted row_count more others,
    file ∈ files ->
    engine w [] (count_sql (relative_path cwd (pathlib.str file))) = Returns counted ->
    rs_rows counted = (row_count :: more) :: others ->
    exists n, row_count = PInt n /\ 0 <= n < 2 ^ 63.

(** An entry of a file whose probe failed: the text of the failure and
    neither count. *)
Definition failed_entry (entry : pyval) (text : string) : Prop :=
  field "error" entry = Some (PStr text) /\
  field "row_count" entry = None /\
  field "column_count" entry = None.

(** An entry of a file whose probe succeeded: the two counts and no error. *)
Definition counted_entry (entry : pyval) (row_count : pyval) (column_count : Z) : Prop :=
  field "row_count" entry = Some row_count /\
  field "column_count" entry = Some (PInt column_count) /\
  field "error" entry = None.

(** A working directory with one table, and a directory [data] that holds
    a good file, a text file and a corrupt file. *)
Definition three_rows : ResultSet :=
  {| description := [("id", "INTEGER"); ("item", "VARCHAR")];
     rs_rows := [[PInt 1; PStr "ink"]; [PInt 2; PStr "pen"]; [PInt 3; PStr "nib"]] |}.

Definition demo_engine (history : list string) (sql : string) : outcome :=
  if startswith sql "CREATE VIEW " then Returns {| description := []; rs_rows := [] |}
  else if String.eqb sql "SELECT * FROM sales" then Returns three_rows
  else if String.eqb sql (count_sql "data/good.parquet") then
    Returns {| description := [("count_star()", "BIGINT")]; rs_rows := [[PInt 3]] |}
  else if String.eqb sql (schema_sql "data/good.parquet") then
    Returns {| description := [("id", "INTEGER"); ("item", "VARCHAR")]; rs_rows := [] |}
  else if String.eqb sql (count_sql "data/bad.parquet") then
    Fails "Invalid Input Error: No magic bytes found at end of file 'data/bad.parquet'"
  else Fails ("Parser Error: syntax error at or near " +:+ DQ +:+ "SELCT" +:+ DQ).

Definition demo_world : World :=
  {| getcwd := "/home/u/cwd";
     fs_stat := fun p => if String.eqb p "data" || String.eqb p "empty" then IsDir
                         else if String.eqb p "sales.parquet" || String.eqb p "data/good.parquet"
                         then IsFile
                         else NoEntry;
     fs_scandir := fun p => if String.eqb p "data" then ["good.parquet"; "notes.txt"; "bad.parquet"] else [];
     engine := demo_engine;
     iter_set := elements;
     iter_set_perm := fun s => Permutation_refl (elements s) |}.

(** No connection has been opened yet. *)
Definition no_conns : Conns := {| next_id := 0; open_ids := ∅ |}.

(** A binary64 number in normal form: a mantissa of 53 bits. *)
Definition normal (x : spec_float) (lo hi : Z) : Prop :=
  match x with
  | S754_finite _ m e => 2 ^ 52 <= Zpos m < 2 ^ 53 /\ lo <= e <= hi
  | _ => False
  end.

(** *** Vocabulary of the further properties *)

(** A scalar as the engine yields it for a column of truth values, whole
    numbers or text: None, a boolean, an integer of the range of HUGEINT, a
    string. *)
Definition flat_value (v : pyval) : bool :=
  match v with
  | PNone | PBool _ | PStr _ => true
  | PInt z => ((- 2 ^ 127 <=? z) && (z <? 2 ^ 127))%Z
  | _ => false
  end.

(** Rows of such scalars: dicts without a list or a dict inside. *)
Definition flat_row (row : pyval) : bool :=
  match row with
  | PDict d => forallb (fun kv => flat_value (snd kv)) d
  | _ => false
  end.

Definition flat_rows (rows : list pyval) : bool := forallb flat_row rows.

(** Four hundred rows of two columns: their encoding is over budget. *)
Definition many_rows : list pyval :=
  repeat (PDict [("id", PInt 7); ("item", PStr "ink")]) 400.

(** [parquet_files] as the list [_validate_parquet_files] walks through. *)
Definition files_of (parquet_files : files_arg) : list string :=
  match parquet_files with
  | OneFile f => [f]
  | FileList l => l
  end.

(** [Path(file_path).exists()] does not come out true: nothing is found at
    the path, or the test itself fails. *)
Definition missing (w : World) (file_path : string) : bool :=
  negb (fs_exists w (pathlib.str (pathlib.of_str file_path))).

(** The table name a file gets when no other file claims it. *)
Definition stem_of (file_path : string) : string := pathlib.stem (pathlib.of_str file_path).

(** The exception of a result, for results that raised. *)
Definition error_of {A} (r : result A) : exn :=
  match r with
  | Raise e => e
  | Ok _ => ValueError EmptyString
  end.

Definition is_file_not_found (e : exn) : bool :=
  match e with
  | FileNotFoundError _ => true
  | _ => false
  end.

(** A table with a DATE column, and an engine that cannot create views. *)
Definition dated_rows : ResultSet :=
  {| description := [("id", "INTEGER"); ("day", "DATE")];
     rs_rows := [[PInt 1; PDate {| d_year := 2024; d_month := 3; d_day := 9 |}]] |}.

Definition dated_world : World :=
  {| getcwd := "/home/u/cwd";
     fs_stat := fun p => IsFile;
     fs_scandir := fun p => [];
     engine := fun history sql =>
                 if startswith sql "CREATE VIEW " then Returns {| description := []; rs_rows := [] |}
                 else Returns dated_rows;
     iter_set := elements;
     iter_set_perm := fun s => Permutation_refl (elements s) |}.

Definition broken_world : World :=
  {| getcwd := "/home/u/cwd";
     fs_stat := fun p => IsFile;
     fs_scandir := fun p => [];
     engine := fun history sql => Fails "IO Error: No files found that match the pattern";
     iter_set := elements;
     iter_set_perm := fun s => Permutation_refl (elements s) |}.

(** A world with a directory that may not be searched: the existence test
    of a path under it fails with EACCES. *)
Definition guarded_world : World :=
  {| getcwd := "/home/u/cwd";
     fs_stat := fun p => if startswith p "locked/"
                         then StatError ("[Errno 13] Permission denied: '" +:+ p +:+ "'")
                         else if String.eqb p "locked" then IsDir
                         else IsFile;
     fs_scandir := fun p => [];
     engine := fun history sql => Returns {| description := []; rs_rows := [] |};
     iter_set := elements;
     iter_set_perm := fun s => Permutation_refl (elements s) |}.

(** An engine that answers as DuckDB does, with capitals: a query without
    selection list is a parser error, any other query names a table that is
    not there. *)
Definition capitals_world : World :=
  {| getcwd := "/home/u/cwd";
     fs_stat := fun p => IsFile;
     fs_scandir := fun p => [];
     engine := fun history sql =>
                 if startswith sql "CREATE VIEW " then Returns {| description := []; rs_rows := [] |}
                 else if String.eqb sql "SELECT FROM sales"
                 then Fails "Parser Error: SELECT clause without selection list"
                 else Fails "Catalog Error: Table with name orders does not exist!";
     iter_set := elements;
     iter_set_perm := fun s => Permutation_refl (elements s) |}.

(** The three openings of the messages of query_parquet_files. *)
Definition query_error_prefix (msg : string) : Prop :=
  startswith msg "SQL syntax error in query: " = true \/
  startswith msg "Table reference error: " = true \/
  startswith msg "Query execution failed: " = true.

(** The message get_schema wraps a failure in. *)
Definition schema_failure (cause parquet_file : string) : string :=
  "Failed to extract schema from parquet file: " +:+ cause +:+ NL
  +:+ "File: " +:+ parquet_file +:+ NL
  +:+ "This may indicate a corrupted file or unsupported parquet format.".

(** The [schema_info] dict of get_schema. *)
Definition schema_info_of (parquet_file : string) (row_count : pyval)
    (columns : list (string * string)) : pyval :=
  PDict [ ("file", PStr parquet_file);
          ("row_count", row_count);
          ("columns", PList (map (fun desc => PDict [("name", PStr (fst desc)); ("type", PStr (snd desc))])
                                 columns)) ].

(** A file whose COUNT statement yields no row. *)
Definition countless_world : World :=
  {| getcwd := "/home/u/cwd";
     fs_stat := fun p => IsFile;
     fs_scandir := fun p => [];
     engine := fun history sql =>
                 if startswith sql "SELECT COUNT" then Returns {| description := []; rs_rows := [] |}
                 else Returns {| description := [("id", "INTEGER")]; rs_rows := [] |};
     iter_set := elements;
     iter_set_perm := fun s => Permutation_refl (elements s) |}.

(** Two results of the two copies of a plugin agree: the same exception, or
    the same text, or two reports of the same overflow, the second with the
    suggestion. *)
Definition copies_agree (standalone combined : result string) : Prop :=
  match standalone, combined with
  | Raise e, Raise e' => e = e'
  | Ok out, Ok out' =>
      out = out' \/
      exists context token_estimate current_size suggested_limit,
        Json.dumps (token_budget.warning context token_estimate current_size suggested_limit) = Ok out /\
        Json.dumps (parquet_tools.warning context token_estimate current_size suggested_limit) = Ok out'
  | _, _ => False
  end.

(** No double quote occurs in the text. *)
Fixpoint no_quote (s : string) : bool :=
  match s with
  | EmptyString => true
  | String c r => negb (Ascii.eqb c dquote) && no_quote r
  end.

(** The value of the last pair that bears the key. *)
Fixpoint last_value (k : string) (pairs : list (string * pyval)) : option pyval :=
  match pairs with
  | [] => None
  | (k', v) :: rest =>
      match last_value k rest with
      | Some v' => Some v'
      | None => if String.eqb k k' then Some v else None
      end
  end.

(** * Theorems *)

(** ** Strings *)

Section Strings.

Lemma str_app_cons c s t : String c s +:+ t = String c (s +:+ t).
Proof. reflexivity. Qed.

Lemma str_app_nil_l s : EmptyString +:+ s = s.
Proof. reflexivity. Qed.

Lemma str_app_nil_r s : s +:+ EmptyString = s.
Proof. induction s as [|c s IH]; [done|]. by rewrite str_app_cons, IH. Qed.

Lemma str_app_assoc s t u : (s +:+ t) +:+ u = s +:+ (t +:+ u).
Proof. induction s as [|c s IH]; [done|]. by rewrite !str_app_cons, IH. Qed.

Lemma str_length_app s t : String.length (s +:+ t) = (String.length s + String.length t)%nat.
Proof.
  induction s as [|c s IH]; [done|]. rewrite str_app_cons. cbn [String.length]. by rewrite IH.
Qed.

Lemma join_cons sep x y l : join sep (x :: y :: l) = x +:+ sep +:+ join sep (y :: l).
Proof. reflexivity. Qed.

End Strings.

(** ** json.loads: the fuel is enough *)

Section JsonFuel.
Import Json.
Local Open Scope nat_scope.

Lemma skip_ws_length s : String.length (skip_ws s) <= String.length s.
Proof.
  induction s as [|c s IH]; cbn [skip_ws String.length]; [lia|].
  destruct (is_ws c); cbn [String.length]; lia.
Qed.

Lemma scan_string_length_upto n : forall s b r,
  String.length s <= n -> scan_string s = Some (b, r) -> String.length r < String.length s.
Proof.
  induction n as [|n IH]; intros s b r Hn.
  { destruct s; [done | cbn [String.length] in Hn; lia]. }
  destruct s as [|c s]; cbn [scan_string]; [done|]. cbn [String.length] in Hn.
  destruct (Ascii.eqb c dquote); [intros [= _ <-]; cbn [String.length]; lia|].
  destruct (Ascii.eqb c "\").
  - destruct s as [|e s]; [done|].
    destruct (Ascii.eqb e "u").
    + destruct s as [|h1 [|h2 [|h3 [|h4 s]]]]; try done.
      destruct (is_hex h1 && is_hex h2 && is_hex h3 && is_hex h4); [|done].
      destruct (scan_string s) as [[b' r']|] eqn:E; [|done].
      intros [= _ <-]. apply IH in E; cbn [String.length] in *; lia.
    + destruct (_ || _); [|done].
      destruct (scan_string s) as [[b' r']|] eqn:E; [|done].
      intros [= _ <-]. apply IH in E; cbn [String.length] in *; lia.
  - destruct (nat_of_ascii c <? 32); [done|].
    destruct (scan_string s) as [[b' r']|] eqn:E; [|done].
    intros [= _ <-]. apply IH in E; cbn [String.length] in *; lia.
Qed.

Lemma scan_string_length s b r :
  scan_string s = Some (b, r) -> String.length r < String.length s.
Proof. by apply (scan_string_length_upto (String.length s)). Qed.

Lemma strip_prefix_length p s r :
  strip_prefix p s = Some r -> String.length s = String.length p + String.length r.
Proof.
  revert s. induction p as [|c p IH]; intros s; cbn [strip_prefix].
  - by intros [= ->].
  - destruct s as [|d s]; [done|]. destruct (Ascii.eqb c d); [|done].
    intros H%IH. cbn [String.length]. lia.
Qed.

Lemma span_digits_length s ds r :
  span_digits s = (ds, r) -> String.length s = String.length ds + String.length r.
Proof.
  revert ds r. induction s as [|c s IH]; intros ds r; cbn [span_digits].
  - by intros [= <- <-].
  - destruct (is_digit c); [|by intros [= <- <-]].
    destruct (span_digits s) as [ds' r'] eqn:E. intros [= <- <-].
    specialize (IH _ _ eq_refl). cbn [String.length]. lia.
Qed.

Lemma scan_frac_length s f r : scan_frac s = (f, r) -> String.length r <= String.length s.
Proof.
  unfold scan_frac. destruct s as [|c s]; [by intros [= _ <-]|].
  destruct (Ascii.eqb c "."); [|by intros [= _ <-]].
  destruct (span_digits s) as [ds r'] eqn:E. apply span_digits_length in E.
  destruct ds; intros [= _ <-]; cbn [String.length] in *; lia.
Qed.

Lemma scan_exp_length s f r : scan_exp s = (f, r) -> String.length r <= String.length s.
Proof.
  unfold scan_exp. destruct s as [|c s]; [by intros [= _ <-]|].
  destruct (_ || _); [|by intros [= _ <-]].
  destruct (match s with | EmptyString => _ | String d r1 => _ end) as [sign r1] eqn:Es.
  assert (String.length r1 <= String.length s).
  { destruct s as [|d s]; [by injection Es as _ <-|].
    destruct (_ || _); injection Es as _ <-; cbn [String.length]; lia. }
  destruct (span_digits r1) as [ds r'] eqn:E. apply span_digits_length in E.
  destruct ds; intros [= _ <-]; cbn [String.length] in *; lia.
Qed.

Lemma scan_int_length s i r : scan_int s = Some (i, r) -> String.length r < String.length s.
Proof.
  unfold scan_int.
  destruct (match s with | EmptyString => _ | String c r0 => _ end) as [sign s1] eqn:Es.
  assert (String.length s1 <= String.length s).
  { destruct s as [|c s]; [by injection Es as _ <-|].
    destruct (Ascii.eqb c "-"); injection Es as _ <-; cbn [String.length]; lia. }
  destruct s1 as [|c r0]; [done|].
  destruct (Ascii.eqb c "0"); [intros [= _ <-]; cbn [String.length] in *; lia|].
  destruct (is_digit c) eqn:Ed; [|done].
  destruct (span_digits (String c r0)) as [ds r'] eqn:E. intros [= _ <-].
  cbn [span_digits] in E. rewrite Ed in E.
  destruct (span_digits r0) as [ds0 r0'] eqn:E0. injection E as _ <-.
  apply span_digits_length in E0. cbn [String.length] in *. lia.
Qed.

Lemma scan_number_length s n r : scan_number s = Some (n, r) -> String.length r < String.length s.
Proof.
  unfold scan_number. destruct (scan_int s) as [[i r0]|] eqn:Ei; [|done].
  destruct (scan_frac r0) as [f r1] eqn:Ef. destruct (scan_exp r1) as [e r2] eqn:Ee.
  intros [= _ <-]. apply scan_int_length in Ei. apply scan_frac_length in Ef.
  apply scan_exp_length in Ee. lia.
Qed.

Lemma scan_literal_length s v r : scan_literal s = Some (v, r) -> String.length r < String.length s.
Proof.
  unfold scan_literal.
  repeat (match goal with
          | |- context [strip_prefix ?p s] =>
              destruct (strip_prefix p s) eqn:?;
              [intros [= _ <-];
               match goal with H : strip_prefix _ _ = Some _ |- _ =>
                 apply strip_prefix_length in H; cbn [String.length] in H; lia end|]
          | |- context [scan_number s] =>
              destruct (scan_number s) as [[? ?]|] eqn:?;
              [intros [= _ <-]; by eapply scan_number_length|]
          end).
  done.
Qed.

(** A successful scan consumes at least one character, and needs no more
    fuel than the characters it consumes. *)
Lemma scan_fuel fuel :
  (forall s v r, scan_once fuel s = Some (v, r) ->
     exists k, 1 <= k /\ String.length s = k + String.length r /\
               forall fuel', k <= fuel' -> scan_once fuel' s = Some (v, r)) /\
  (forall s acc v r, parse_items fuel s acc = Some (v, r) ->
     exists k, 1 <= k /\ String.length s = k + String.length r /\
               forall fuel', k <= fuel' -> parse_items fuel' s acc = Some (v, r)) /\
  (forall s acc v r, parse_members fuel s acc = Some (v, r) ->
     exists k, 1 <= k /\ String.length s = k + String.length r /\
               forall fuel', k <= fuel' -> parse_members fuel' s acc = Some (v, r)).
Proof.
  induction fuel as [|fuel (IHs & IHi & IHm)]; [by repeat split|].
  split; [|split].
  - intros s v r. cbn [scan_once]. destruct s as [|c r0]; [done|].
    destruct (Ascii.eqb c dquote) eqn:E1.
    { destruct (scan_string r0) as [[b r']|] eqn:Es; [|done]. intros [= <- <-].
      pose proof (scan_string_length _ _ _ Es).
      exists (String.length (String c r0) - String.length r'). cbn [String.length].
      split; [lia|]. split; [lia|]. intros [|f'] Hf; [lia|]. cbn [scan_once]. by rewrite E1, Es. }
    destruct (Ascii.eqb c "{") eqn:E2.
    { pose proof (skip_ws_length r0) as Hws.
      destruct (skip_ws r0) as [|d r1] eqn:Ew; [done|].
      destruct (Ascii.eqb d "}") eqn:E3.
      - intros [= <- <-]. exists (String.length (String c r0) - String.length r1).
        cbn [String.length] in *. split; [lia|]. split; [lia|].
        intros [|f'] Hf; [lia|]. cbn [scan_once]. by rewrite E1, E2, Ew, E3.
      - intros (k & Hk & Hlen & Hfuel)%IHm.
        exists (String.length (String c r0) - String.length r).
        cbn [String.length] in *. split; [lia|]. split; [lia|].
        intros [|f'] Hf; [lia|]. cbn [scan_once]. rewrite E1, E2, Ew, E3. apply Hfuel. lia. }
    destruct (Ascii.eqb c "[") eqn:E3.
    { pose proof (skip_ws_length r0) as Hws.
      destruct (skip_ws r0) as [|d r1] eqn:Ew; [done|].
      destruct (Ascii.eqb d "]") eqn:E4.
      - intros [= <- <-]. exists (String.length (String c r0) - String.length r1).
        cbn [String.length] in *. split; [lia|]. split; [lia|].
        intros [|f'] Hf; [lia|]. cbn [scan_once]. by rewrite E1, E2, E3, Ew, E4.
      - intros (k & Hk & Hlen & Hfuel)%IHi.
        exists (String.length (String c r0) - String.length r).
        cbn [String.length] in *. split; [lia|]. split; [lia|].
        intros [|f'] Hf; [lia|]. cbn [scan_once]. rewrite E1, E2, E3, Ew, E4. apply Hfuel. lia. }
    intros Hl. pose proof (scan_literal_length _ _ _ Hl).
    exists (String.length (String c r0) - String.length r). split; [lia|]. split; [lia|].
    intros [|f'] Hf; [lia|]. cbn [scan_once]. by rewrite E1, E2, E3.
  - intros s acc v r. cbn [parse_items].
    destruct (scan_once fuel s) as [[v0 r0]|] eqn:Ev; [|done].
    apply IHs in Ev as (k0 & Hk0 & Hlen0 & Hfuel0).
    pose proof (skip_ws_length r0) as Hws.
    destruct (skip_ws r0) as [|d r1] eqn:Ew; [done|].
    destruct (Ascii.eqb d "]") eqn:E1.
    + intros [= <- <-]. exists (String.length s - String.length r1).
      cbn [String.length] in *. split; [lia|]. split; [lia|].
      intros [|f'] Hf; [lia|]. cbn [parse_items]. rewrite Hfuel0 by lia. by rewrite Ew, E1.
    + destruct (Ascii.eqb d ",") eqn:E2; [|done].
      pose proof (skip_ws_length r1) as Hws1.
      intros (k1 & Hk1 & Hlen1 & Hfuel1)%IHi.
      exists (String.length s - String.length r).
      cbn [String.length] in *. split; [lia|]. split; [lia|].
      intros [|f'] Hf; [lia|]. cbn [parse_items]. rewrite Hfuel0 by lia. rewrite Ew, E1, E2.
      apply Hfuel1. lia.
  - intros s acc v r. cbn [parse_members]. destruct s as [|q r0]; [done|].
    destruct (Ascii.eqb q dquote) eqn:E0; [|done].
    destruct (scan_string r0) as [[key r1]|] eqn:Ek; [|done].
    pose proof (scan_string_length _ _ _ Ek) as Hk.
    pose proof (skip_ws_length r1) as Hws1.
    destruct (skip_ws r1) as [|d r2] eqn:Ew1; [done|].
    destruct (Ascii.eqb d ":") eqn:E1; [|done].
    pose proof (skip_ws_length r2) as Hws2.
    destruct (scan_once fuel (skip_ws r2)) as [[v0 r3]|] eqn:Ev; [|done].
    apply IHs in Ev as (k0 & Hk0 & Hlen0 & Hfuel0).
    pose proof (skip_ws_length r3) as Hws3.
    destruct (skip_ws r3) as [|d2 r4] eqn:Ew3; [done|].
    destruct (Ascii.eqb d2 "}") eqn:E2.
    + intros [= <- <-]. exists (String.length (String q r0) - String.length r4).
      cbn [String.length] in *. split; [lia|]. split; [lia|].
      intros [|f'] Hf; [lia|]. cbn [parse_members]. rewrite E0, Ek, Ew1, E1.
      rewrite Hfuel0 by lia. by rewrite Ew3, E2.
    + destruct (Ascii.eqb d2 ",") eqn:E3; [|done].
      pose proof (skip_ws_length r4) as Hws4.
      intros (k1 & Hk1 & Hlen1 & Hfuel1)%IHm.
      exists (String.length (String q r0) - String.length r).
      cbn [String.length] in *. split; [lia|]. split; [lia|].
      intros [|f'] Hf; [lia|]. cbn [parse_members]. rewrite E0, Ek, Ew1, E1.
      rewrite Hfuel0 by lia. rewrite Ew3, E2, E3. apply Hfuel1. lia.
Qed.

(** The fuel [loads] gives is enough: a scan that succeeds with any fuel
    succeeds with it, with the same result. *)
Lemma scan_once_fuel fuel s v r :
  scan_once fuel (skip_ws s) = Some (v, r) ->
  scan_once (S (String.length s)) (skip_ws s) = Some (v, r).
Proof.
  intros (k & Hk & Hlen & Hfuel)%(proj1 (scan_fuel fuel)).
  apply Hfuel. pose proof (skip_ws_length s). lia.
Qed.

(** So [loads] refuses a text only when no amount of fuel would accept it. *)
Lemma loads_complete s fuel v r :
  scan_once fuel (skip_ws s) = Some (v, r) -> skip_ws r = EmptyString -> loads s = Ok v.
Proof.
  intros H%scan_once_fuel Hr. unfold loads. by rewrite H, Hr.
Qed.

End JsonFuel.

Section JsonCount.
Import Json.
Local Open Scope nat_scope.

(** An array has no more elements than its text has characters. *)
Lemma parse_items_count fuel : forall s acc v r,
  parse_items fuel s acc = Some (v, r) ->
  exists items, v = JArray items /\ length items + String.length r <= length acc + String.length s.
Proof.
  induction fuel as [|fuel IH]; intros s acc v r; [done|]. cbn [parse_items].
  destruct (scan_once fuel s) as [[v0 r0]|] eqn:Ev; [|done].
  apply (proj1 (scan_fuel fuel)) in Ev as (k & Hk & Hlen & _).
  pose proof (skip_ws_length r0) as Hws.
  destruct (skip_ws r0) as [|d r1]; [done|]. cbn [String.length] in Hws.
  destruct (Ascii.eqb d "]").
  - intros [= <- <-]. exists (rev (v0 :: acc)). split; [reflexivity|].
    rewrite List.length_rev. cbn [length]. lia.
  - destruct (Ascii.eqb d ","); [|done].
    intros (items & -> & Hc)%IH. exists items. split; [done|].
    pose proof (skip_ws_length r1). cbn [length] in Hc. lia.
Qed.

Lemma loads_array_count s items :
  loads s = Ok (JArray items) -> length items <= String.length s.
Proof.
  unfold loads. pose proof (skip_ws_length s) as Hws.
  destruct (scan_once _ (skip_ws s)) as [[v r]|] eqn:E; [|done].
  destruct (skip_ws r); [|done]. intros [= ->].
  destruct (skip_ws s) as [|c r0]; [done|]. cbn [scan_once String.length] in E, Hws.
  destruct (Ascii.eqb c dquote); [by destruct (scan_string r0) as [[? ?]|]|].
  destruct (Ascii.eqb c "{").
  { destruct (skip_ws r0) as [|d r1]; [done|]. destruct (Ascii.eqb d "}"); [done|].
    assert (Hm : forall fuel s acc v r, parse_members fuel s acc = Some (v, r) ->
                   exists members, v = JObject members).
    { clear. induction fuel as [|fuel IH]; intros s acc v r; [done|]. cbn [parse_members].
      destruct s as [|q r0]; [done|]. destruct (Ascii.eqb q dquote); [|done].
      destruct (scan_string r0) as [[k r1]|]; [|done].
      destruct (skip_ws r1) as [|d r2]; [done|]. destruct (Ascii.eqb d ":"); [|done].
      destruct (scan_once fuel (skip_ws r2)) as [[v0 r3]|]; [|done].
      destruct (skip_ws r3) as [|d2 r4]; [done|].
      destruct (Ascii.eqb d2 "}"); [intros [= <- _]; eauto|].
      destruct (Ascii.eqb d2 ","); [|done]. apply IH. }
    by apply Hm in E as [members ?]. }
  destruct (Ascii.eqb c "[").
  - pose proof (skip_ws_length r0) as Hws0.
    destruct (skip_ws r0) as [|d r1]; [done|]. cbn [String.length] in Hws0.
    destruct (Ascii.eqb d "]"); [injection E as <- _; cbn [length]; lia|].
    apply parse_items_count in E as (items' & [= ->] & Hc).
    cbn [length String.length] in Hc. lia.
  - unfold scan_literal in E.
    repeat (match type of E with
            | context [strip_prefix ?p ?s] => destruct (strip_prefix p s); [done|]
            | context [scan_number ?s] => destruct (scan_number s) as [[? ?]|]; [done|]
            end).
    done.
Qed.
End JsonCount.

(** ** json.loads accepts the output of json.dumps *)

Section RoundTrip.
Import Json.
Local Open Scope nat_scope.

(** Strings *)

Lemma scan_string_escape_char c t :
  scan_string (escape_char c +:+ t) =
    match scan_string t with
    | Some (b, r) => Some (escape_char c +:+ b, r)
    | None => None
    end.
Proof.
  destruct c as [[] [] [] [] [] [] [] []]; reflexivity.
Qed.

Lemma scan_string_escape s rest :
  scan_string (escape s +:+ DQ +:+ rest) = Some (escape s, rest).
Proof.
  induction s as [|c s IH]; [reflexivity|].
  cbn [escape]. rewrite str_app_assoc, scan_string_escape_char, IH. reflexivity.
Qed.

(** Digits *)

Lemma pretty_N_char_digit n : is_digit (pretty_N_char n) = true.
Proof. unfold pretty_N_char. repeat case_match; reflexivity. Qed.

Lemma pretty_N_go_digits x : forall s, (0 < x)%N ->
  exists c ds, pretty_N_go x s = String c (ds +:+ s) /\
               is_digit c = true /\ Ascii.eqb c "0" = false /\ all_digits ds = true.
Proof.
  induction (N.lt_wf_0 x) as [x _ IH]. intros s Hx.
  rewrite pretty_N_go_step by done.
  destruct (decide (x < 10)%N) as [Hlt|Hge].
  - rewrite N.div_small, N.mod_small by done. rewrite pretty_N_go_0.
    exists (pretty_N_char x), EmptyString. split; [done|].
    split; [apply pretty_N_char_digit|]. split; [|done].
    destruct x as [|p]; [lia|].
    repeat (destruct p as [p|p|]; try lia); reflexivity.
  - destruct (IH (x `div` 10)%N) with (s := String (pretty_N_char (x `mod` 10)) s)
      as (c & ds & -> & Hc & Hc0 & Hds).
    + apply N.div_lt; lia.
    + apply N.div_str_pos. lia.
    + exists c, (ds +:+ String (pretty_N_char (x `mod` 10)) EmptyString).
      split; [by rewrite str_app_assoc|]. split; [done|]. split; [done|].
      clear -Hds. induction ds as [|d ds IHd]; cbn [all_digits] in *.
      * rewrite str_app_nil_l. cbn [all_digits]. by rewrite pretty_N_char_digit.
      * rewrite str_app_cons. cbn [all_digits]. apply andb_true_iff in Hds as [-> H].
        by rewrite IHd.
Qed.

Lemma delimited_head rest :
  delimited rest = true ->
  match rest with
  | EmptyString => True
  | String c _ => is_digit c = false /\ Ascii.eqb c "." = false /\
                  Ascii.eqb c "e" = false /\ Ascii.eqb c "E" = false
  end.
Proof.
  destruct rest as [|c r]; [done|]. cbn [delimited].
  destruct c as [[] [] [] [] [] [] [] []]; try discriminate; done.
Qed.

Lemma span_digits_app ds rest :
  all_digits ds = true -> delimited rest = true -> span_digits (ds +:+ rest) = (ds, rest).
Proof.
  intros Hds Hr. induction ds as [|d ds IH].
  - rewrite str_app_nil_l. apply delimited_head in Hr.
    destruct rest as [|c r]; [done|]. cbn [span_digits]. by destruct Hr as [-> _].
  - cbn [all_digits] in Hds. apply andb_true_iff in Hds as [Hd Hds].
    rewrite str_app_cons. cbn [span_digits]. by rewrite Hd, IH.
Qed.

Lemma scan_tail_delimited rest :
  delimited rest = true -> scan_frac rest = (EmptyString, rest) /\ scan_exp rest = (EmptyString, rest).
Proof.
  intros Hr%delimited_head. destruct rest as [|c r]; [done|].
  destruct Hr as (_ & H1 & H2 & H3). cbn [scan_frac scan_exp]. by rewrite H1, H2, H3.
Qed.

Lemma scan_number_digits c ds rest :
  is_digit c = true -> Ascii.eqb c "0" = false -> all_digits ds = true -> delimited rest = true ->
  scan_number (String c (ds +:+ rest)) = Some (String c ds, rest) /\
  scan_number (String "-" (String c (ds +:+ rest))) = Some (String "-" (String c ds), rest).
Proof.
  intros Hc Hc0 Hds Hr.
  assert (Hm : Ascii.eqb c "-" = false).
  { clear -Hc. destruct c as [[] [] [] [] [] [] [] []]; try discriminate; done. }
  pose proof (span_digits_app (String c ds) rest) as Hspan.
  cbn [all_digits] in Hspan. rewrite Hc, Hds in Hspan. specialize (Hspan eq_refl Hr).
  rewrite str_app_cons in Hspan.
  destruct (scan_tail_delimited rest Hr) as [Hf He].
  split; unfold scan_number, scan_int.
  - rewrite Hm, Hc0, Hc, Hspan, Hf, He. by rewrite str_app_nil_l, !str_app_nil_r.
  - change (Ascii.eqb "-" "-") with true. cbv iota.
    rewrite Hc0, Hc, Hspan, Hf, He. by rewrite !str_app_nil_r.
Qed.

Lemma scan_number_pretty (z : Z) rest :
  delimited rest = true -> scan_number (pretty z +:+ rest) = Some (pretty z, rest).
Proof.
  intros Hr. destruct (scan_tail_delimited rest Hr) as [Hf He].
  destruct z as [|p|p].
  - change (pretty 0%Z) with "0". rewrite str_app_cons, str_app_nil_l.
    unfold scan_number, scan_int. change (Ascii.eqb "0" "-") with false. cbv iota.
    change (Ascii.eqb "0" "0") with true. cbv iota. by rewrite Hf, He.
  - change (pretty (Z.pos p)) with (pretty_N_go (N.pos p) EmptyString).
    destruct (pretty_N_go_digits (N.pos p) EmptyString) as (c & ds & -> & Hc & Hc0 & Hds); [lia|].
    rewrite str_app_nil_r, str_app_cons.
    by apply scan_number_digits.
  - change (pretty (Z.neg p)) with ("-" +:+ pretty_N_go (N.pos p) EmptyString).
    destruct (pretty_N_go_digits (N.pos p) EmptyString) as (c & ds & -> & Hc & Hc0 & Hds); [lia|].
    rewrite str_app_nil_r, !str_app_cons, str_app_nil_l.
    by apply scan_number_digits.
Qed.

Lemma pretty_Z_head (z : Z) :
  exists c r, pretty z = String c r /\ is_digit c || Ascii.eqb c "-" = true.
Proof.
  destruct z as [|p|p].
  - by exists "0"%char, EmptyString.
  - change (pretty (Z.pos p)) with (pretty_N_go (N.pos p) EmptyString).
    destruct (pretty_N_go_digits (N.pos p) EmptyString) as (c & ds & -> & Hc & _); [lia|].
    exists c, (ds +:+ EmptyString). split; [done|]. by rewrite Hc.
  - change (pretty (Z.neg p)) with ("-" +:+ pretty_N_go (N.pos p) EmptyString).
    eexists "-"%char, _. split; [by rewrite str_app_cons, str_app_nil_l|done].
Qed.

Lemma scan_once_number fuel c r n r' :
  is_digit c || Ascii.eqb c "-" = true ->
  scan_number (String c r) = Some (n, r') ->
  scan_once (S fuel) (String c r) = Some (JNumber n, r').
Proof.
  intros Hc Hn.
  destruct c as [[] [] [] [] [] [] [] []]; try discriminate Hc;
    cbn [scan_once]; unfold scan_literal; by rewrite Hn.
Qed.

(** Arrays and objects *)

Lemma value_head_spec c :
  value_head c = true ->
  is_ws c = false /\ Ascii.eqb c "]" = false /\ Ascii.eqb c "}" = false.
Proof. destruct c as [[] [] [] [] [] [] [] []]; try discriminate; done. Qed.

Lemma skip_ws_head c r : value_head c = true -> skip_ws (String c r) = String c r.
Proof. intros (H & _)%value_head_spec. cbn [skip_ws]. by rewrite H. Qed.

Lemma skip_ws_spaces n s : skip_ws (str_repeat " " n +:+ s) = skip_ws s.
Proof. induction n as [|n IH]; [done|]. cbn [str_repeat]. by rewrite str_app_cons. Qed.

Lemma skip_ws_newline_indent level s : skip_ws (newline_indent level +:+ s) = skip_ws s.
Proof.
  unfold newline_indent, NL. rewrite str_app_assoc, str_app_cons, str_app_nil_l.
  cbn [skip_ws]. change (is_ws newline) with true. cbv iota. apply skip_ws_spaces.
Qed.

Lemma delimited_newline_indent level s : delimited (newline_indent level +:+ s) = true.
Proof. unfold newline_indent, NL. by rewrite str_app_assoc, str_app_cons. Qed.

(** The head of a joined text is the head of its first item. *)
Lemma join_head sep t items tail c r :
  t = String c r -> exists r', join sep (t :: items) +:+ tail = String c r'.
Proof.
  intros ->. destruct items as [|t2 items].
  - cbn [join]. rewrite str_app_cons. eauto.
  - rewrite join_cons, !str_app_cons. eauto.
Qed.

Lemma parse_items_join level items trees :
  Forall2 parses_to items trees -> items <> [] ->
  forall acc rest, exists k, forall fuel, k <= fuel ->
    parse_items fuel
      (join ("," +:+ newline_indent (S level)) items +:+ newline_indent level +:+ "]" +:+ rest) acc
    = Some (JArray (rev acc ++ trees), rest).
Proof.
  induction 1 as [|t tr items trees Ht Hrest IH]; [done|]. intros _ acc rest.
  destruct Ht as [_ Ht].
  destruct Hrest as [|t2 tr2 items trees Ht2 Hrest].
  - cbn [join].
    destruct (Ht (newline_indent level +:+ "]" +:+ rest)) as [k0 Hk0];
      [apply delimited_newline_indent|].
    exists (S k0). intros [|fuel] Hfuel; [lia|]. cbn [parse_items].
    rewrite Hk0 by lia. rewrite skip_ws_newline_indent.
    rewrite str_app_cons, str_app_nil_l. cbn [skip_ws]. change (is_ws "]") with false. cbv iota.
    change (Ascii.eqb "]" "]") with true. cbv iota. cbn [rev]. done.
  - rewrite join_cons. set (J := join _ (t2 :: items)) in *.
    set (tail := newline_indent level +:+ "]" +:+ rest) in *.
    rewrite !str_app_assoc. rewrite (str_app_cons "," EmptyString), str_app_nil_l.
    destruct (Ht (String "," (newline_indent (S level) +:+ J +:+ tail))) as [k0 Hk0]; [done|].
    destruct (IH ltac:(done) (tr :: acc) rest) as [k1 Hk1].
    exists (S (k0 `max` k1)). intros [|fuel] Hfuel; [lia|]. cbn [parse_items].
    rewrite Hk0 by lia. cbn [skip_ws]. change (is_ws ",") with false. cbv iota.
    change (Ascii.eqb "," "]") with false. change (Ascii.eqb "," ",") with true. cbv iota.
    rewrite skip_ws_newline_indent.
    destruct Ht2 as [(c & r & Hc & Hhead) _].
    destruct (join_head ("," +:+ newline_indent (S level)) t2 items tail c r Hc) as [r' Hr'].
    fold J in Hr'. rewrite Hr', skip_ws_head by done. rewrite <- Hr'.
    rewrite Hk1 by lia. cbn [rev]. by rewrite <- app_assoc.
Qed.

Lemma parse_member_step k x tr R acc fuel k0 :
  parses_to x tr ->
  (forall fuel, k0 <= fuel -> scan_once fuel (x +:+ R) = Some (tr, R)) -> k0 <= fuel ->
  parse_members (S fuel) ((encode_string k +:+ ": " +:+ x) +:+ R) acc =
    match skip_ws R with
    | String d2 r3 =>
        if Ascii.eqb d2 "}" then Some (JObject (rev ((escape k, tr) :: acc)), r3)
        else if Ascii.eqb d2 "," then parse_members fuel (skip_ws r3) ((escape k, tr) :: acc)
        else None
    | EmptyString => None
    end.
Proof.
  intros [(c & r & Hc & Hhead) _] Hk0 Hfuel. unfold encode_string, DQ.
  rewrite !str_app_assoc, str_app_cons, str_app_nil_l. cbn [parse_members].
  change (Ascii.eqb dquote dquote) with true. cbv iota.
  rewrite scan_string_escape. rewrite !str_app_cons, str_app_nil_l.
  cbn [skip_ws]. change (is_ws ":") with false. cbv iota.
  change (Ascii.eqb ":" ":") with true. cbv iota.
  change (skip_ws (String " " (x +:+ R))) with (skip_ws (x +:+ R)).
  assert (skip_ws (x +:+ R) = x +:+ R) as -> by (by rewrite Hc, str_app_cons, skip_ws_head).
  by rewrite Hk0.
Qed.

Lemma parse_members_join level items members :
  Forall2 member_parses items members -> items <> [] ->
  forall acc rest, exists k, forall fuel, k <= fuel ->
    parse_members fuel
      (join ("," +:+ newline_indent (S level)) items +:+ newline_indent level +:+ "}" +:+ rest) acc
    = Some (JObject (rev acc ++ members), rest).
Proof.
  induction 1 as [|t [key tr] items members Ht Hrest IH]; [done|]. intros _ acc rest.
  destruct Ht as (k & x & -> & Hkey & Hx). cbn [fst snd] in Hkey, Hx. subst key.
  destruct Hrest as [|t2 m2 items members Ht2 Hrest].
  - cbn [join].
    destruct (proj2 Hx (newline_indent level +:+ "}" +:+ rest)) as [k0 Hk0];
      [apply delimited_newline_indent|].
    exists (S k0). intros [|fuel] Hfuel; [lia|].
    rewrite (parse_member_step _ _ _ _ _ _ _ Hx Hk0) by lia.
    rewrite skip_ws_newline_indent.
    rewrite str_app_cons, str_app_nil_l. cbn [skip_ws]. change (is_ws "}") with false. cbv iota.
    change (Ascii.eqb "}" "}") with true. cbv iota. cbn [rev]. done.
  - rewrite join_cons. set (J := join _ (t2 :: items)) in *.
    set (tail := newline_indent level +:+ "}" +:+ rest) in *.
    rewrite (str_app_assoc _ _ tail), (str_app_assoc _ J tail).
    rewrite (str_app_cons "," EmptyString), str_app_nil_l.
    rewrite (str_app_cons ","). 
    destruct (proj2 Hx (String "," (newline_indent (S level) +:+ J +:+ tail))) as [k0 Hk0]; [done|].
    destruct (IH ltac:(done) ((escape k, tr) :: acc) rest) as [k1 Hk1].
    exists (S (k0 `max` k1)). intros [|fuel] Hfuel; [lia|].
    rewrite (parse_member_step _ _ _ _ _ _ _ Hx Hk0) by lia.
    cbn [skip_ws]. change (is_ws ",") with false. cbv iota.
    change (Ascii.eqb "," "}") with false. change (Ascii.eqb "," ",") with true. cbv iota.
    rewrite skip_ws_newline_indent.
    destruct Ht2 as (k2 & x2 & Ht2 & _).
    destruct (join_head ("," +:+ newline_indent (S level)) t2 items tail dquote
                (escape k2 +:+ DQ +:+ ": " +:+ x2)) as [r' Hr'].
    { rewrite Ht2. unfold encode_string, DQ. by rewrite !str_app_assoc, str_app_cons, str_app_nil_l. }
    fold J in Hr'. rewrite Hr', skip_ws_head by done. rewrite <- Hr'.
    rewrite Hk1 by lia. cbn [rev]. by rewrite <- app_assoc.
Qed.

Lemma mapM_Forall2 {A B C} (f : A -> result B) (g : A -> C) (R : B -> C -> Prop) l :
  Forall (fun x => exists y, f x = Ok y /\ R y (g x)) l ->
  exists ys, mapM f l = Ok ys /\ Forall2 R ys (map g l).
Proof.
  induction 1 as [|x l (y & Hy & HR) _ (ys & Hys & HF)]; cbn [mapM map]; [by eauto|].
  fold (mapM f). rewrite Hy, Hys. eauto.
Qed.

Lemma encode_parses v :
  plain v = true -> forall level, exists text, encode level v = Ok text /\ parses_to text (tree_of v).
Proof.
  induction v as [|b|z|r|s| | | |ty|l IH|d IH] using pyval_nested_ind;
    cbn [plain]; try done; intros Hp level.
  - exists "null". split; [done|]. split; [by exists "n"%char, "ull"|].
    intros rest _. exists 1. by intros [|fuel] ?; [lia|].
  - destruct b; [exists "true" | exists "false"]; (split; [done|]).
    + split; [by exists "t"%char, "rue"|]. intros rest _. exists 1. by intros [|fuel] ?; [lia|].
    + split; [by exists "f"%char, "alse"|]. intros rest _. exists 1. by intros [|fuel] ?; [lia|].
  - exists (pretty z). split; [done|].
    destruct (pretty_Z_head z) as (c & r & Hz & Hc). split.
    + exists c, r. split; [done|]. unfold value_head. by rewrite Hc.
    + intros rest Hrest. exists 1. intros [|fuel] ?; [lia|].
      pose proof (scan_number_pretty z rest Hrest) as Hn. cbn [tree_of].
      revert Hz Hn. generalize (pretty z). intros t -> Hn.
      rewrite str_app_cons in *. by apply scan_once_number.
  - exists (encode_string s). split; [done|]. split.
    + exists dquote, (escape s +:+ DQ). split; [|done].
      unfold encode_string, DQ. by rewrite str_app_cons, str_app_nil_l.
    + intros rest _. exists 1. intros [|fuel] ?; [lia|].
      unfold encode_string. rewrite !str_app_assoc. unfold DQ at 1.
      rewrite str_app_cons, str_app_nil_l. cbn [scan_once tree_of].
      change (Ascii.eqb dquote dquote) with true. cbv iota. by rewrite scan_string_escape.
  - assert (Hall : Forall (fun x => exists y, encode (S level) x = Ok y /\ parses_to y (tree_of x)) l).
    { induction IH as [|y l Hy _ IHl]; [constructor|].
      cbn [forallb] in Hp. apply andb_true_iff in Hp as [H1 H2]. constructor; auto. }
    destruct (mapM_Forall2 _ _ _ _ Hall) as (items & Hitems & HF).
    destruct l as [|x l].
    { exists "[]". split; [done|]. split; [by exists "["%char, "]"|].
      intros rest _. exists 1. by intros [|fuel] ?; [lia|]. }
    cbn [encode tree_of]. rewrite Hitems. eexists. split; [done|]. split.
    { eexists "["%char, _. split; [|done]. by rewrite str_app_cons, str_app_nil_l. }
    intros rest _.
    destruct (parse_items_join level _ _ HF) with (acc := @nil json) (rest := rest) as [k Hk].
    { intros ->. inversion HF. }
    exists (S k). intros [|fuel] Hfuel; [lia|].
    set (J := join _ items) in *. rewrite !str_app_assoc.
    rewrite (str_app_cons "[" EmptyString), str_app_nil_l. cbn [scan_once].
    change (Ascii.eqb "[" dquote) with false. change (Ascii.eqb "[" "{") with false.
    change (Ascii.eqb "[" "[") with true. cbv iota.
    rewrite skip_ws_newline_indent.
    inversion HF as [|t tr items' trees' [(c & r & Hc & Hhead) _] HF' E1 E2]. subst items.
    destruct (join_head ("," +:+ newline_indent (S level)) t items'
                (newline_indent level +:+ "]" +:+ rest) c r Hc) as [r' Hr'].
    fold J in Hr'. rewrite Hr', skip_ws_head by done.
    destruct (value_head_spec c Hhead) as (_ & -> & _). rewrite <- Hr'.
    by rewrite Hk by lia.
  - set (f := fun kv : string * pyval =>
                let '(k, x) := kv in
                match encode (S level) x with
                | Raise e => Raise e
                | Ok t => Ok (encode_string k +:+ ": " +:+ t)
                end).
    assert (Hall : Forall (fun kv => exists y, f kv = Ok y /\
                             member_parses y (escape (fst kv), tree_of (snd kv))) d).
    { induction IH as [|[k x] d Hx _ IHd]; [constructor|].
      cbn [forallb snd] in Hp, Hx. apply andb_true_iff in Hp as [H1 H2]. constructor; [|auto].
      destruct (Hx H1 (S level)) as (t & Ht & Hpt). unfold f. rewrite Ht.
      eexists. split; [done|]. by exists k, t. }
    destruct (mapM_Forall2 _ _ _ _ Hall) as (items & Hitems & HF).
    destruct d as [|kv d].
    { exists "{}". split; [done|]. split; [by exists "{"%char, "}"|].
      intros rest _. exists 1. by intros [|fuel] ?; [lia|]. }
    cbn [encode tree_of]. unfold f in Hitems. rewrite Hitems. eexists. split; [done|]. split.
    { eexists "{"%char, _. split; [|done]. by rewrite str_app_cons, str_app_nil_l. }
    intros rest _.
    destruct (parse_members_join level _ _ HF) with (acc := @nil (string * json)) (rest := rest)
      as [k Hk].
    { intros ->. inversion HF. }
    exists (S k). intros [|fuel] Hfuel; [lia|].
    set (J := join _ items) in *. rewrite !str_app_assoc.
    rewrite (str_app_cons "{" EmptyString), str_app_nil_l. cbn [scan_once].
    change (Ascii.eqb "{" dquote) with false. change (Ascii.eqb "{" "{") with true. cbv iota.
    rewrite skip_ws_newline_indent.
    inversion HF as [|t m items' ms' (k2 & x2 & Ht & _) HF' E1 E2]. subst items.
    destruct (join_head ("," +:+ newline_indent (S level)) t items'
                (newline_indent level +:+ "}" +:+ rest) dquote
                (escape k2 +:+ DQ +:+ ": " +:+ x2)) as [r' Hr'].
    { rewrite Ht. unfold encode_string, DQ. by rewrite !str_app_assoc, str_app_cons, str_app_nil_l. }
    fold J in Hr'. rewrite Hr', skip_ws_head by done.
    change (Ascii.eqb dquote "}") with false. cbv iota. rewrite <- Hr'.
    by rewrite Hk by lia.
Qed.

(** json.loads accepts what json.dumps makes of a plain value. *)
Lemma loads_dumps v :
  plain v = true -> exists text, dumps v = Ok text /\ loads text = Ok (tree_of v).
Proof.
  intros Hp. destruct (encode_parses v Hp 0) as (text & Ht & [(c & r & Hc & Hhead) Hparse]).
  exists text. split; [done|].
  destruct (Hparse EmptyString eq_refl) as [k Hk]. specialize (Hk k (le_n k)).
  rewrite str_app_nil_r in Hk.
  apply (loads_complete text k _ EmptyString); [|done].
  by rewrite Hc, skip_ws_head, <- Hc.
Qed.

End RoundTrip.

(** ** Binary64: the scaled size is finite *)

Section Binary64.
Local Open Scope Z_scope.

Lemma digits2_bounds p :
  2 ^ (Zpos (digits2_pos p) - 1) <= Zpos p < 2 ^ Zpos (digits2_pos p).
Proof.
  induction p as [p IH|p IH|]; cbn [digits2_pos]; [| |cbn; lia].
  all: rewrite Pos2Z.inj_succ; pose proof (Pos2Z.is_pos (digits2_pos p)) as Hpos;
    generalize dependent (Zpos (digits2_pos p)); intros d IH Hpos.
  all: assert (Hd : 2 ^ d = 2 * 2 ^ (d - 1))
    by (rewrite <- Z.pow_succ_r; [f_equal; lia | lia]).
  all: replace (Z.succ d - 1) with d by lia; rewrite Z.pow_succ_r by lia.
  - rewrite (Pos2Z.inj_xI p). generalize dependent (2 ^ d). generalize dependent (2 ^ (d - 1)).
    intros; lia.
  - rewrite (Pos2Z.inj_xO p). generalize dependent (2 ^ d). generalize dependent (2 ^ (d - 1)).
    intros; lia.
Qed.

Lemma digits2_unique p d :
  2 ^ (d - 1) <= Zpos p < 2 ^ d -> Zpos (digits2_pos p) = d.
Proof.
  intros [Hlo Hhi]. pose proof (digits2_bounds p) as [Blo Bhi].
  assert (0 < d). { destruct (Z.ltb_spec 0 d); [done|]. rewrite Z.pow_neg_r in Hlo by lia.
    destruct (Z.eqb_spec d 0) as [->|]; [cbn in Hhi; lia|]. rewrite Z.pow_neg_r in Hhi by lia. lia. }
  destruct (Z.lt_trichotomy (Zpos (digits2_pos p)) d) as [Hlt|[Heq|Hgt]]; [|done|].
  - assert (2 ^ Zpos (digits2_pos p) <= 2 ^ (d - 1)) by (apply Z.pow_le_mono_r; lia). lia.
  - assert (2 ^ d <= 2 ^ (Zpos (digits2_pos p) - 1)) by (apply Z.pow_le_mono_r; lia). lia.
Qed.

Lemma shr_1_m mrs : 0 <= shr_m mrs -> shr_m (shr_1 mrs) = shr_m mrs / 2.
Proof.
  destruct mrs as [m r s]. cbn [shr_m shr_1]. intros Hm.
  destruct m as [|q|q]; [reflexivity| |lia].
  destruct q as [q|q|]; cbn [shr_m]; [| |reflexivity].
  - apply Z.div_unique with (r := 1); [lia|]. rewrite (Pos2Z.inj_xI q). lia.
  - apply Z.div_unique with (r := 0); [lia|]. rewrite (Pos2Z.inj_xO q). lia.
Qed.

Lemma pow2_xO p : 2 ^ Zpos p~0 = 2 ^ Zpos p * 2 ^ Zpos p.
Proof. rewrite <- Z.pow_add_r by lia. f_equal. lia. Qed.

Lemma pow2_xI p : 2 ^ Zpos p~1 = 2 * (2 ^ Zpos p * 2 ^ Zpos p).
Proof. rewrite <- Z.pow_add_r, <- Z.pow_succ_r by lia. f_equal. lia. Qed.

Lemma shr_m_iter p : forall mrs,
  0 <= shr_m mrs -> shr_m (SpecFloat.iter_pos shr_1 p mrs) = shr_m mrs / 2 ^ Zpos p.
Proof.
  induction p as [p IH|p IH|]; intros mrs Hm; cbn [SpecFloat.iter_pos].
  - assert (0 <= shr_m (shr_1 mrs)) by (rewrite shr_1_m by done; apply Z.div_pos; lia).
    assert (0 <= shr_m (SpecFloat.iter_pos shr_1 p (shr_1 mrs)))
      by (rewrite IH by done; apply Z.div_pos; lia).
    rewrite IH, IH, shr_1_m by done. rewrite !Z.div_div by lia. by rewrite pow2_xI.
  - assert (0 <= shr_m (SpecFloat.iter_pos shr_1 p mrs))
      by (rewrite IH by done; apply Z.div_pos; lia).
    rewrite IH, IH by done. rewrite !Z.div_div by lia. by rewrite pow2_xO.
  - by rewrite shr_1_m.
Qed.


Lemma shr_fexp_normal m e l d :
  2 ^ (d - 1) <= m < 2 ^ d -> 53 <= d -> -1074 <= d + e - 53 ->
  exists mrs, shr_fexp 53 1024 m e l = (mrs, e + (d - 53)) /\ shr_m mrs = m / 2 ^ (d - 53).
Proof.
  intros Hm Hd He.
  assert (0 < 2 ^ (d - 1)) by (apply Z.pow_pos_nonneg; lia).
  destruct m as [|p|p]; [lia| |lia].
  unfold shr_fexp. cbn [Zdigits2]. rewrite (digits2_unique p d Hm).
  unfold fexp, emin. rewrite Z.max_l by lia.
  replace (d + e - 53 - e) with (d - 53) by lia.
  assert (Hrec : shr_m (shr_record_of_loc (Zpos p) l) = Zpos p) by (by destruct l as [|[]]).
  unfold shr. destruct (d - 53) as [|q|q] eqn:Eq; [| |lia].
  - eexists. split; [by rewrite Z.add_0_r|]. rewrite Hrec. cbn. by rewrite Z.div_1_r.
  - eexists. split; [reflexivity|]. rewrite shr_m_iter by (rewrite Hrec; lia). by rewrite Hrec.
Qed.

(** Rounding a mantissa of at least 53 bits gives a normal number. *)
Lemma round_normal sx mx ex lx d :
  2 ^ (d - 1) <= mx < 2 ^ d -> 53 <= d -> -1074 <= d + ex - 53 -> d + ex <= 1023 ->
  normal (binary_round_aux 53 1024 sx mx ex lx) (d + ex - 53) (d + ex - 52).
Proof.
  intros Hm Hd Hlo Hhi. unfold binary_round_aux.
  destruct (shr_fexp_normal mx ex lx d Hm Hd Hlo) as (mrs & -> & Hmrs).
  set (m1 := round_nearest_even (shr_m mrs) (loc_of_shr_record mrs)).
  assert (H52 : 2 ^ 52 <= shr_m mrs < 2 ^ 53).
  { rewrite Hmrs. replace d with (d - 53 + 53) in Hm at 2 by lia.
    replace (d - 1) with (d - 53 + 52) in Hm by lia.
    rewrite !Z.pow_add_r in Hm by lia.
    assert (0 < 2 ^ (d - 53)) by (apply Z.pow_pos_nonneg; lia).
    split; [apply Z.div_le_lower_bound | apply Z.div_lt_upper_bound]; lia. }
  assert (Hm1 : m1 = shr_m mrs \/ m1 = shr_m mrs + 1).
  { unfold m1, round_nearest_even. destruct (loc_of_shr_record mrs) as [|[]]; auto.
    destruct (Z.even (shr_m mrs)); auto. }
  destruct (Z.ltb_spec m1 (2 ^ 53)) as [Hlt|Hge].
  - destruct (shr_fexp_normal m1 (ex + (d - 53)) loc_Exact 53) as (mrs2 & -> & Hmrs2);
      [lia | lia | lia |].
    rewrite Z.sub_diag, Z.div_1_r in Hmrs2. rewrite Hmrs2.
    destruct m1 as [|p|p]; [lia| |lia].
    destruct (Z.leb_spec (ex + (d - 53) + (53 - 53)) (1024 - 53)); [|lia].
    cbn [normal]. lia.
  - assert (m1 = 2 ^ 53) as Hm1' by lia.
    destruct (shr_fexp_normal m1 (ex + (d - 53)) loc_Exact 54) as (mrs2 & -> & Hmrs2);
      [rewrite Hm1'; split; [done|by apply Z.pow_lt_mono_r] | lia | lia |].
    rewrite Hm1' in Hmrs2. change (2 ^ 53 / 2 ^ (54 - 53)) with (2 ^ 52) in Hmrs2.
    rewrite Hmrs2. change (2 ^ 52) with (Zpos (Z.to_pos (2 ^ 52))).
    destruct (Z.leb_spec (ex + (d - 53) + (54 - 53)) (1024 - 53)); [|lia].
    cbn [normal]. split; [done | lia].
Qed.

Lemma normal_weaken x lo hi lo' hi' :
  normal x lo hi -> lo' <= lo -> hi <= hi' -> normal x lo' hi'.
Proof. destruct x; cbn [normal]; lia. Qed.

Lemma iter_xO p q : Zpos (Pos.iter xO p q) = Zpos p * 2 ^ Zpos q.
Proof.
  induction q as [|q IH] using Pos.peano_ind.
  - cbn [Pos.iter]. rewrite (Pos2Z.inj_xO p). change (2 ^ 1) with 2. lia.
  - rewrite Pos.iter_succ, (Pos2Z.inj_xO (Pos.iter xO p q)), IH, Pos2Z.inj_succ, Z.pow_succ_r by lia.
    lia.
Qed.

(** [float(n)] is normal for a positive integer below 2^53. *)
Lemma of_int_normal n : 0 < n < 2 ^ 53 -> normal (Float.of_int n) (-52) 1.
Proof.
  intros Hn. destruct n as [|p|p]; [lia| |lia].
  unfold Float.of_int, binary_normalize, binary_round.
  pose proof (digits2_bounds p) as Hd. set (d := Zpos (digits2_pos p)) in *.
  assert (0 < d) by (unfold d; lia).
  assert (d <= 53).
  { destruct (Z.leb_spec d 53); [done|].
    assert (2 ^ 53 <= 2 ^ (d - 1)) by (apply Z.pow_le_mono_r; lia). lia. }
  unfold fexp, emin. change Float.prec with 53. change Float.emax with 1024.
  rewrite Z.max_l by lia. unfold shl_align.
  destruct (d + 0 - 53 - 0) as [|q|q] eqn:Eq.
  - eapply normal_weaken; [apply (round_normal _ _ _ _ 53)|..]; try lia.
    replace d with 53 in Hd by lia. done.
  - lia.
  - eapply normal_weaken; [apply (round_normal _ _ _ _ 53)|..]; try lia.
    rewrite iter_xO. replace (Zpos q) with (53 - d) by lia.
    assert (E1 : 2 ^ 53 = 2 ^ d * 2 ^ (53 - d))
      by (rewrite <- Z.pow_add_r by lia; f_equal; lia).
    assert (E2 : 2 ^ (53 - 1) = 2 ^ (d - 1) * 2 ^ (53 - d))
      by (rewrite <- Z.pow_add_r by lia; f_equal; lia).
    assert (0 < 2 ^ (53 - d)) by (apply Z.pow_pos_nonneg; lia).
    rewrite E1, E2.
    split; [apply Z.mul_le_mono_nonneg_r | apply Z.mul_lt_mono_pos_r]; lia.
Qed.

(** The product of two normal numbers is normal. *)
Lemma mul_normal x y lx hx ly hy :
  normal x lx hx -> normal y ly hy -> -1126 <= lx + ly -> hx + hy <= 917 ->
  normal (Float.mul x y) (lx + ly + 52) (hx + hy + 54).
Proof.
  destruct x as [| | |sx mx ex]; try done. destruct y as [| | |sy my ey]; try done.
  cbn [normal]. intros [Hmx Hex] [Hmy Hey] Hlo Hhi.
  unfold Float.mul, SFmul. change Float.prec with 53. change Float.emax with 1024.
  rewrite Pos2Z.inj_mul.
  assert (H104 : 2 ^ 104 <= Zpos mx * Zpos my < 2 ^ 106).
  { change (2 ^ 104) with (2 ^ 52 * 2 ^ 52). change (2 ^ 106) with (2 ^ 53 * 2 ^ 53).
    split; [apply Z.mul_le_mono_nonneg | apply Z.mul_lt_mono_nonneg]; lia. }
  destruct (Z.ltb_spec (Zpos mx * Zpos my) (2 ^ 105)).
  - eapply normal_weaken; [apply (round_normal _ _ _ _ 105)|..]; lia.
  - eapply normal_weaken; [apply (round_normal _ _ _ _ 106)|..]; lia.
Qed.

(** The quotient of two normal numbers is normal. *)
Lemma div_normal x y lx hx ly hy :
  normal x lx hx -> normal y ly hy -> -1021 <= lx - hy -> hx - ly <= 1020 ->
  normal (SFdiv 53 1024 x y) (lx - hy - 53) (hx - ly - 51).
Proof.
  destruct x as [| | |sx mx ex]; try done. destruct y as [| | |sy my ey]; try done.
  cbn [normal]. intros [Hmx Hex] [Hmy Hey] Hlo Hhi.
  unfold SFdiv, SFdiv_core_binary. cbn [Zdigits2].
  rewrite (digits2_unique mx 53), (digits2_unique my 53) by done.
  unfold fexp, emin. rewrite Z.max_l by lia. rewrite Z.min_l by lia.
  replace (ex - ey - (53 + ex - (53 + ey) - 53)) with 53 by lia.
  rewrite Z.shiftl_mul_pow2 by lia.
  pose proof (Z.div_eucl_eq (Zpos mx * 2 ^ 53) (Zpos my) ltac:(lia)) as Heq.
  pose proof (Z.mod_pos_bound (Zpos mx * 2 ^ 53) (Zpos my) ltac:(lia)) as Hmod.
  unfold Z.modulo in Hmod.
  destruct (Z.div_eucl (Zpos mx * 2 ^ 53) (Zpos my)) as [q r].
  assert (Hq : 2 ^ 52 <= q < 2 ^ 54).
  { change (2 ^ 54) with (2 * 2 ^ 53). change (2 ^ 53) with (2 * 2 ^ 52) in *. nia. }
  destruct (Z.ltb_spec q (2 ^ 53)).
  - eapply normal_weaken; [apply (round_normal _ _ _ _ 53)|..]; lia.
  - eapply normal_weaken; [apply (round_normal _ _ _ _ 54)|..]; lia.
Qed.

(** Below 2^53 the scaled size is a finite number, and [int] accepts it. *)
Lemma scaled_size_finite token_estimate current_size :
  0 < current_size < 2 ^ 53 -> 5000 < token_estimate < 2 ^ 53 ->
  exists t, Float.to_int (token_budget.scaled_size token_estimate current_size) = Ok t.
Proof.
  intros Hn He. unfold token_budget.scaled_size, Float.int_div.
  change Float.prec with 53. change Float.emax with 1024. change token_budget.TOKEN_LIMIT with 5000.
  pose proof (of_int_normal current_size Hn) as Ha.
  pose proof (of_int_normal 5000 ltac:(lia)) as H5.
  pose proof (of_int_normal token_estimate ltac:(lia)) as Hb.
  pose proof (div_normal _ _ _ _ _ _ H5 Hb ltac:(lia) ltac:(lia)) as Hr.
  pose proof (mul_normal _ _ _ _ _ _ Ha Hr ltac:(lia) ltac:(lia)) as Hp1.
  assert (H08 : normal Float.lit_0_8 (-53) (-53)) by (cbn; lia).
  pose proof (mul_normal _ _ _ _ _ _ Hp1 H08 ltac:(lia) ltac:(lia)) as Hp2.
  destruct (Float.mul _ Float.lit_0_8) as [| | |s m e]; try done.
  cbn [Float.to_int]. eauto.
Qed.
End Binary64.

(** ** The token budget *)

Section TokenBudget.
Import token_budget.

Lemma estimate_is_ceiling text :
  _estimate_token_count text = ceil_div (len text) 3.
Proof.
  unfold _estimate_token_count, ceil_div, len.
  generalize (Z.of_nat (String.length text)); intros L.
  pose proof (Z.div_mod (L + 3 - 1) 3 ltac:(lia)).
  pose proof (Z.mod_pos_bound (L + 3 - 1) 3 ltac:(lia)).
  pose proof (Z.div_mod (- L) 3 ltac:(lia)).
  pose proof (Z.mod_pos_bound (- L) 3 ltac:(lia)).
  lia.
Qed.

Lemma parse_items_array fuel : forall s acc v r,
  Json.parse_items fuel s acc = Some (v, r) -> exists items, v = Json.JArray items.
Proof.
  induction fuel as [|fuel IH]; intros s acc v r H; [discriminate|].
  cbn [Json.parse_items] in H.
  destruct (Json.scan_once fuel s) as [[x r0]|]; [|discriminate].
  destruct (Json.skip_ws r0) as [|d r1]; [discriminate|].
  destruct (Ascii.eqb d "]").
  - injection H as <- _. eauto.
  - destruct (Ascii.eqb d ","); [|discriminate]. eauto.
Qed.

Lemma startswith_bracket s :
  startswith s "[" = true -> exists r, s = String "[" r.
Proof.
  destruct s as [|c r]; [discriminate|]. cbn [startswith].
  destruct (Ascii.eqb_spec "["%char c); [subst; eauto | intros; discriminate].
Qed.

(** A text that starts with an opening bracket parses to an array or not
    at all. *)
Lemma loads_bracket_array s v :
  startswith s "[" = true -> Json.loads s = Ok v -> exists items, v = Json.JArray items.
Proof.
  intros [r ->]%startswith_bracket. unfold Json.loads.
  change (Json.skip_ws (String "[" r)) with (String "[" r).
  cbn [Json.scan_once String.length].
  change (Ascii.eqb "[" dquote) with false. change (Ascii.eqb "[" "{") with false.
  change (Ascii.eqb "[" "[") with true. cbv iota.
  destruct (Json.skip_ws r) as [|d r1]; [discriminate|].
  destruct (Ascii.eqb d "]").
  - destruct (Json.skip_ws r1); [|discriminate]. intros [= <-]. eauto.
  - destruct (Json.parse_items _ _ _) as [[x r2]|] eqn:E; [|discriminate].
    destruct (Json.skip_ws r2); [|discriminate]. intros [= <-].
    eapply parse_items_array, E.
Qed.

(** Both report dicts serialize. *)
Lemma dumps_warning context est cs sl :
  exists out, Json.dumps (warning context est cs sl) = Ok out.
Proof.
  unfold Json.dumps, warning. destruct cs, sl; cbn [Json.encode mapM opt_int]; eauto.
Qed.

Lemma dumps_warning_suggestion context est cs sl :
  exists out, Json.dumps (parquet_tools.warning context est cs sl) = Ok out.
Proof.
  unfold Json.dumps, parquet_tools.warning. destruct cs, sl; cbn [Json.encode mapM opt_int]; eauto.
Qed.

(** The enforcer, branch by branch. *)
Lemma enforce_within warning payload context :
  _estimate_token_count payload <= TOKEN_LIMIT ->
  enforce_with warning payload context = Ok payload.
Proof.
  intros H. unfold enforce_with.
  destruct (Z.leb_spec (_estimate_token_count payload) TOKEN_LIMIT); [done | lia].
Qed.

Lemma enforce_over warning payload context :
  TOKEN_LIMIT < _estimate_token_count payload ->
  enforce_with warning payload context =
    match current_size_of payload with
    | Raise e => Raise e
    | Ok current_size =>
        match suggested_limit_of (_estimate_token_count payload) current_size with
        | Raise e => Raise e
        | Ok suggested_limit =>
            Json.dumps (warning context (_estimate_token_count payload) current_size suggested_limit)
        end
    end.
Proof.
  intros H. unfold enforce_with.
  destruct (Z.leb_spec (_estimate_token_count payload) TOKEN_LIMIT); [lia | done].
Qed.

Lemma current_size_not_array payload :
  startswith payload "[" = false -> current_size_of payload = Ok None.
Proof. intros H. unfold current_size_of. by rewrite H. Qed.

Lemma current_size_array payload items :
  startswith payload "[" = true -> Json.loads payload = Ok (Json.JArray items) ->
  current_size_of payload = Ok (Some (Z.of_nat (length items))).
Proof. intros H L. unfold current_size_of. by rewrite H, L. Qed.

Lemma current_size_invalid payload e :
  startswith payload "[" = true -> Json.loads payload = Raise e ->
  current_size_of payload = Raise e.
Proof. intros H L. unfold current_size_of. by rewrite H, L. Qed.

(** An over-budget payload that parses is replaced by a report, whichever of
    the two report dicts is used. *)
Lemma enforce_over_json warning payload context v :
  (forall est cs sl, exists out, Json.dumps (warning context est cs sl) = Ok out) ->
  TOKEN_LIMIT < _estimate_token_count payload ->
  startswith payload "[" = true -> Json.loads payload = Ok v -> len payload < 2 ^ 53 ->
  exists out, enforce_with warning payload context = Ok out.
Proof.
  intros Hdumps Hover Hs Hl Hlen. rewrite (enforce_over _ _ _ Hover).
  destruct (loads_bracket_array _ _ Hs Hl) as [items ->].
  rewrite (current_size_array _ _ Hs Hl). unfold suggested_limit_of.
  destruct (Z.eqb_spec (Z.of_nat (length items)) 0) as [_|Hn]; [apply Hdumps|].
  pose proof (loads_array_count _ _ Hl) as Hcount.
  assert (Hest : _estimate_token_count payload <= len payload).
  { unfold _estimate_token_count, TOKEN_LIMIT, len in *.
    pose proof (Z.div_mod (Z.of_nat (String.length payload) + 3 - 1) 3 ltac:(lia)).
    pose proof (Z.mod_pos_bound (Z.of_nat (String.length payload) + 3 - 1) 3 ltac:(lia)).
    lia. }
  destruct (scaled_size_finite (_estimate_token_count payload) (Z.of_nat (length items)))
    as [t ->]; [unfold len in *; lia | unfold TOKEN_LIMIT in *; lia |].
  apply Hdumps.
Qed.

(** The payloads of the plugins are outputs of json.dumps: on the encoding
    of a plain value the enforcer never raises. *)
Lemma enforce_dumps warning v payload context :
  (forall est cs sl, exists out, Json.dumps (warning context est cs sl) = Ok out) ->
  plain v = true -> Json.dumps v = Ok payload -> len payload < 2 ^ 53 ->
  exists out, enforce_with warning payload context = Ok out.
Proof.
  intros Hdumps Hp Hd Hlen.
  destruct (Z.le_gt_cases (_estimate_token_count payload) TOKEN_LIMIT) as [Hin|Hover].
  - rewrite enforce_within by done. eauto.
  - destruct (loads_dumps v Hp) as (text & Ht & Hl). rewrite Hd in Ht. injection Ht as <-.
    destruct (startswith payload "[") eqn:Hs.
    + eapply enforce_over_json; eauto.
    + rewrite (enforce_over _ _ _ Hover), (current_size_not_array _ Hs).
      cbn [suggested_limit_of]. apply Hdumps.
Qed.

End TokenBudget.

(** ** C1: the pass-through test and the report *)




(** ** C4: rows_returned and suggested_limit *)

(** C4, as the code has it.  Whenever the enforcer replaces an over-budget
    payload: a payload that does not start with an opening bracket gives
    rows_returned and suggested_limit null; one that does is a JSON array,
    of n elements say, rows_returned is n, and suggested_limit is null for
    n = 0 and otherwise max(1, int(x)), x being n * (5000 / estimate) * 0.8
    evaluated from left to right in binary64. *)
Theorem C4_rows_and_suggested_limit (payload context out : string) :
  5000 < token_budget._estimate_token_count payload ->
  parquet_tools._enforce_token_limit payload context = Ok out ->
  let est := token_budget._estimate_token_count payload in
  (startswith payload "[" = false ->
     let report := parquet_tools.warning context est None None in
     Json.dumps report = Ok out /\
     field "rows_returned" report = Some PNone /\
     field "suggested_limit" report = Some PNone) /\
  (startswith payload "[" = true ->
     exists items, Json.loads payload = Ok (Json.JArray items) /\
       let n := Z.of_nat (length items) in
       (n = 0 ->
          let report := parquet_tools.warning context est (Some 0) None in
          Json.dumps report = Ok out /\
          field "rows_returned" report = Some (PInt 0) /\
          field "suggested_limit" report = Some PNone) /\
       (0 < n ->
          exists t, Float.to_int (token_budget.scaled_size est n) = Ok t /\
            let report := parquet_tools.warning context est (Some n) (Some (Z.max 1 t)) in
            Json.dumps report = Ok out /\
            field "rows_returned" report = Some (PInt n) /\
            field "suggested_limit" report = Some (PInt (Z.max 1 t)))).
Proof.
  intros Hover. unfold parquet_tools._enforce_token_limit.
  rewrite (enforce_over _ _ _ Hover). intros Hout. cbv zeta. split.
  - intros Hs. rewrite (current_size_not_array _ Hs) in Hout.
    cbn [token_budget.suggested_limit_of] in Hout. by repeat split.
  - intros Hs.
    destruct (Json.loads payload) as [v|e] eqn:Hl;
      [|by rewrite (current_size_invalid _ _ Hs Hl) in Hout].
    destruct (loads_bracket_array _ _ Hs Hl) as [items ->].
    exists items. split; [done|].
    rewrite (current_size_array _ _ Hs Hl) in Hout.
    unfold token_budget.suggested_limit_of in Hout. split.
    + intros Hn. rewrite Hn in Hout. cbn [Z.eqb] in Hout. by repeat split.
    + intros Hn. destruct (Z.eqb_spec (Z.of_nat (length items)) 0) as [|_]; [lia|].
      destruct (Float.to_int _) as [t|]; [|discriminate].
      exists t. by repeat split.
Qed.

(** The report of [rows_309], an array of 309 elements in 24720 characters. *)
Lemma C4_witness :
  let out := text_of (parquet_tools._enforce_token_limit rows_309 "query_parquet_files") in
  exists items, Json.loads rows_309 = Ok (Json.JArray items) /\
    (0 < Z.of_nat (length items) ->
       exists t, Float.to_int (token_budget.scaled_size 8240 (Z.of_nat (length items))) = Ok t /\
         Json.dumps (parquet_tools.warning "query_parquet_files" 8240
                       (Some (Z.of_nat (length items))) (Some (Z.max 1 t))) = Ok out).
Proof.
  cbv zeta.
  assert (H1 : 5000 < token_budget._estimate_token_count rows_309) by (by vm_compute).
  assert (H2 : parquet_tools._enforce_token_limit rows_309 "query_parquet_files"
               = Ok (text_of (parquet_tools._enforce_token_limit rows_309 "query_parquet_files")))
    by (vm_compute; reflexivity).
  destruct (C4_rows_and_suggested_limit _ _ _ H1 H2) as [_ H].
  destruct (H ltac:(by vm_compute)) as (items & Hl & _ & Hn).
  exists items. split; [exact Hl|].
  intros Hpos. destruct (Hn Hpos) as (t & Ht & Hd & _). exists t. split; [exact Ht | exact Hd].
Defined.

(** The claimed formula fails at both ends.  An empty array padded with
    blanks to 15005 characters is over budget: rows_returned is 0 and
    suggested_limit is null, where the formula gives 1.  An array of 309
    elements with an estimate of 8240 tokens gets 149, where the formula in
    exact arithmetic gives 150: the binary64 product falls just below 150. *)
Lemma C4_counterexample :
  (token_budget._estimate_token_count padded_empty_array = 5002 /\
   Json.loads padded_empty_array = Ok (Json.JArray []) /\
   parquet_tools._enforce_token_limit padded_empty_array "query_parquet_files"
     = Json.dumps (parquet_tools.warning "query_parquet_files" 5002 (Some 0) None) /\
   exact_suggested_limit 0 5002 = 1) /\
  (token_budget._estimate_token_count rows_309 = 8240 /\
   Json.py_len <$> Json.loads rows_309 = Ok (Ok 309) /\
   parquet_tools._enforce_token_limit rows_309 "query_parquet_files"
     = Json.dumps (parquet_tools.warning "query_parquet_files" 8240 (Some 309) (Some 149)) /\
   exact_suggested_limit 309 8240 = 150).
Proof. repeat split; vm_compute; reflexivity. Qed.

(** ** C2: the result serializer *)

Section Serializer.
Import parquet_tools.

Lemma serialize_replaces_timestamps v : timestamps_replaced v (_serialize_datetime v).
Proof.
  induction v as [| | | | | | | | |l IH|d IH] using pyval_nested_ind;
    cbn [_serialize_datetime]; try constructor.
  - induction IH; cbn [map]; constructor; auto.
  - induction IH; cbn [map]; constructor; auto.
Qed.

Lemma serialize_no_timestamp_left v : has_datetime (_serialize_datetime v) = false.
Proof.
  induction v as [| | | | | | | | |l IH|d IH] using pyval_nested_ind;
    cbn [_serialize_datetime has_datetime]; try reflexivity.
  - induction IH as [|x l Hx _ IHl]; cbn [map existsb]; [done|]. by rewrite Hx, IHl.
  - induction IH as [|x l Hx _ IHl]; cbn [map existsb snd]; [done|]. by rewrite Hx, IHl.
Qed.

Lemma serialize_without_timestamp v : has_datetime v = false -> _serialize_datetime v = v.
Proof.
  induction v as [| | | | | | | | |l IH|d IH] using pyval_nested_ind;
    cbn [_serialize_datetime has_datetime]; try done.
  - intros H. f_equal. induction IH as [|x l Hx _ IHl]; [done|].
    cbn [existsb] in H. apply orb_false_elim in H as [H1 H2].
    cbn [map]. by rewrite (Hx H1), (IHl H2).
  - intros H. f_equal. induction IH as [|[k x] l Hx _ IHl]; [done|].
    cbn [existsb snd] in H. apply orb_false_elim in H as [H1 H2].
    cbn [map fst snd]. cbn [snd] in Hx. by rewrite (Hx H1), (IHl H2).
Qed.

Lemma serialize_keeps_keys d :
  match _serialize_datetime (PDict d) with
  | PDict d' => map fst d' = map fst d
  | _ => False
  end.
Proof.
  cbn [_serialize_datetime]. induction d as [|[k x] d IH]; [done|].
  cbn [map fst]. by rewrite IH.
Qed.

Lemma mapM_ok {A B} (f : A -> result B) l :
  Forall (fun x => exists y, f x = Ok y) l -> exists ys, mapM f l = Ok ys.
Proof.
  induction 1 as [|x l [y Hy] _ [ys Hys]]; cbn [mapM]; [eauto|].
  fold (mapM f). rewrite Hy, Hys. eauto.
Qed.

(** A value without timestamp, date, time or value of another refused
    class serializes at every depth of indentation. *)
Lemma encode_plain_ok v :
  has_datetime v = false -> has_date_or_time v = false -> has_other v = false ->
  forall level, exists out, Json.encode level v = Ok out.
Proof.
  induction v as [|b|z|r|s| | | |ty|l IH|d IH] using pyval_nested_ind;
    cbn [has_datetime has_date_or_time has_other]; try done; intros H1 H2 H3 level;
    try (cbn [Json.encode]; eauto; fail).
  - destruct b; cbn [Json.encode]; eauto.
  - assert (Hall : Forall (fun x => exists y, Json.encode (S level) x = Ok y) l).
    { induction IH as [|x l Hx _ IHl]; [constructor|].
      cbn [existsb] in H1, H2, H3.
      apply orb_false_elim in H1 as [H1a H1b]. apply orb_false_elim in H2 as [H2a H2b].
      apply orb_false_elim in H3 as [H3a H3b].
      constructor; eauto. }
    destruct (mapM_ok _ _ Hall) as [ys Hys].
    destruct l as [|x l]; cbn [Json.encode]; [eauto|].
    rewrite Hys. eauto.
  - set (f := fun kv : string * pyval =>
                let '(k, x) := kv in
                match Json.encode (S level) x with
                | Raise e => Raise e
                | Ok t => Ok (Json.encode_string k +:+ ": " +:+ t)
                end).
    assert (Hall : Forall (fun kv => exists y, f kv = Ok y) d).
    { induction IH as [|[k x] d Hx _ IHd]; [constructor|].
      cbn [existsb snd] in H1, H2, H3.
      apply orb_false_elim in H1 as [H1a H1b]. apply orb_false_elim in H2 as [H2a H2b].
      apply orb_false_elim in H3 as [H3a H3b].
      constructor; [|eauto]. cbn [snd] in Hx.
      destruct (Hx H1a H2a H3a (S level)) as [t Ht]. unfold f. rewrite Ht. eauto. }
    destruct (mapM_ok _ _ Hall) as [ys Hys].
    destruct d as [|kv d]; cbn [Json.encode]; [eauto|].
    unfold f in Hys. rewrite Hys. eauto.
Qed.

Lemma serialize_keeps_dates v :
  has_date_or_time (_serialize_datetime v) = has_date_or_time v.
Proof.
  induction v as [| | | | | | | | |l IH|d IH] using pyval_nested_ind;
    cbn [_serialize_datetime has_date_or_time]; try reflexivity.
  - induction IH as [|x l Hx _ IHl]; cbn [map existsb]; [done|]. by rewrite Hx, IHl.
  - induction IH as [|x l Hx _ IHl]; cbn [map existsb snd]; [done|]. by rewrite Hx, IHl.
Qed.

Lemma serialize_agrees_with_spec v :
  has_date_or_time v = false -> _serialize_datetime v = serialize_all_temporal v.
Proof.
  induction v as [| | | | | | | | |l IH|d IH] using pyval_nested_ind;
    cbn [_serialize_datetime serialize_all_temporal has_date_or_time]; try done.
  - intros H. f_equal. induction IH as [|x l Hx _ IHl]; [done|].
    cbn [existsb] in H. apply orb_false_elim in H as [H1 H2].
    cbn [map]. by rewrite (Hx H1), (IHl H2).
  - intros H. f_equal. induction IH as [|[k x] l Hx _ IHl]; [done|].
    cbn [existsb snd] in H. apply orb_false_elim in H as [H1 H2].
    cbn [map fst snd]. cbn [snd] in Hx. by rewrite (Hx H1), (IHl H2).
Qed.

Lemma mapM_raise {A B} (f : A -> result B) l e :
  mapM f l = Raise e -> exists x, x ∈ l /\ f x = Raise e.
Proof.
  induction l as [|x l IH]; cbn [mapM]; [done|]. fold (mapM f).
  destruct (f x) as [y|e'] eqn:Ex.
  - destruct (mapM f l); [done|]. intros [= ->].
    destruct (IH eq_refl) as (z & Hz & Hfz). exists z. split; [by right|done].
  - intros [= ->]. exists x. split; [by left|done].
Qed.

(** What json.dumps raises: the TypeError of a date, of a time, of a
    timestamp the value holds, or of a value of another class it holds. *)
Lemma encode_raises v : forall level e,
  Json.encode level v = Raise e ->
  e = Json.not_serializable "date" \/ e = Json.not_serializable "time"
  \/ (e = Json.not_serializable "datetime" /\ has_datetime v = true)
  \/ (exists ty, e = Json.not_serializable ty /\ has_other v = true).
Proof.
  induction v as [|b|z|r|s| | | |ty|l IH|d IH] using pyval_nested_ind; intros level e;
    cbn [Json.encode]; try done.
  - by destruct b.
  - intros [= <-]. auto.
  - intros [= <-]. auto.
  - intros [= <-]. auto.
  - intros [= <-]. right. right. right. by exists ty.
  - destruct l as [|x l]; [done|].
    destruct (mapM _ _) as [items|e'] eqn:Em; [done|]. intros [= ->].
    apply mapM_raise in Em as (y & Hy & Hey). rewrite Forall_forall in IH.
    destruct (IH y Hy _ _ Hey) as [-> | [-> | [[-> H] | (ty & -> & H)]]]; auto.
    + right. right. left. split; [done|]. cbn [has_datetime].
      apply existsb_exists. exists y. split; [by apply list_elem_of_In|done].
    + right. right. right. exists ty. split; [done|]. cbn [has_other].
      apply existsb_exists. exists y. split; [by apply list_elem_of_In|done].
  - destruct d as [|kv d]; [done|].
    destruct (mapM _ _) as [items|e'] eqn:Em; [done|]. intros [= ->].
    apply mapM_raise in Em as ([k y] & Hy & Hey). rewrite Forall_forall in IH.
    destruct (Json.encode (S level) y) as [t|e'] eqn:Ey; [done|]. injection Hey as ->.
    destruct (IH (k, y) Hy _ _ Ey) as [-> | [-> | [[-> H] | (ty & -> & H)]]]; auto.
    + right. right. left. split; [done|]. cbn [has_datetime].
      apply existsb_exists. exists (k, y). split; [by apply list_elem_of_In|done].
    + right. right. right. exists ty. split; [done|]. cbn [has_other].
      apply existsb_exists. exists (k, y). split; [by apply list_elem_of_In|done].
Qed.

(** Every exception of json.dumps is the TypeError of some class. *)
Lemma encode_raises_type v level e :
  Json.encode level v = Raise e -> exists ty, e = Json.not_serializable ty.
Proof.
  intros He. destruct (encode_raises _ _ _ He) as [-> | [-> | [[-> _] | (ty & -> & _)]]]; eauto.
Qed.

(** A value that holds a date or a time is refused by json.dumps. *)
Lemma encode_refuses v :
  has_date_or_time v = true -> forall level, exists e, Json.encode level v = Raise e.
Proof.
  intros Hd level.
  revert level Hd. induction v as [| | | | | | | | |l IH|d IH] using pyval_nested_ind;
    intros level; cbn [has_date_or_time]; try done; cbn [Json.encode]; eauto.
  - intros Hex. destruct l as [|x l]; [done|].
    assert (Hm : exists e, mapM (Json.encode (S level)) (x :: l) = Raise e).
    { revert Hex. generalize (x :: l) IH. clear. intros l IH.
      induction IH as [|y l Hy _ IHl]; cbn [existsb mapM]; [done|]. fold (mapM (Json.encode (S level))).
      destruct (Json.encode (S level) y) as [t|e] eqn:Ey; [|eauto].
      intros [Hy'|Hl]%orb_true_iff.
      - destruct (Hy (S level) Hy') as [e He]. congruence.
      - destruct (IHl Hl) as [e ->]. eauto. }
    destruct Hm as [e ->]. eauto.
  - intros Hex. destruct d as [|kv d]; [done|].
    match goal with |- context [mapM ?f _] => set (g := f) end.
    assert (Hm : exists e, mapM g (kv :: d) = Raise e).
    { revert Hex. generalize (kv :: d) IH. clear -g. intros l IH.
      induction IH as [|[k y] l Hy _ IHl]; cbn [existsb mapM snd]; [done|]. fold (mapM g).
      cbn [snd] in Hy. unfold g at 1.
      destruct (Json.encode (S level) y) as [t|e] eqn:Ey; [|eauto].
      intros [Hy'|Hl]%orb_true_iff.
      - destruct (Hy (S level) Hy') as [e He]. congruence.
      - destruct (IHl Hl) as [e ->]. eauto. }
    destruct Hm as [e ->]. eauto.
Qed.

(** A value that holds a date or a time, no timestamp and no value of
    another refused class, is refused by json.dumps with the TypeError of
    the first date or time. *)
Lemma encode_date_or_time v :
  has_date_or_time v = true -> has_datetime v = false -> has_other v = false ->
  forall level, Json.encode level v = Raise (Json.not_serializable "date")
             \/ Json.encode level v = Raise (Json.not_serializable "time").
Proof.
  intros Hd Hn Ho level.
  destruct (encode_refuses v Hd level) as [e He]. rewrite He.
  destruct (encode_raises _ _ _ He) as [-> | [-> | [[_ H] | (ty & _ & H)]]]; auto; congruence.
Qed.

(** The serializer the specification describes leaves no date and no time. *)
Lemma spec_serializer_no_date v : has_date_or_time (serialize_all_temporal v) = false.
Proof.
  induction v as [| | | | | | | | |l IH|d IH] using pyval_nested_ind;
    cbn [serialize_all_temporal has_date_or_time]; try reflexivity.
  - induction IH as [|x l Hx _ IHl]; cbn [map existsb]; [done|]. by rewrite Hx, IHl.
  - induction IH as [|x l Hx _ IHl]; cbn [map existsb snd]; [done|]. by rewrite Hx, IHl.
Qed.

End Serializer.

(** C2: the serializer misses dates and times.  The serializer replaces
    every timestamp (datetime.datetime), at any depth of nested dicts and
    lists, by its ISO-8601 string and touches nothing else: members and keys
    keep their value and their order; a value without timestamp comes back
    unchanged.  On a value without date or time this is the serializer the
    specification describes.  On a value that holds a date or a time it is
    not: the date or time is still there, the result differs from the one
    the specification describes, and json.dumps refuses it with a
    TypeError. *)
Theorem C2_serialize_datetime (v : pyval) :
  timestamps_replaced v (parquet_tools._serialize_datetime v) /\
  (has_datetime v = false -> parquet_tools._serialize_datetime v = v) /\
  (has_date_or_time v = false ->
     parquet_tools._serialize_datetime v = serialize_all_temporal v) /\
  (has_date_or_time v = true ->
     has_date_or_time (parquet_tools._serialize_datetime v) = true /\
     has_date_or_time (serialize_all_temporal v) = false /\
     parquet_tools._serialize_datetime v <> serialize_all_temporal v /\
     exists ty, Json.dumps (parquet_tools._serialize_datetime v) = Raise (Json.not_serializable ty)).
Proof.
  split; [apply serialize_replaces_timestamps|].
  split; [apply serialize_without_timestamp|].
  split; [apply serialize_agrees_with_spec|].
  intros H.
  assert (Hkept : has_date_or_time (parquet_tools._serialize_datetime v) = true)
    by (by rewrite serialize_keeps_dates).
  split; [done|]. split; [apply spec_serializer_no_date|].
  split.
  - intros Heq. rewrite Heq, spec_serializer_no_date in Hkept. discriminate.
  - destruct (encode_refuses _ Hkept 0) as [e He].
    destruct (encode_raises_type _ _ _ He) as [ty ->]. by exists ty.
Qed.

(** A row with a DATE column: the serializer returns it as it is, the
    specification's serializer gives the ISO-8601 string, and json.dumps
    refuses the row. *)
Lemma C2_witness :
  parquet_tools._serialize_datetime row_with_date = row_with_date /\
  serialize_all_temporal row_with_date
    = PList [PDict [("id", PInt 1); ("day", PStr "2024-03-09")]] /\
  Json.dumps (parquet_tools._serialize_datetime row_with_date)
    = Raise (TypeError "Object of type date is not JSON serializable") /\
  has_date_or_time (parquet_tools._serialize_datetime row_with_date) = true /\
  parquet_tools._serialize_datetime row_with_date <> serialize_all_temporal row_with_date.
Proof.
  split; [reflexivity|]. split; [vm_compute; reflexivity|]. split; [vm_compute; reflexivity|].
  destruct (C2_serialize_datetime row_with_date) as (_ & _ & _ & H).
  destruct (H eq_refl) as (H1 & _ & H2 & _). by split.
Defined.

(** ** C5: the path handed to the engine *)

Section Pathlib.
Import pathlib.

Lemma split_no_slash s : Forall (fun x => no_slash x = true) (split s).
Proof.
  induction s as [|c r IH]; cbn [split]; [by repeat constructor|].
  destruct (Ascii.eqb c "/") eqn:E; [by constructor|].
  destruct (split r) as [|x xs]; [by repeat constructor; cbn [no_slash]; rewrite E|].
  inversion IH; subst. constructor; [|done]. cbn [no_slash]. by rewrite E.
Qed.

Lemma split_single x : no_slash x = true -> split x = [x].
Proof.
  induction x as [|c r IH]; [done|]. cbn [no_slash split].
  intros [Hc Hr]%andb_true_iff. apply negb_true_iff in Hc. rewrite Hc.
  by rewrite (IH Hr).
Qed.

Lemma split_app_slash x r :
  no_slash x = true -> split (x +:+ String "/" r) = x :: split r.
Proof.
  induction x as [|c x IH]; [done|]. cbn [no_slash]. rewrite str_app_cons. cbn [split].
  intros [Hc Hr]%andb_true_iff. apply negb_true_iff in Hc. rewrite Hc.
  by rewrite (IH Hr).
Qed.

Lemma split_join l :
  l <> [] -> Forall (fun x => no_slash x = true) l -> split (join "/" l) = l.
Proof.
  induction l as [|x l IH]; [done|]. intros _ H. inversion H as [|? ? Hx Hl]; subst.
  destruct l as [|y l]; [by apply split_single|].
  rewrite join_cons. change ("/" +:+ join "/" (y :: l)) with (String "/" (join "/" (y :: l))).
  rewrite (split_app_slash _ _ Hx). f_equal. by apply IH.
Qed.

Lemma filter_parts_ok l :
  Forall (fun x => part_ok x = true) l -> filter (fun x => is_part x = true) l = l.
Proof.
  induction 1 as [|x l Hx _ IH]; [done|].
  apply andb_true_iff in Hx as [Hx _].
  rewrite filter_cons_True by done. by rewrite IH.
Qed.

(** Every parsed path is well formed. *)
Lemma of_str_wf s : wf_path (of_str s).
Proof.
  split.
  - cbn [of_str root]. unfold root_of.
    destruct (startswith s "/"); cbn [negb]; [|by left].
    destruct (negb (startswith s "//") || startswith s "///"); auto.
  - cbn [of_str parts]. apply Forall_forall. intros x [Hx Hin]%list_elem_of_filter.
    unfold part_ok. rewrite Hx. cbn [andb].
    pose proof (split_no_slash s) as H. rewrite Forall_forall in H. by apply H.
Qed.

Lemma part_ok_first x :
  part_ok x = true -> exists c r, x = String c r /\ Ascii.eqb c "/" = false.
Proof.
  unfold part_ok, is_part. destruct x as [|c r]; [done|].
  intros [_ H]%andb_true_iff. cbn [no_slash] in H.
  apply andb_true_iff in H as [H _]. apply negb_true_iff in H. eauto.
Qed.

(** Parsing the text of a well-formed path gives the path back. *)
Lemma of_str_str p : wf_path p -> of_str (str p) = p.
Proof.
  destruct p as [r t]. intros [Hr Ht]. cbn [root parts] in Hr, Ht.
  assert (Hns : Forall (fun x => no_slash x = true) t).
  { eapply Forall_impl; [exact Ht|]. by intros x [_ ?]%andb_true_iff. }
  unfold str. cbn [root parts].
  destruct t as [|x t].
  - destruct Hr as [-> | [-> | ->]]; reflexivity.
  - inversion Ht as [|? ? Hx Ht']; subst.
    destruct (part_ok_first _ Hx) as (c & x' & -> & Hc).
    assert (Hj : exists j, join "/" (String c x' :: t) = String c j).
    { destruct t; [cbn [join]; eauto|]. rewrite join_cons, str_app_cons. eauto. }
    destruct Hj as [j Hj].
    unfold of_str. f_equal.
    + destruct Hr as [-> | [-> | ->]]; rewrite Hj; unfold root_of;
        rewrite ?str_app_cons, ?str_app_nil_l; cbn [startswith];
        rewrite ?(Ascii.eqb_sym "/" c), ?Hc; reflexivity.
    + destruct Hr as [-> | [-> | ->]].
      * rewrite str_app_nil_l, split_join by done. by apply filter_parts_ok.
      * change ("/" +:+ join "/" (String c x' :: t)) with (String "/" (join "/" (String c x' :: t))).
        cbn [split]. change (Ascii.eqb "/" "/") with true. cbv iota.
        rewrite split_join by done. rewrite filter_cons_False by done. by apply filter_parts_ok.
      * change ("//" +:+ join "/" (String c x' :: t))
          with (String "/" (String "/" (join "/" (String c x' :: t)))).
        cbn [split]. change (Ascii.eqb "/" "/") with true. cbv iota.
        rewrite split_join by done. rewrite !filter_cons_False by done. by apply filter_parts_ok.
Qed.

Lemma list_startswith_spec l pre :
  list_startswith l pre = true <-> exists rest, l = (pre ++ rest)%list.
Proof.
  revert l. induction pre as [|x pre IH]; intros [|y l]; cbn [list_startswith].
  - split; [by exists [] | done].
  - split; [intros _; by exists (y :: l) | done].
  - split; [done | by intros [? ?]].
  - rewrite andb_true_iff, String.eqb_eq, IH. split.
    + intros [-> [rest ->]]. eauto.
    + intros [rest [= -> ->]]. eauto.
Qed.

Lemma relative_to_under p c :
  under p c ->
  relative_to p c = Ok {| root := EmptyString; parts := drop (length (parts c)) (parts p) |}.
Proof.
  intros [Hr Hp]. unfold relative_to.
  rewrite Hr, String.eqb_refl. apply list_startswith_spec in Hp. by rewrite Hp.
Qed.

Lemma relative_to_not_under p c :
  ~ under p c -> exists e, relative_to p c = Raise e.
Proof.
  intros H. unfold relative_to.
  destruct (String.eqb_spec (root p) (root c)) as [Hr|]; cbn [andb]; [|eauto].
  destruct (list_startswith (parts p) (parts c)) eqn:E; [|eauto].
  destruct H. split; [done|]. by apply list_startswith_spec.
Qed.

End Pathlib.

(** C5, as the code has it.  A relative path is returned as it was given.
    An absolute path outside the working directory is returned in pathlib's
    normal form, str(Path(P)): it denotes the same path and is P itself when
    P is written in that form.  An absolute path under the working directory
    is returned as a relative path R with cwd / R equal to Path(P). *)
Theorem C5_relative_path (cwd P : string) :
  let c := pathlib.of_str cwd in
  let p := pathlib.of_str P in
  (pathlib.is_absolute p = false -> relative_path c P = P) /\
  (pathlib.is_absolute p = true -> ~ under p c ->
     relative_path c P = pathlib.str p /\
     pathlib.of_str (relative_path c P) = p /\
     (pathlib.str p = P -> relative_path c P = P)) /\
  (pathlib.is_absolute p = true -> under p c ->
     pathlib.is_absolute (pathlib.of_str (relative_path c P)) = false /\
     pathlib.joinpath c (pathlib.of_str (relative_path c P)) = p).
Proof.
  cbv zeta. unfold relative_path. repeat split.
  - by intros ->.
  - rewrite H. by destruct (relative_to_not_under _ _ H0) as [e ->].
  - rewrite H. destruct (relative_to_not_under _ _ H0) as [e ->].
    apply of_str_str, of_str_wf.
  - rewrite H. destruct (relative_to_not_under _ _ H0) as [e ->]. done.
  - rewrite H, (relative_to_under _ _ H0).
    rewrite of_str_str; [done|].
    destruct (of_str_wf P) as [_ HP]. split; [by left|].
    cbn [pathlib.parts]. by apply Forall_drop.
  - rewrite H, (relative_to_under _ _ H0).
    rewrite of_str_str.
    + unfold pathlib.joinpath. cbn [pathlib.is_absolute pathlib.root pathlib.parts String.eqb negb].
      destruct H0 as [Hr [rest Hp]]. destruct (pathlib.of_str P) as [r t].
      cbn [pathlib.root pathlib.parts] in *. subst.
      by rewrite drop_app_length.
    + destruct (of_str_wf P) as [_ HP]. split; [by left|].
      cbn [pathlib.parts]. by apply Forall_drop.
Qed.

(** A file under the working directory, and the relative path it gets. *)
Lemma C5_witness :
  relative_path (pathlib.of_str "/home/u/cwd") "/home/u/cwd/data//sales.parquet" = "data/sales.parquet" /\
  pathlib.joinpath (pathlib.of_str "/home/u/cwd")
                   (pathlib.of_str (relative_path (pathlib.of_str "/home/u/cwd")
                                                  "/home/u/cwd/data//sales.parquet"))
    = pathlib.of_str "/home/u/cwd/data//sales.parquet".
Proof.
  split; [vm_compute; reflexivity|].
  apply (C5_relative_path "/home/u/cwd" "/home/u/cwd/data//sales.parquet").
  - reflexivity.
  - split; [reflexivity|]. exists ["data"; "sales.parquet"]. reflexivity.
Defined.

(** An absolute path outside the working directory, written with a doubled
    slash, does not come back unchanged; and for a path under the working
    directory written that way, joining the strings of the working
    directory and of R does not give P back. *)
Lemma C5_counterexample :
  pathlib.is_absolute (pathlib.of_str "/tmp//x.parquet") = true /\
  ~ under (pathlib.of_str "/tmp//x.parquet") (pathlib.of_str "/home/u/cwd") /\
  relative_path (pathlib.of_str "/home/u/cwd") "/tmp//x.parquet" = "/tmp/x.parquet" /\
  relative_path (pathlib.of_str "/home/u/cwd") "/tmp//x.parquet" <> "/tmp//x.parquet" /\
  "/home/u/cwd" +:+ "/" +:+ relative_path (pathlib.of_str "/home/u/cwd") "/home/u/cwd/data//sales.parquet"
    <> "/home/u/cwd/data//sales.parquet".
Proof.
  split; [reflexivity|]. split.
  - intros [_ [rest H]]. vm_compute in H. discriminate.
  - split; [vm_compute; reflexivity|]. split; intros H; vm_compute in H; discriminate.
Qed.

(** ** C6: the table registrar *)

Section Registrar.
Import parquet_tools.











Lemma register_views_spec w files : forall T h,
  let names := table_names_for files T in
  match register_views w files T h with
  | (T', Ok h') =>
      T' = list_to_set names ∪ T /\ h' = (h ++ zip_with create_view_sql names files)%list
  | (T', Raise e) =>
      exists k text, (k < length files)%nat /\ e = EngineError text /\
                     T' = list_to_set (take (S k) names) ∪ T
  end.
Proof.
  induction files as [|f files IH]; intros T h; cbn [table_names_for register_views].
  - cbv zeta. split; [set_solver|]. by rewrite app_nil_r.
  - cbv zeta. set (n := unique_table_name (pathlib.stem (pathlib.of_str f)) T).
    destruct (engine w h (create_view_sql n f)) as [text|rs].
    + exists 0%nat, text. cbn [length take]. split; [lia|]. split; [done|]. set_solver.
    + specialize (IH ({[ n ]} ∪ T) (h ++ [create_view_sql n f])%list). cbv zeta in IH.
      destruct (register_views w files _ _) as [T' [h'|e]].
      * destruct IH as [-> ->]. split; [set_solver|].
        cbn [zip_with]. by rewrite <- app_assoc.
      * destruct IH as (k & text & Hk & -> & ->).
        exists (S k), text. cbn [length]. split; [lia|]. split; [done|].
        cbn [take]. set_solver.
Qed.

Lemma register_views_fails w files : forall T h T' e,
  register_views w files T h = (T', Raise e) ->
  let names := table_names_for files T in
  exists k name file text,
    names !! k = Some name /\ files !! k = Some file /\
    engine w (h ++ zip_with create_view_sql (take k names) (take k files))
           (create_view_sql name file) = Fails text /\
    e = EngineError text /\ T' = list_to_set (take (S k) names) ∪ T.
Proof.
  induction files as [|f files IH]; intros T h T' e; cbn [table_names_for register_views]; [done|].
  cbv zeta. set (n := unique_table_name (pathlib.stem (pathlib.of_str f)) T).
  destruct (engine w h (create_view_sql n f)) as [text|rs] eqn:E.
  - intros [= <- <-]. exists 0%nat, n, f, text. cbn [take zip_with lookup list_lookup].
    rewrite app_nil_r. repeat split; try done. set_solver.
  - intros H. apply IH in H. cbv zeta in H.
    destruct H as (k & name & file & text & H1 & H2 & H3 & H4 & H5).
    exists (S k), name, file, text. cbn [take zip_with]. rewrite <- app_assoc in H3.
    repeat split; try done. rewrite H5. cbn [take]. set_solver.
Qed.
End Registrar.


(** ** Substrings *)

Section Occurs.

Lemma startswith_spec s p : startswith s p = true <-> exists r, s = p +:+ r.
Proof.
  revert p. induction s as [|d s IH]; intros [|c p]; cbn [startswith].
  - split; [by exists EmptyString | done].
  - split; [done | by intros [r ?]].
  - split; [intros _; by exists (String d s) | done].
  - destruct (Ascii.eqb_spec c d) as [->|Hne].
    + rewrite IH. split; intros [r Hr]; exists r.
      * by rewrite str_app_cons, <- Hr.
      * rewrite str_app_cons in Hr. by injection Hr.
    + split; [done|]. intros [r Hr]. rewrite str_app_cons in Hr. by injection Hr as -> _.
Qed.

Lemma occurs_in_refl x : occurs_in x x.
Proof. exists EmptyString, EmptyString. by rewrite str_app_nil_l, str_app_nil_r. Qed.

Lemma occurs_in_here x post : occurs_in x (x +:+ post).
Proof. by exists EmptyString, post. Qed.

Lemma occurs_in_skip x a s : occurs_in x s -> occurs_in x (a +:+ s).
Proof. intros (pre & post & ->). exists (a +:+ pre), post. by rewrite str_app_assoc. Qed.

Lemma occurs_in_app_l x a b : occurs_in x a -> occurs_in x (a +:+ b).
Proof. intros (pre & post & ->). exists pre, (post +:+ b). by rewrite !str_app_assoc. Qed.

(** [sub in s], as a proposition *)
Lemma str_contains_spec s sub : str_contains s sub = true <-> occurs_in sub s.
Proof.
  induction s as [|c s IH]; cbn [str_contains].
  - rewrite orb_false_r, startswith_spec. split.
    + intros [r ->]. apply occurs_in_here.
    + intros (pre & post & H). destruct pre; [|done]. rewrite str_app_nil_l in H.
      destruct sub; [by exists EmptyString | done].
  - rewrite orb_true_iff, IH, startswith_spec. split.
    + intros [[r ->] | H]; [apply occurs_in_here|].
      by apply (occurs_in_skip _ (String c EmptyString)) in H.
    + intros (pre & post & H). destruct pre as [|d pre].
      * left. exists post. by rewrite str_app_nil_l in H.
      * right. rewrite str_app_cons in H. injection H as _ ->. by exists pre, post.
Qed.

Lemma occurs_in_join sep x l : x ∈ l -> occurs_in x (join sep l).
Proof.
  induction l as [|y l IH]; [by intros ?%elem_of_nil|].
  intros [->|Hin]%elem_of_cons.
  - destruct l; [apply occurs_in_refl | rewrite join_cons; apply occurs_in_here].
  - destruct l as [|z l]; [by apply elem_of_nil in Hin|].
    rewrite join_cons. by apply occurs_in_skip, occurs_in_skip, IH.
Qed.

End Occurs.

(** ** C7: the row limit *)

Section QueryPlugin.
Import parquet_tools.

Lemma apply_limit_spec limit (l : list pyval) :
  0 <= limit ->
  apply_limit limit l = take (Z.to_nat (Z.min (Z.of_nat (length l)) limit)) l.
Proof.
  intros H. unfold apply_limit, slice_to.
  destruct (Z.ltb_spec limit (Z.of_nat (length l))) as [Hlt|Hge].
  - destruct (Z.ltb_spec limit 0); [lia|]. by rewrite Z.min_r by lia.
  - rewrite Z.min_l by lia. by rewrite Nat2Z.id, firstn_all.
Qed.

Lemma apply_limit_length limit (l : list pyval) :
  0 <= limit -> Z.of_nat (length (apply_limit limit l)) = Z.min (Z.of_nat (length l)) limit.
Proof. intros H. rewrite apply_limit_spec by done. rewrite length_take. lia. Qed.

(** What a successful call went through. *)
Lemma query_success w parquet_files query limit s out :
  (QueryParquetFilesPlugin w parquet_files query limit s).1 = Ok out ->
  exists files history rs result_json,
    _validate_parquet_files w parquet_files = Ok files /\
    engine w history query = Returns rs /\
    Json.dumps (PList (apply_limit limit (map _serialize_datetime (rows_as_dicts rs)))) = Ok result_json /\
    _enforce_token_limit result_json "query_parquet_files" = Ok out.
Proof.
  unfold QueryParquetFilesPlugin.
  destruct (_validate_parquet_files w parquet_files) as [files|e]; [|done].
  cbn [connect]. unfold query_body.
  destruct (register_views w _ ∅ []) as [T [history|e]]; [|done].
  destruct (engine w history query) as [text|rs] eqn:He; [done|].
  unfold result_json_of. cbn [_serialize_datetime].
  destruct (Json.dumps _) as [result_json|e] eqn:Hd; [|done].
  cbn [fst]. intros Hout.
  destruct (_enforce_token_limit result_json "query_parquet_files") as [o|e] eqn:Hen; [|done].
  exists files, history, rs, result_json. by simplify_eq.
Qed.
End QueryPlugin.

(** C7, as the code has it.  For every successful call and every row limit
    that is not negative: the query yields n rows, and the text handed to
    budget enforcement is the JSON encoding of the first min(n, limit)
    serialized rows, in the order the engine returned them.  The rows are
    serialized first, cut next, encoded and enforced last. *)
Theorem C7_limit_truncation (w : World) (parquet_files : files_arg) (query : string) (limit : Z)
    (s : Conns) (out : string) :
  0 <= limit ->
  (parquet_tools.QueryParquetFilesPlugin w parquet_files query limit s).1 = Ok out ->
  exists history rs result_json,
    engine w history query = Returns rs /\
    let n := Z.of_nat (length (rs_rows rs)) in
    let handed := take (Z.to_nat (Z.min n limit))
                       (map parquet_tools._serialize_datetime (parquet_tools.rows_as_dicts rs)) in
    Z.of_nat (length handed) = Z.min n limit /\
    Json.dumps (PList handed) = Ok result_json /\
    parquet_tools._enforce_token_limit result_json "query_parquet_files" = Ok out.
Proof.
  intros Hlimit (files & history & rs & result_json & _ & He & Hd & Hout)%query_success.
  exists history, rs, result_json. split; [done|]. cbv zeta.
  rewrite apply_limit_spec in Hd by done.
  rewrite length_map in Hd. unfold parquet_tools.rows_as_dicts in Hd at 1. rewrite length_map in Hd.
  split; [|done].
  rewrite length_take, length_map. unfold parquet_tools.rows_as_dicts. rewrite length_map. lia.
Qed.

(** The three rows of sales.parquet under a limit of 2. *)
Lemma C7_witness :
  exists history rs result_json,
    engine demo_world history "SELECT * FROM sales" = Returns rs /\
    let n := Z.of_nat (length (rs_rows rs)) in
    let handed := take (Z.to_nat (Z.min n 2))
                       (map parquet_tools._serialize_datetime (parquet_tools.rows_as_dicts rs)) in
    Z.of_nat (length handed) = Z.min n 2 /\
    Json.dumps (PList handed) = Ok result_json /\
    parquet_tools._enforce_token_limit result_json "query_parquet_files"
      = Ok (text_of (parquet_tools.QueryParquetFilesPlugin demo_world (OneFile "sales.parquet")
                       "SELECT * FROM sales" 2 no_conns).1).
Proof.
  apply (C7_limit_truncation demo_world (OneFile "sales.parquet") "SELECT * FROM sales" 2 no_conns);
    [lia | vm_compute; reflexivity].
Defined.

(** A limit of -1 on the three rows: the slice drops the last row and two
    rows are handed on, where min(3, -1) is no number of rows at all. *)
Lemma C7_counterexample :
  engine demo_world [parquet_tools.create_view_sql "sales" "sales.parquet"] "SELECT * FROM sales"
    = Returns three_rows /\
  length (rs_rows three_rows) = 3%nat /\
  (parquet_tools.QueryParquetFilesPlugin demo_world (OneFile "sales.parquet")
     "SELECT * FROM sales" (-1) no_conns).1
    = Json.dumps (PList (take 2 (map parquet_tools._serialize_datetime
                                     (parquet_tools.rows_as_dicts three_rows)))) /\
  Z.min 3 (-1) = -1.
Proof. repeat split; vm_compute; reflexivity. Qed.

(** ** C8: the categories of engine failures *)

Section QueryErrors.
Import parquet_tools.

Lemma available_tables_lists w (T : gset string) t :
  t ∈ T -> occurs_in t (available_tables w T).
Proof.
  intros Ht. unfold available_tables. destruct (decide (T = ∅)) as [->|_]; [set_solver|].
  apply occurs_in_join. rewrite (iter_set_perm w T). by apply elem_of_elements.
Qed.

(** The try block is left with an engine error when a CREATE VIEW fails
    and when the query fails. *)
Lemma query_body_registration_fails w files query limit T e :
  register_views w (map (relative_path (pathlib.of_str (getcwd w))) files) ∅ [] = (T, Raise e) ->
  query_body w files query limit = (T, Raise e).
Proof. intros H. unfold query_body. by rewrite H. Qed.

Lemma query_body_query_fails w files query limit T history text :
  register_views w (map (relative_path (pathlib.of_str (getcwd w))) files) ∅ [] = (T, Ok history) ->
  engine w history query = Fails text ->
  query_body w files query limit = (T, Raise (EngineError text)).
Proof. intros H He. unfold query_body. by rewrite H, He. Qed.

(** [needle in text.lower()] is the test of the specification. *)
Lemma lower_char_table :
  forallb (fun n => forallb (fun m =>
     implb (small_char (ascii_of_nat m))
           (Bool.eqb (Ascii.eqb (ascii_of_nat m) (lower_char (ascii_of_nat n)))
                     (same_letter (ascii_of_nat m) (ascii_of_nat n))))
     (seq 0 256)) (seq 0 256) = true.
Proof. vm_compute. reflexivity. Qed.

Lemma lower_char_same_letter a c :
  small_char a = true -> Ascii.eqb a (lower_char c) = same_letter a c.
Proof.
  intros Ha. pose proof lower_char_table as H.
  rewrite forallb_forall in H.
  assert (Hc : In (nat_of_ascii c) (seq 0 256)).
  { apply in_seq. pose proof (nat_ascii_bounded c). lia. }
  assert (Hin : In (nat_of_ascii a) (seq 0 256)).
  { apply in_seq. pose proof (nat_ascii_bounded a). lia. }
  specialize (H _ Hc). rewrite forallb_forall in H. specialize (H _ Hin).
  rewrite !ascii_nat_embedding, Ha in H. cbn [implb] in H. by apply eqb_prop.
Qed.

Lemma startswith_lower needle : forall s,
  small_text needle = true -> startswith (lower s) needle = starts_ignoring_case s needle.
Proof.
  induction needle as [|a needle IH]; intros [|c s]; cbn [lower startswith starts_ignoring_case small_text];
    try done.
  intros [Ha Hn]%andb_true_iff. rewrite (lower_char_same_letter a c Ha), (IH s Hn).
  by destruct (same_letter a c).
Qed.

Lemma contains_lower needle s :
  small_text needle = true -> str_contains (lower s) needle = contains_ignoring_case s needle.
Proof.
  intros Hn. induction s as [|c s IH].
  - cbn [lower str_contains contains_ignoring_case]. by rewrite <- (startswith_lower needle EmptyString Hn).
  - change (lower (String c s)) with (String (lower_char c) (lower s)).
    cbn [str_contains contains_ignoring_case]. rewrite IH.
    change (String (lower_char c) (lower s)) with (lower (String c s)).
    by rewrite (startswith_lower needle _ Hn).
Qed.

(** The three messages share their middle part. *)
Lemma message_parts head text query tables tail :
  let msg := head +:+ text +:+ NL +:+ "Query: " +:+ query +:+ NL
             +:+ "Available tables: " +:+ tables +:+ tail in
  startswith msg head = true /\
  occurs_in text msg /\
  occurs_in ("Query: " +:+ query) msg /\
  occurs_in ("Available tables: " +:+ tables) msg.
Proof.
  cbv zeta. split; [apply startswith_spec; eauto|]. split; [|split].
  - apply occurs_in_skip, occurs_in_here.
  - do 3 apply occurs_in_skip. rewrite <- str_app_assoc. apply occurs_in_here.
  - do 6 apply occurs_in_skip. rewrite <- str_app_assoc. apply occurs_in_here.
Qed.

End QueryErrors.

(** C8: the message offers a table that was never registered.  When the
    try block is left by a failure of the engine with text [text], the
    plugin raises a RuntimeError.  Its message starts as a SQL-syntax error
    when the text contains syntax error or parser error, capital and small
    letters not told apart; else as a table-reference error when it
    contains catalog or table; else as a generic execution error.  In all
    three the message holds the text of the engine, the query, and the line
    of available tables with every name of [table_names].  When the query
    failed, these are the names of the views that were created.  When a
    CREATE VIEW failed, they are the names entered up to and including the
    one of the view that the engine refused: the message offers as
    available a table that does not exist. *)
Theorem C8_error_categories (w : World) (parquet_files : files_arg) (query : string) (limit : Z)
    (s : Conns) (files : list string) (table_names : gset string) (text : string) :
  parquet_tools._validate_parquet_files w parquet_files = Ok files ->
  parquet_tools.query_body w files query limit = (table_names, Raise (EngineError text)) ->
  let relative := map (relative_path (pathlib.of_str (getcwd w))) files in
  let names := table_names_for relative ∅ in
  exists msg,
    (parquet_tools.QueryParquetFilesPlugin w parquet_files query limit s).1 = Raise (RuntimeError msg) /\
    startswith msg
      (if contains_ignoring_case text "syntax error" || contains_ignoring_case text "parser error"
       then "SQL syntax error in query: "
       else if contains_ignoring_case text "catalog" || contains_ignoring_case text "table"
            then "Table reference error: "
            else "Query execution failed: ") = true /\
    occurs_in text msg /\
    occurs_in ("Query: " +:+ query) msg /\
    occurs_in ("Available tables: " +:+ parquet_tools.available_tables w table_names) msg /\
    (forall t, t ∈ table_names -> occurs_in t msg) /\
    (forall T history,
       parquet_tools.register_views w relative ∅ [] = (T, Ok history) ->
       table_names = list_to_set names /\
       history = zip_with parquet_tools.create_view_sql names relative) /\
    (forall T e,
       parquet_tools.register_views w relative ∅ [] = (T, Raise e) ->
       exists k name file,
         names !! k = Some name /\ relative !! k = Some file /\
         engine w (zip_with parquet_tools.create_view_sql (take k names) (take k relative))
                (parquet_tools.create_view_sql name file) = Fails text /\
         table_names = list_to_set (take (S k) names) /\
         name ∈ table_names /\ occurs_in name msg).
Proof.
  intros Hv Hb. cbv zeta. unfold parquet_tools.QueryParquetFilesPlugin. rewrite Hv. cbn [connect].
  rewrite Hb. cbn [fst parquet_tools.query_except exn_str].
  rewrite !contains_lower by reflexivity.
  assert (Hall : forall head tail msg,
    msg = head +:+ text +:+ NL +:+ "Query: " +:+ query +:+ NL +:+ "Available tables: "
          +:+ parquet_tools.available_tables w table_names +:+ tail ->
    startswith msg head = true /\ occurs_in text msg /\ occurs_in ("Query: " +:+ query) msg /\
    occurs_in ("Available tables: " +:+ parquet_tools.available_tables w table_names) msg /\
    (forall t, t ∈ table_names -> occurs_in t msg)).
  { intros head tail msg ->.
    destruct (message_parts head text query (parquet_tools.available_tables w table_names) tail)
      as (H1 & H2 & H3 & H4).
    repeat split; try done. intros t Ht. do 7 apply occurs_in_skip.
    by apply occurs_in_app_l, available_tables_lists. }
  assert (Hreg : forall msg, (forall t, t ∈ table_names -> occurs_in t msg) ->
    (forall T history,
       parquet_tools.register_views w (map (relative_path (pathlib.of_str (getcwd w))) files) ∅ []
         = (T, Ok history) ->
       table_names = list_to_set (table_names_for (map (relative_path (pathlib.of_str (getcwd w))) files) ∅) /\
       history = zip_with parquet_tools.create_view_sql
                   (table_names_for (map (relative_path (pathlib.of_str (getcwd w))) files) ∅)
                   (map (relative_path (pathlib.of_str (getcwd w))) files)) /\
    (forall T e,
       parquet_tools.register_views w (map (relative_path (pathlib.of_str (getcwd w))) files) ∅ []
         = (T, Raise e) ->
       exists k name file,
         table_names_for (map (relative_path (pathlib.of_str (getcwd w))) files) ∅ !! k = Some name /\
         map (relative_path (pathlib.of_str (getcwd w))) files !! k = Some file /\
         engine w (zip_with parquet_tools.create_view_sql
                     (take k (table_names_for (map (relative_path (pathlib.of_str (getcwd w))) files) ∅))
                     (take k (map (relative_path (pathlib.of_str (getcwd w))) files)))
                (parquet_tools.create_view_sql name file) = Fails text /\
         table_names = list_to_set
                         (take (S k) (table_names_for (map (relative_path (pathlib.of_str (getcwd w))) files) ∅)) /\
         name ∈ table_names /\ occurs_in name msg)).
  { intros msg Hlisted. split.
    - intros T history Hr. revert Hb. unfold parquet_tools.query_body. rewrite Hr.
      pose proof (register_views_spec w (map (relative_path (pathlib.of_str (getcwd w))) files) ∅ [])
        as Hs. cbv zeta in Hs. rewrite Hr in Hs. destruct Hs as [-> ->].
      rewrite (right_id_L ∅ (∪)), app_nil_l. by intros [= <- _].
    - intros T e Hr. revert Hb. unfold parquet_tools.query_body. rewrite Hr. intros [= <- ->].
      destruct (register_views_fails _ _ _ _ _ _ Hr) as (k & name & file & text' & H1 & H2 & H3 & H4 & H5).
      cbv zeta in *. injection H4 as <-. rewrite app_nil_l in H3. rewrite (right_id_L ∅ (∪)) in H5.
      assert (Hin : name ∈ T).
      { rewrite H5. apply elem_of_list_to_set. apply list_elem_of_lookup. exists k.
        rewrite lookup_take_lt by lia. done. }
      exists k, name, file. repeat split; try done. by apply Hlisted. }
  destruct (contains_ignoring_case text "syntax error" || contains_ignoring_case text "parser error");
    [|destruct (contains_ignoring_case text "catalog" || contains_ignoring_case text "table")];
    eexists; (split; [reflexivity|]).
  - edestruct Hall as (H1 & H2 & H3 & H4 & H5); [reflexivity|].
    destruct (Hreg _ H5) as [H6 H7].
    exact (conj H1 (conj H2 (conj H3 (conj H4 (conj H5 (conj H6 H7)))))).
  - edestruct Hall as (H1 & H2 & H3 & H4 & H5); [reflexivity|].
    destruct (Hreg _ H5) as [H6 H7].
    exact (conj H1 (conj H2 (conj H3 (conj H4 (conj H5 (conj H6 H7)))))).
  - edestruct (Hall "Query execution failed: " EmptyString) as (H1 & H2 & H3 & H4 & H5);
      [by rewrite str_app_nil_r|].
    destruct (Hreg _ H5) as [H6 H7].
    exact (conj H1 (conj H2 (conj H3 (conj H4 (conj H5 (conj H6 H7)))))).
Qed.

(** The engine refuses the view of sales.parquet, and the message offers
    sales as available.  The answers of the engine come with capitals: a
    catalog error is a table-reference error, a parser error a SQL-syntax
    error.  The misspelt query of the scenario holds its text. *)
Lemma C8_witness :
  (exists msg,
     (parquet_tools.QueryParquetFilesPlugin broken_world (OneFile "sales.parquet")
        "SELECT * FROM sales" 10 no_conns).1 = Raise (RuntimeError msg) /\
     engine broken_world [] (parquet_tools.create_view_sql "sales" "sales.parquet")
       = Fails "IO Error: No files found that match the pattern" /\
     occurs_in "Available tables: sales" msg) /\
  (exists msg,
     (parquet_tools.QueryParquetFilesPlugin capitals_world (OneFile "sales.parquet")
        "SELECT * FROM orders" 10 no_conns).1 = Raise (RuntimeError msg) /\
     startswith msg "Table reference error: Catalog Error: Table with name orders" = true) /\
  (exists msg,
     (parquet_tools.QueryParquetFilesPlugin capitals_world (OneFile "sales.parquet")
        "SELECT FROM sales" 10 no_conns).1 = Raise (RuntimeError msg) /\
     startswith msg "SQL syntax error in query: Parser Error: SELECT clause" = true) /\
  (exists msg,
     (parquet_tools.QueryParquetFilesPlugin demo_world (OneFile "sales.parquet")
        "SELCT * FROM sales" 10 no_conns).1 = Raise (RuntimeError msg) /\
     startswith msg "SQL syntax error in query: " = true /\
     occurs_in ("Query: " +:+ "SELCT * FROM sales") msg /\
     occurs_in "sales" msg).
Proof.
  split; [|split; [|split]].
  - destruct (C8_error_categories broken_world (OneFile "sales.parquet") "SELECT * FROM sales" 10
                no_conns ["sales.parquet"] {[ "sales" ]}
                "IO Error: No files found that match the pattern")
      as (msg & H1 & _ & _ & _ & H5 & _);
      [vm_compute; reflexivity | vm_compute; reflexivity |].
    exists msg. split; [exact H1|]. split; [reflexivity|].
    clear H5. vm_compute in H1. injection H1 as <-.
    exists ("Query execution failed: IO Error: No files found that match the pattern" +:+ NL
            +:+ "Query: SELECT * FROM sales" +:+ NL), EmptyString.
    vm_compute. reflexivity.
  - destruct (C8_error_categories capitals_world (OneFile "sales.parquet") "SELECT * FROM orders" 10
                no_conns ["sales.parquet"] {[ "sales" ]}
                "Catalog Error: Table with name orders does not exist!")
      as (msg & H1 & H2 & _);
      [vm_compute; reflexivity | vm_compute; reflexivity |].
    exists msg. split; [exact H1|].
    clear H2. vm_compute in H1. injection H1 as <-. vm_compute. reflexivity.
  - destruct (C8_error_categories capitals_world (OneFile "sales.parquet") "SELECT FROM sales" 10
                no_conns ["sales.parquet"] {[ "sales" ]}
                "Parser Error: SELECT clause without selection list")
      as (msg & H1 & H2 & _);
      [vm_compute; reflexivity | vm_compute; reflexivity |].
    exists msg. split; [exact H1|].
    clear H2. vm_compute in H1. injection H1 as <-. vm_compute. reflexivity.
  - destruct (C8_error_categories demo_world (OneFile "sales.parquet") "SELCT * FROM sales" 10 no_conns
                ["sales.parquet"] {[ "sales" ]}
                ("Parser Error: syntax error at or near " +:+ DQ +:+ "SELCT" +:+ DQ))
      as (msg & H1 & H2 & _ & H4 & _ & H6 & _);
      [vm_compute; reflexivity | vm_compute; reflexivity |].
    exists msg. split; [exact H1|]. split; [exact H2|]. split; [exact H4|].
    apply H6. apply elem_of_singleton. reflexivity.
Defined.

(** ** The report of an encoded list of rows *)

Section Reports.
Import token_budget.

Lemma dumps_list_bracket l payload :
  Json.dumps (PList l) = Ok payload -> startswith payload "[" = true.
Proof.
  unfold Json.dumps. destruct l as [|x l]; cbn [Json.encode].
  - by intros [= <-].
  - destruct (mapM _ _); [|done]. intros [= <-]. by rewrite str_app_cons.
Qed.

Lemma estimate_le_len payload : _estimate_token_count payload <= Z.max 1 (len payload).
Proof.
  unfold _estimate_token_count, len.
  pose proof (Z.div_mod (Z.of_nat (String.length payload) + 3 - 1) 3 ltac:(lia)).
  pose proof (Z.mod_pos_bound (Z.of_nat (String.length payload) + 3 - 1) 3 ltac:(lia)).
  lia.
Qed.

(** The rows a plugin encodes are counted again by the enforcer. *)
Lemma current_size_dumps rows payload :
  plain (PList rows) = true -> Json.dumps (PList rows) = Ok payload ->
  current_size_of payload = Ok (Some (Z.of_nat (length rows))).
Proof.
  intros Hp Hd. destruct (loads_dumps _ Hp) as (text & Ht & Hl).
  rewrite Hd in Ht. injection Ht as <-. cbn [tree_of] in Hl.
  rewrite (current_size_array _ _ (dumps_list_bracket _ _ Hd) Hl). by rewrite length_map.
Qed.

(** An over-budget list of rows is replaced by the report that counts
    them, whichever of the two report dicts is used. *)
Lemma enforce_rows_over warning rows payload context :
  plain (PList rows) = true -> Json.dumps (PList rows) = Ok payload ->
  TOKEN_LIMIT < _estimate_token_count payload -> len payload < 2 ^ 53 ->
  exists k,
    1 <= k /\
    enforce_with warning payload context =
      Json.dumps (warning context (_estimate_token_count payload)
                    (Some (Z.of_nat (length rows))) (Some k)).
Proof.
  intros Hp Hd Hover Hlen. rewrite (enforce_over _ _ _ Hover).
  rewrite (current_size_dumps _ _ Hp Hd). unfold suggested_limit_of.
  destruct rows as [|row rows].
  { injection Hd as <-. vm_compute in Hover. discriminate. }
  pose proof (estimate_le_len payload) as Hest.
  destruct (loads_dumps _ Hp) as (text & Ht & Hl). rewrite Hd in Ht. injection Ht as <-.
  pose proof (loads_array_count _ _ Hl) as Hcount. cbn [tree_of] in Hcount.
  rewrite length_map in Hcount.
  destruct (Z.eqb_spec (Z.of_nat (length (row :: rows))) 0) as [H0|_]; [cbn [length] in H0; lia|].
  destruct (scaled_size_finite (_estimate_token_count payload)
              (Z.of_nat (length (row :: rows)))) as [t ->].
  { unfold len in Hlen. cbn [length] in *. lia. }
  { unfold len, TOKEN_LIMIT in *. lia. }
  exists (Z.max 1 t). split; [lia|]. reflexivity.
Qed.

End Reports.

(** ** C9, C10, C3: the directory listing and the connections *)

Section FileSystem.

Lemma path_exists_true w p : fs_exists w (pathlib.str p) = true -> path_exists w p = Ok true.
Proof. unfold path_exists, fs_exists. by destruct (fs_stat w _). Qed.

Lemma path_is_dir_true w p : fs_is_dir w (pathlib.str p) = true -> path_is_dir w p = Ok true.
Proof. unfold path_is_dir, fs_is_dir. by destruct (fs_stat w _). Qed.

Lemma path_exists_false w p :
  fs_exists w (pathlib.str p) = false ->
  path_exists w p = Ok false \/
  exists text, fs_stat w (pathlib.str p) = StatError text /\ path_exists w p = Raise (OSError text).
Proof. unfold path_exists, fs_exists. destruct (fs_stat w _); try done; eauto. Qed.

End FileSystem.

Section Listing.
Import list_tables_in_directory.

Lemma list_one_entry w cwd f s :
  (list_one w cwd f s).1 =
    match probe w (relative_path cwd (pathlib.str f)) with
    | Ok (row_count, column_count) =>
        PDict [ ("filename", PStr (pathlib.name f)); ("path", PStr (pathlib.str f));
                ("row_count", row_count); ("column_count", PInt column_count) ]
    | Raise e =>
        PDict [ ("filename", PStr (pathlib.name f)); ("path", PStr (pathlib.str f));
                ("error", PStr (exn_str e)) ]
    end.
Proof.
  unfold list_one. cbn [connect]. by destruct (probe w _) as [[rc cc]|e].
Qed.

Lemma list_files_entries w cwd files : forall acc s,
  (list_files w cwd files acc s).1 = (acc ++ map (fun f => (list_one w cwd f s).1) files)%list.
Proof.
  induction files as [|f files IH]; intros acc s; cbn [list_files map].
  - by rewrite app_nil_r.
  - destruct (list_one w cwd f s) as [entry s1] eqn:E. rewrite IH, <- app_assoc. cbn [fst app].
    f_equal. f_equal. apply map_ext. intros g. by rewrite !list_one_entry.
Qed.

Lemma list_files_plain w cwd files s :
  integer_counts w cwd files ->
  plain (PList (map (fun f => (list_one w cwd f s).1) files)) = true.
Proof.
  intros Hint. cbn [plain]. apply forallb_forall.
  intros entry (f & <- & Hf)%in_map_iff. rewrite list_one_entry.
  destruct (probe w _) as [[rc cc]|e] eqn:E; [|done].
  destruct (Hint f rc cc) as [n ->]; [by apply list_elem_of_In | done | done].
Qed.

Lemma bigint_integer_counts w cwd files :
  bigint_counts w cwd files -> integer_counts w cwd files.
Proof.
  intros Hb file rc cc Hf. unfold probe.
  destruct (engine w [] _) as [text|counted] eqn:Ec; [done|].
  unfold fetchone. destruct (rs_rows counted) as [|[|x more] others] eqn:Er; try done.
  cbn [head first_column]. destruct (engine w [_] _); [done|]. intros [= <- _].
  destruct (Hb file counted x more others Hf Ec Er) as (n & -> & _). by exists n.
Qed.

(** The entry of a file, read off the answers of the engine. *)
Lemma list_one_outcomes w cwd f s :
  let p := relative_path cwd (pathlib.str f) in
  let entry := (list_one w cwd f s).1 in
  field "filename" entry = Some (PStr (pathlib.name f)) /\
  field "path" entry = Some (PStr (pathlib.str f)) /\
  (forall text, engine w [] (count_sql p) = Fails text -> failed_entry entry text) /\
  (forall counted, engine w [] (count_sql p) = Returns counted ->
     (rs_rows counted = [] -> failed_entry entry "Failed to read row count from parquet file") /\
     (forall others, rs_rows counted = [] :: others -> failed_entry entry "tuple index out of range") /\
     (forall row_count more others, rs_rows counted = (row_count :: more) :: others ->
        (forall text, engine w [count_sql p] (schema_sql p) = Fails text -> failed_entry entry text) /\
        (forall result, engine w [count_sql p] (schema_sql p) = Returns result ->
           counted_entry entry row_count (Z.of_nat (length (description result)))))).
Proof.
  cbv zeta. rewrite list_one_entry. unfold probe, fetchone.
  destruct (engine w [] _) as [text|counted].
  { split; [done|]. split; [done|]. split; [|done]. by intros ? [= <-]. }
  split; [by destruct (rs_rows counted) as [|[|x more] others]; cbn [head first_column];
             try destruct (engine w [_] _)|].
  split; [by destruct (rs_rows counted) as [|[|x more] others]; cbn [head first_column];
             try destruct (engine w [_] _)|].
  split; [done|]. intros ? [= <-].
  destruct (rs_rows counted) as [|[|x more] others]; cbn [head first_column].
  - split; [done|]. split; done.
  - split; [done|]. split; done.
  - split; [done|]. split; [done|]. intros rc more' others' [= <- _ _].
    destruct (engine w [_] _) as [text|result].
    + split; [|done]. by intros ? [= <-].
    + split; [done|]. by intros ? [= <-].
Qed.

Lemma list_one_conns w cwd f s :
  conns_ok s ->
  let s' := (list_one w cwd f s).2 in
  conns_ok s' /\
  (if is_Ok (probe w (relative_path cwd (pathlib.str f)))
   then open_ids s' = open_ids s
   else open_ids s' = {[ next_id s ]} ∪ open_ids s /\ next_id s ∉ open_ids s).
Proof.
  intros Hok. unfold list_one. cbn [connect].
  assert (Hfresh : next_id s ∉ open_ids s) by (intros ?%Hok; lia).
  destruct (probe w _) as [[rc cc]|e]; cbn [snd is_Ok close open_ids next_id].
  - split; [|set_solver]. intros i Hi. cbn [close open_ids next_id] in *.
    assert (i ∈ open_ids s) as ?%Hok by set_solver. lia.
  - split; [|done]. intros i Hi. cbn [open_ids next_id] in *.
    apply elem_of_union in Hi as [->%elem_of_singleton|?%Hok]; lia.
Qed.

Lemma list_files_conns w cwd files : forall acc s,
  conns_ok s ->
  let s' := (list_files w cwd files acc s).2 in
  conns_ok s' /\ open_ids s ⊆ open_ids s' /\
  size (open_ids s') = (size (open_ids s) + length (failing_files w cwd files))%nat.
Proof.
  induction files as [|f files IH]; intros acc s Hok; cbn [list_files].
  - cbv zeta. cbn [snd]. unfold failing_files. rewrite filter_nil. cbn [length]. split; [done|].
    split; [done|lia].
  - cbv zeta. pose proof (list_one_conns w cwd f s Hok) as H. cbv zeta in H.
    destruct (list_one w cwd f s) as [entry s1]. cbn [snd] in H. destruct H as [Hok1 Hopen].
    specialize (IH (acc ++ [entry])%list s1 Hok1). cbv zeta in IH.
    destruct IH as (Hok' & Hsub & Hsize). split; [done|].
    unfold failing_files in *.
    destruct (is_Ok (probe w (relative_path cwd (pathlib.str f)))) eqn:E.
    + rewrite filter_cons_False by (by rewrite E). rewrite <- Hopen. done.
    + rewrite filter_cons_True by done. destruct Hopen as [Hopen Hfresh].
      split; [set_solver|]. rewrite Hsize, Hopen.
      rewrite size_union by set_solver. rewrite size_singleton. cbn [length]. lia.
Qed.

End Listing.

(** C9.  On an existing directory the listing has one entry per matching
    file, in the order the file system lists them.  Every entry holds
    filename and path, and what the engine answers for that file: when the
    COUNT statement fails, the text of the failure and neither count; when
    it yields no row, or an empty row, the text of that error; when the
    statement that reads the columns fails, its text; when both succeed,
    row_count, the first column of the count, and column_count, the number
    of columns, and no error.  No failure of the engine ends the call: it
    hands the encoded entries to budget enforcement.  With row counts as
    COUNT yields them, json.dumps encodes the entries; within the budget
    the call returns that very text, and over the budget (the text being
    shorter than 2^53 characters) it returns the overflow report instead,
    which counts the files and holds no entry. *)
Theorem C9_listing_entries (w : World) (directory : string) (s : Conns) :
  fs_exists w (pathlib.str (pathlib.of_str directory)) = true ->
  fs_is_dir w (pathlib.str (pathlib.of_str directory)) = true ->
  let cwd := pathlib.of_str (getcwd w) in
  let files := list_tables_in_directory.glob_parquet w (pathlib.of_str directory) in
  let returned := (list_tables_in_directory.ListTablesInDirectoryPlugin w directory s).1 in
  exists files_info,
    length files_info = length files /\
    (forall i file, files !! i = Some file ->
       let p := relative_path cwd (pathlib.str file) in
       exists entry, files_info !! i = Some entry /\
         field "filename" entry = Some (PStr (pathlib.name file)) /\
         field "path" entry = Some (PStr (pathlib.str file)) /\
         (forall text, engine w [] (count_sql p) = Fails text -> failed_entry entry text) /\
         (forall counted, engine w [] (count_sql p) = Returns counted ->
            (rs_rows counted = [] ->
               failed_entry entry "Failed to read row count from parquet file") /\
            (forall others, rs_rows counted = [] :: others ->
               failed_entry entry "tuple index out of range") /\
            (forall row_count more others, rs_rows counted = (row_count :: more) :: others ->
               (forall text, engine w [count_sql p] (schema_sql p) = Fails text ->
                  failed_entry entry text) /\
               (forall result, engine w [count_sql p] (schema_sql p) = Returns result ->
                  counted_entry entry row_count (Z.of_nat (length (description result))))))) /\
    returned =
      match Json.dumps (PList files_info) with
      | Ok result_json =>
          list_tables_in_directory._enforce_token_limit result_json "list_tables_in_directory"
      | Raise e => Raise e
      end /\
    (bigint_counts w cwd files ->
       exists result_json,
         Json.dumps (PList files_info) = Ok result_json /\
         (ceil_div (len result_json) 3 <= 5000 -> returned = Ok result_json) /\
         (5000 < ceil_div (len result_json) 3 -> len result_json < 2 ^ 53 ->
            exists k out,
              1 <= k /\ returned = Ok out /\
              Json.dumps (token_budget.warning "list_tables_in_directory"
                            (ceil_div (len result_json) 3)
                            (Some (Z.of_nat (length files))) (Some k)) = Ok out)).
Proof.
  intros He Hd. cbv zeta.
  set (cwd := pathlib.of_str (getcwd w)).
  set (files := list_tables_in_directory.glob_parquet w (pathlib.of_str directory)).
  exists (map (fun f => (list_tables_in_directory.list_one w cwd f s).1) files).
  assert (Hcall : (list_tables_in_directory.ListTablesInDirectoryPlugin w directory s).1 =
            match Json.dumps (PList (map (fun f => (list_tables_in_directory.list_one w cwd f s).1)
                                         files)) with
            | Ok result_json =>
                list_tables_in_directory._enforce_token_limit result_json "list_tables_in_directory"
            | Raise e => Raise e
            end).
  { unfold list_tables_in_directory.ListTablesInDirectoryPlugin.
    rewrite (path_exists_true _ _ He), (path_is_dir_true _ _ Hd).
    fold cwd files. pose proof (list_files_entries w cwd files [] s) as H.
    destruct (list_tables_in_directory.list_files w cwd files [] s) as [files_info s'].
    cbn [fst] in H. rewrite app_nil_l in H. subst files_info.
    by destruct (Json.dumps _). }
  split; [by rewrite length_map|]. split; [|split; [exact Hcall|]].
  - intros i file Hf. eexists. split; [by rewrite list_lookup_fmap, Hf|].
    apply list_one_outcomes.
  - intros Hint. apply bigint_integer_counts in Hint.
    pose proof (list_files_plain w cwd files s Hint) as Hplain.
    destruct (loads_dumps _ Hplain) as (result_json & Hdumps & _).
    exists result_json. split; [exact Hdumps|].
    rewrite Hcall, Hdumps. unfold list_tables_in_directory._enforce_token_limit.
    rewrite <- estimate_is_ceiling. split.
    + apply enforce_within.
    + intros Hover Hlen.
      destruct (enforce_rows_over token_budget.warning _ _ "list_tables_in_directory"
                  Hplain Hdumps Hover Hlen) as (k & Hk & Hrep).
      rewrite length_map in Hrep.
      destruct (dumps_warning "list_tables_in_directory"
                  (token_budget._estimate_token_count result_json)
                  (Some (Z.of_nat (length files))) (Some k)) as [out Hout].
      exists k, out. split; [exact Hk|]. split; [by rewrite Hrep|exact Hout].
Qed.

(** The directory data: a good file, a text file and a corrupt file.  The
    call returns the encoding of two entries, the corrupt file with the
    text of the engine and no count. *)
Lemma C9_witness :
  let returned := (list_tables_in_directory.ListTablesInDirectoryPlugin demo_world "data" no_conns).1 in
  (exists good bad,
     counted_entry good (PInt 3) 2 /\
     field "filename" bad = Some (PStr "bad.parquet") /\
     failed_entry bad "Invalid Input Error: No magic bytes found at end of file 'data/bad.parquet'" /\
     returned =
       match Json.dumps (PList [good; bad]) with
       | Ok result_json =>
           list_tables_in_directory._enforce_token_limit result_json "list_tables_in_directory"
       | Raise e => Raise e
       end) /\
  returned =
    Json.dumps
      (PList [ PDict [ ("filename", PStr "good.parquet"); ("path", PStr "data/good.parquet");
                       ("row_count", PInt 3); ("column_count", PInt 2) ];
               PDict [ ("filename", PStr "bad.parquet"); ("path", PStr "data/bad.parquet");
                       ("error", PStr "Invalid Input Error: No magic bytes found at end of file 'data/bad.parquet'") ] ]).
Proof.
  cbv zeta. split; [|vm_compute; reflexivity].
  destruct (C9_listing_entries demo_world "data" no_conns eq_refl eq_refl)
    as (files_info & Hlen & Hentries & Hres & _).
  destruct files_info as [|good [|bad [|]]]; try discriminate Hlen.
  destruct (Hentries 0%nat _ eq_refl) as (e0 & [= <-] & _ & _ & _ & H0).
  destruct (Hentries 1%nat _ eq_refl) as (e1 & [= <-] & Hname & _ & H1 & _).
  destruct (H0 _ eq_refl) as (_ & _ & H0').
  destruct (H0' (PInt 3) [] [] eq_refl) as [_ Hgood]. specialize (Hgood _ eq_refl).
  specialize (H1 _ eq_refl).
  exists good, bad. split; [exact Hgood|]. split; [exact Hname|]. split; [exact H1|exact Hres].
Defined.

(** C10.  On an existing directory without any entry whose name ends in
    .parquet, the plugin raises nothing, opens no connection and returns the
    two characters of the empty array, which budget enforcement lets
    through. *)
Theorem C10_empty_listing (w : World) (directory : string) (s : Conns) :
  fs_exists w (pathlib.str (pathlib.of_str directory)) = true ->
  fs_is_dir w (pathlib.str (pathlib.of_str directory)) = true ->
  filter (fun entry => pathlib.endswith entry ".parquet" = true)
         (fs_scandir w (pathlib.str (pathlib.of_str directory))) = [] ->
  list_tables_in_directory.ListTablesInDirectoryPlugin w directory s = (Ok "[]", s) /\
  Json.dumps (PList []) = Ok "[]" /\
  list_tables_in_directory._enforce_token_limit "[]" "list_tables_in_directory" = Ok "[]".
Proof.
  intros He Hd Hnone. split; [|split; reflexivity].
  unfold list_tables_in_directory.ListTablesInDirectoryPlugin, list_tables_in_directory.glob_parquet.
  rewrite (path_exists_true _ _ He), (path_is_dir_true _ _ Hd), Hnone. reflexivity.
Qed.

Lemma C10_witness :
  list_tables_in_directory.ListTablesInDirectoryPlugin demo_world "empty" no_conns
    = (Ok "[]", no_conns).
Proof. apply (C10_empty_listing demo_world "empty" no_conns); reflexivity. Defined.

(** C3, as the code has it.  query_parquet_files and get_schema close the
    connection they open on every path.  list_tables_in_directory closes
    the connection of a file only when the probe of that file succeeds: as
    many connections stay open as there are files whose probe fails. *)
Theorem C3_connections (w : World) (s : Conns) :
  conns_ok s ->
  (forall parquet_files query limit,
     open_ids (parquet_tools.QueryParquetFilesPlugin w parquet_files query limit s).2 = open_ids s) /\
  (forall parquet_file,
     open_ids (get_schema.GetSchemaPlugin w parquet_file s).2 = open_ids s) /\
  (forall directory,
     fs_exists w (pathlib.str (pathlib.of_str directory)) = true ->
     fs_is_dir w (pathlib.str (pathlib.of_str directory)) = true ->
     let s' := (list_tables_in_directory.ListTablesInDirectoryPlugin w directory s).2 in
     let failing := failing_files w (pathlib.of_str (getcwd w))
                      (list_tables_in_directory.glob_parquet w (pathlib.of_str directory)) in
     open_ids s ⊆ open_ids s' /\
     size (open_ids s') = (size (open_ids s) + length failing)%nat).
Proof.
  intros Hok. assert (Hfresh : next_id s ∉ open_ids s) by (intros ?%Hok; lia).
  split; [|split].
  - intros pf query limit. unfold parquet_tools.QueryParquetFilesPlugin.
    destruct (parquet_tools._validate_parquet_files w pf); [|done].
    cbn [connect]. destruct (parquet_tools.query_body _ _ _ _) as [T r].
    cbn [snd close open_ids]. set_solver.
  - intros f. unfold get_schema.GetSchemaPlugin.
    destruct (path_exists w _) as [[|]|]; [|done|done]. cbn [connect snd close open_ids]. set_solver.
  - intros directory He Hd. cbv zeta.
    unfold list_tables_in_directory.ListTablesInDirectoryPlugin.
    rewrite (path_exists_true _ _ He), (path_is_dir_true _ _ Hd).
    pose proof (list_files_conns w (pathlib.of_str (getcwd w))
                  (list_tables_in_directory.glob_parquet w (pathlib.of_str directory)) [] s Hok) as H.
    cbv zeta in H.
    destruct (list_tables_in_directory.list_files _ _ _ _ _) as [files_info s'].
    cbn [snd] in H. destruct H as (_ & Hsub & Hsize).
    by destruct (Json.dumps _).
Qed.

(** The listing of data leaves the connection of the corrupt file open. *)
Lemma C3_witness :
  size (open_ids (list_tables_in_directory.ListTablesInDirectoryPlugin demo_world "data" no_conns).2)
    = 1%nat.
Proof.
  assert (Hok : conns_ok no_conns) by (intros i Hi; by apply elem_of_empty in Hi).
  destruct (C3_connections demo_world no_conns Hok) as (_ & _ & H).
  destruct (H "data" eq_refl eq_refl) as [_ Hsize].
  rewrite Hsize. vm_compute. reflexivity.
Defined.

(** * Further properties of the code *)

Section FlatRows.

Lemma flat_rows_plain rows : flat_rows rows = true -> plain (PList rows) = true.
Proof.
  unfold flat_rows. cbn [plain]. intros H. apply forallb_forall. intros row Hrow.
  rewrite forallb_forall in H. specialize (H row Hrow).
  destruct row as [| | | | | | | | | |d]; try discriminate H. cbn [plain flat_row] in *.
  apply forallb_forall. intros kv Hkv. rewrite forallb_forall in H. specialize (H kv Hkv).
  destruct (snd kv); try discriminate H; reflexivity.
Qed.

End FlatRows.

(** X1.  When the encoding of a list of flat rows (dicts of None, booleans,
    integers and strings, as a query over such columns yields them) is over
    budget, the report counts the rows: rows_returned is the length of the
    list, and suggested_limit is a positive integer, never null. *)
Theorem X1_rows_returned (rows : list pyval) (payload context : string) :
  flat_rows rows = true ->
  Json.dumps (PList rows) = Ok payload ->
  5000 < token_budget._estimate_token_count payload ->
  len payload < 2 ^ 53 ->
  exists k out,
    1 <= k /\
    parquet_tools._enforce_token_limit payload context = Ok out /\
    let report := parquet_tools.warning context (token_budget._estimate_token_count payload)
                    (Some (Z.of_nat (length rows))) (Some k) in
    Json.dumps report = Ok out /\
    field "rows_returned" report = Some (PInt (Z.of_nat (length rows))) /\
    field "suggested_limit" report = Some (PInt k).
Proof.
  intros Hp%flat_rows_plain Hd Hover Hlen.
  destruct (enforce_rows_over parquet_tools.warning rows payload context Hp Hd Hover Hlen)
    as (k & Hk & Hrep).
  destruct (dumps_warning_suggestion context (token_budget._estimate_token_count payload)
              (Some (Z.of_nat (length rows))) (Some k)) as [out Hout].
  exists k, out. split; [exact Hk|]. unfold parquet_tools._enforce_token_limit.
  split; [by rewrite Hrep|]. cbv zeta. split; [exact Hout|]. split; reflexivity.
Qed.

Lemma X1_witness :
  exists k out,
    1 <= k /\
    parquet_tools._enforce_token_limit (text_of (Json.dumps (PList many_rows))) "query_parquet_files"
      = Ok out /\
    field "rows_returned"
      (parquet_tools.warning "query_parquet_files"
         (token_budget._estimate_token_count (text_of (Json.dumps (PList many_rows))))
         (Some 400) (Some k)) = Some (PInt 400).
Proof.
  destruct (X1_rows_returned many_rows (text_of (Json.dumps (PList many_rows))) "query_parquet_files")
    as (k & out & Hk & Hout & _ & Hrows & _);
    [vm_compute; reflexivity | vm_compute; reflexivity | vm_compute; reflexivity
    | vm_compute; reflexivity |].
  exists k, out. split; [exact Hk|]. split; [exact Hout|]. exact Hrows.
Defined.

(** ** The enforcer's output is within budget *)

Section Lengths.
Import token_budget.
Local Open Scope nat_scope.

Lemma pretty_N_go_length k : forall x s,
  (x < 10 ^ N.of_nat k)%N -> String.length (pretty_N_go x s) <= k + String.length s.
Proof.
  induction k as [|k IH]; intros x s Hx.
  - assert (x = 0%N) as -> by (cbn in Hx; lia). by rewrite pretty_N_go_0.
  - destruct (decide (x = 0%N)) as [->|Hne]; [rewrite pretty_N_go_0; lia|].
    rewrite pretty_N_go_step by lia.
    etrans; [apply IH|cbn [String.length]; lia].
    rewrite Nat2N.inj_succ, N.pow_succ_r' in Hx.
    apply N.Div0.div_lt_upper_bound. lia.
Qed.

Lemma pretty_Z_length (z : Z) k :
  (Z.abs z < 10 ^ Z.of_nat k)%Z -> String.length (pretty z) <= S (S k).
Proof.
  intros Hz.
  assert (Hp : forall p, (Z.pos p < 10 ^ Z.of_nat k)%Z ->
                 String.length (pretty_N_go (N.pos p) EmptyString) <= k).
  { intros p Hlt. etrans; [apply (pretty_N_go_length k)|cbn [String.length]; lia].
    apply N2Z.inj_lt. rewrite N2Z.inj_pow, nat_N_Z. done. }
  destruct z as [|p|p].
  - change (pretty 0%Z) with "0". cbn [String.length]. lia.
  - change (pretty (Z.pos p)) with (pretty_N_go (N.pos p) EmptyString).
    specialize (Hp p Hz). lia.
  - change (pretty (Z.neg p)) with ("-" +:+ pretty_N_go (N.pos p) EmptyString).
    rewrite str_length_app. cbn [String.length]. specialize (Hp p Hz). lia.
Qed.

Lemma escape_length s : String.length (Json.escape s) <= 6 * String.length s.
Proof.
  induction s as [|c s IH]; cbn [Json.escape String.length]; [lia|].
  rewrite str_length_app.
  assert (String.length (Json.escape_char c) <= 6)
    by (destruct c as [[] [] [] [] [] [] [] []]; vm_compute; lia).
  lia.
Qed.

End Lengths.

Section ReportLength.
Import token_budget.
Local Open Scope nat_scope.

Lemma opt_int_length o k level out :
  (forall n, o = Some n -> (Z.abs n < 10 ^ Z.of_nat k)%Z) ->
  Json.encode level (opt_int o) = Ok out -> String.length out <= k + 4.
Proof.
  intros Ho. destruct o as [n|]; cbn [opt_int Json.encode]; intros [= <-].
  - pose proof (pretty_Z_length n k (Ho n eq_refl)). lia.
  - cbn [String.length]. lia.
Qed.

(** The lengths of the closed pieces of a text are computed, the others
    stay. *)
Ltac closed_lengths :=
  rewrite ?str_length_app;
  repeat match goal with
         | |- context [String.length ?s] =>
             tryif is_var s then fail
             else (let n := eval vm_compute in (String.length s) in
                   change (String.length s) with n)
         end.

Lemma warning_length context est cs sl k out :
  (Z.abs est < 10 ^ Z.of_nat k)%Z ->
  (forall n, cs = Some n -> (Z.abs n < 10 ^ Z.of_nat k)%Z) ->
  (forall n, sl = Some n -> (Z.abs n < 10 ^ Z.of_nat k)%Z) ->
  Json.dumps (warning context est cs sl) = Ok out ->
  String.length out <= 200 + 6 * String.length context + 3 * k.
Proof.
  intros He Hc Hs. unfold Json.dumps, warning. cbn [Json.encode mapM].
  destruct (Json.encode 1 (opt_int cs)) as [tc|] eqn:Ec; [|done].
  destruct (Json.encode 1 (opt_int sl)) as [ts|] eqn:Es; [|done].
  intros [= <-].
  pose proof (opt_int_length _ _ _ _ Hc Ec) as H1. pose proof (opt_int_length _ _ _ _ Hs Es) as H2.
  pose proof (pretty_Z_length est k He) as H3. pose proof (escape_length context) as H4.
  cbn [join]. unfold Json.encode_string. clear Ec Es.
  revert H1 H2 H3 H4. generalize (Json.escape context) (pretty est). intros a b H1 H2 H3 H4.
  closed_lengths. lia.
Qed.

Lemma suggestion_length sl k :
  (forall n, sl = Some n -> (Z.abs n < 10 ^ Z.of_nat k)%Z) ->
  String.length (join NL (parquet_tools.suggestion_parts sl)) <= 320 + k.
Proof.
  intros Hs. unfold parquet_tools.suggestion_parts. cbn [join].
  destruct sl as [l|]; [|closed_lengths; lia].
  pose proof (pretty_Z_length l k (Hs l eq_refl)) as Hl.
  destruct (l =? 0)%Z; [closed_lengths; lia|].
  revert Hl. generalize (pretty l). intros c Hl. closed_lengths. lia.
Qed.

Lemma warning_suggestion_length context est cs sl k out :
  (Z.abs est < 10 ^ Z.of_nat k)%Z ->
  (forall n, cs = Some n -> (Z.abs n < 10 ^ Z.of_nat k)%Z) ->
  (forall n, sl = Some n -> (Z.abs n < 10 ^ Z.of_nat k)%Z) ->
  Json.dumps (parquet_tools.warning context est cs sl) = Ok out ->
  String.length out <= 2200 + 6 * String.length context + 9 * k.
Proof.
  intros He Hc Hs. unfold Json.dumps, parquet_tools.warning.
  pose proof (suggestion_length sl k Hs) as H6.
  pose proof (escape_length (join NL (parquet_tools.suggestion_parts sl))) as H5.
  revert H5 H6. generalize (join NL (parquet_tools.suggestion_parts sl)). intros sg H5 H6.
  cbn [Json.encode mapM].
  destruct (Json.encode 1 (opt_int cs)) as [tc|] eqn:Ec; [|done].
  destruct (Json.encode 1 (opt_int sl)) as [ts|] eqn:Es; [|done].
  intros [= <-].
  pose proof (opt_int_length _ _ _ _ Hc Ec) as H1. pose proof (opt_int_length _ _ _ _ Hs Es) as H2.
  pose proof (pretty_Z_length est k He) as H3. pose proof (escape_length context) as H4.
  cbn [join]. unfold Json.encode_string. clear Ec Es.
  revert H1 H2 H3 H4 H5.
  generalize (Json.escape sg) (Json.escape context) (pretty est).
  intros a b c H1 H2 H3 H4 H5.
  closed_lengths. lia.
Qed.

End ReportLength.

Section Idempotence.
Import token_budget.

(** Below 2^53 the scaled size is a finite number below 2^111. *)
Lemma scaled_size_bounded token_estimate current_size :
  0 < current_size < 2 ^ 53 -> 5000 < token_estimate < 2 ^ 53 ->
  exists t, Float.to_int (scaled_size token_estimate current_size) = Ok t /\ Z.abs t < 2 ^ 111.
Proof.
  intros Hn He. unfold scaled_size, Float.int_div.
  change Float.prec with 53. change Float.emax with 1024. change TOKEN_LIMIT with 5000.
  pose proof (of_int_normal current_size Hn) as Ha.
  pose proof (of_int_normal 5000 ltac:(lia)) as H5.
  pose proof (of_int_normal token_estimate ltac:(lia)) as Hb.
  pose proof (div_normal _ _ _ _ _ _ H5 Hb ltac:(lia) ltac:(lia)) as Hr.
  pose proof (mul_normal _ _ _ _ _ _ Ha Hr ltac:(lia) ltac:(lia)) as Hp1.
  assert (H08 : normal Float.lit_0_8 (-53) (-53)) by (cbn; lia).
  pose proof (mul_normal _ _ _ _ _ _ Hp1 H08 ltac:(lia) ltac:(lia)) as Hp2.
  destruct (Float.mul _ Float.lit_0_8) as [| | |s m e]; try done.
  cbn [normal] in Hp2. destruct Hp2 as [Hm Hexp].
  cbn [Float.to_int]. eexists. split; [reflexivity|].
  assert (Ha' : 0 <= match e with
                     | 0 => Z.pos m
                     | Z.pos p => Z.pos m * 2 ^ Z.pos p
                     | Z.neg p => Z.pos m `div` 2 ^ Z.pos p
                     end < 2 ^ 111).
  { destruct e as [|p|p].
    - split; [lia|]. assert (2 ^ 53 < 2 ^ 111) by (by apply Z.pow_lt_mono_r). lia.
    - assert (0 < 2 ^ Z.pos p) by (apply Z.pow_pos_nonneg; lia).
      assert (2 ^ Z.pos p <= 2 ^ 58) by (apply Z.pow_le_mono_r; lia).
      change (2 ^ 111) with (2 ^ 53 * 2 ^ 58). split; [lia|].
      assert (Z.pos m * 2 ^ Z.pos p <= Z.pos m * 2 ^ 58) by (apply Z.mul_le_mono_nonneg_l; lia).
      assert (Z.pos m * 2 ^ 58 < 2 ^ 53 * 2 ^ 58) by (apply Z.mul_lt_mono_pos_r; lia).
      lia.
    - assert (0 < 2 ^ Z.pos p) by (apply Z.pow_pos_nonneg; lia).
      split; [apply Z.div_pos; lia|].
      assert (Z.pos m `div` 2 ^ Z.pos p <= Z.pos m) by (apply Z.div_le_upper_bound; nia).
      assert (2 ^ 53 < 2 ^ 111) by (by apply Z.pow_lt_mono_r). lia. }
  destruct s; lia.
Qed.

(** What the enforcer puts into a report is below 10^34. *)
Lemma enforce_over_report warning payload context out :
  TOKEN_LIMIT < _estimate_token_count payload -> len payload < 2 ^ 53 ->
  enforce_with warning payload context = Ok out ->
  exists cs sl,
    Json.dumps (warning context (_estimate_token_count payload) cs sl) = Ok out /\
    Z.abs (_estimate_token_count payload) < 10 ^ Z.of_nat 34 /\
    (forall n, cs = Some n -> Z.abs n < 10 ^ Z.of_nat 34) /\
    (forall n, sl = Some n -> Z.abs n < 10 ^ Z.of_nat 34).
Proof.
  intros Hover Hlen. rewrite (enforce_over _ _ _ Hover).
  pose proof (estimate_le_len payload) as Hest. unfold TOKEN_LIMIT in Hover.
  assert (H53 : 2 ^ 53 < 10 ^ Z.of_nat 34) by (by vm_compute).
  assert (H111 : 2 ^ 111 < 10 ^ Z.of_nat 34) by (by vm_compute).
  unfold current_size_of. destruct (startswith payload "[") eqn:Hs.
  - destruct (Json.loads payload) as [v|e] eqn:Hl; [|done].
    destruct (loads_bracket_array _ _ Hs Hl) as [items ->].
    pose proof (loads_array_count _ _ Hl) as Hcount. cbn [Json.py_len].
    unfold suggested_limit_of. unfold len in *.
    destruct (Z.eqb_spec (Z.of_nat (length items)) 0) as [H0|Hn].
    + intros Hout. exists (Some (Z.of_nat (length items))), None.
      split; [exact Hout|]. split; [lia|]. split; [intros n [= <-]; lia|intros n [=]].
    + destruct (scaled_size_bounded (_estimate_token_count payload) (Z.of_nat (length items)))
        as (t & -> & Ht); [lia | lia |].
      intros Hout. exists (Some (Z.of_nat (length items))), (Some (Z.max 1 t)).
      split; [exact Hout|]. split; [lia|]. split; intros n [= <-]; lia.
  - cbn [suggested_limit_of]. intros Hout. exists None, None.
    split; [exact Hout|]. split; [lia|]. split; intros n [=].
Qed.

Lemma estimate_of_short out : len out <= 15000 -> _estimate_token_count out <= TOKEN_LIMIT.
Proof.
  intros H. unfold _estimate_token_count, TOKEN_LIMIT, len in *.
  apply Z.lt_succ_r, Z.div_lt_upper_bound; lia.
Qed.

Lemma enforce_output_within warning payload context out :
  (forall est cs sl text,
     Z.abs est < 10 ^ Z.of_nat 34 ->
     (forall n, cs = Some n -> Z.abs n < 10 ^ Z.of_nat 34) ->
     (forall n, sl = Some n -> Z.abs n < 10 ^ Z.of_nat 34) ->
     Json.dumps (warning context est cs sl) = Ok text -> len text <= 15000) ->
  len payload < 2 ^ 53 ->
  enforce_with warning payload context = Ok out ->
  _estimate_token_count out <= TOKEN_LIMIT.
Proof.
  intros Hw Hlen Hout.
  destruct (Z.le_gt_cases (_estimate_token_count payload) TOKEN_LIMIT) as [Hin|Hover].
  - rewrite enforce_within in Hout by done. by injection Hout as <-.
  - destruct (enforce_over_report _ _ _ _ Hover Hlen Hout) as (cs & sl & Hd & H1 & H2 & H3).
    apply estimate_of_short. exact (Hw _ _ _ _ H1 H2 H3 Hd).
Qed.

End Idempotence.

(** X2.  Whatever the enforcer returns is within the budget: the payload
    itself, or a report that is short, the context being one of the plugin
    names (at most 2000 characters here).  So enforcing twice changes
    nothing. *)
Theorem X2_output_within_budget (payload context out : string) :
  len payload < 2 ^ 53 ->
  len context <= 2000 ->
  (parquet_tools._enforce_token_limit payload context = Ok out ->
     token_budget._estimate_token_count out <= 5000 /\
     forall context', parquet_tools._enforce_token_limit out context' = Ok out) /\
  (get_schema._enforce_token_limit payload context = Ok out ->
     token_budget._estimate_token_count out <= 5000 /\
     forall context', get_schema._enforce_token_limit out context' = Ok out) /\
  (list_tables_in_directory._enforce_token_limit payload context = Ok out ->
     token_budget._estimate_token_count out <= 5000 /\
     forall context', list_tables_in_directory._enforce_token_limit out context' = Ok out).
Proof.
  intros Hlen Hctx. unfold len in Hctx.
  assert (H1 : forall est cs sl text,
     Z.abs est < 10 ^ Z.of_nat 34 ->
     (forall n, cs = Some n -> Z.abs n < 10 ^ Z.of_nat 34) ->
     (forall n, sl = Some n -> Z.abs n < 10 ^ Z.of_nat 34) ->
     Json.dumps (parquet_tools.warning context est cs sl) = Ok text ->
     len text <= 15000).
  { intros est cs sl text He Hc Hs Hd.
    pose proof (warning_suggestion_length _ _ _ _ _ _ He Hc Hs Hd). unfold len. lia. }
  assert (H2 : forall est cs sl text,
     Z.abs est < 10 ^ Z.of_nat 34 ->
     (forall n, cs = Some n -> Z.abs n < 10 ^ Z.of_nat 34) ->
     (forall n, sl = Some n -> Z.abs n < 10 ^ Z.of_nat 34) ->
     Json.dumps (token_budget.warning context est cs sl) = Ok text ->
     len text <= 15000).
  { intros est cs sl text He Hc Hs Hd.
    pose proof (warning_length _ _ _ _ _ _ He Hc Hs Hd). unfold len. lia. }
  unfold parquet_tools._enforce_token_limit, get_schema._enforce_token_limit,
    list_tables_in_directory._enforce_token_limit.
  split; [|split]; intros Hout.
  - pose proof (enforce_output_within _ _ _ _ H1 Hlen Hout) as Hest.
    split; [exact Hest|]. intros context'. by apply enforce_within.
  - pose proof (enforce_output_within _ _ _ _ H2 Hlen Hout) as Hest.
    split; [exact Hest|]. intros context'. by apply enforce_within.
  - pose proof (enforce_output_within _ _ _ _ H2 Hlen Hout) as Hest.
    split; [exact Hest|]. intros context'. by apply enforce_within.
Qed.

Lemma X2_witness :
  token_budget._estimate_token_count
    (text_of (parquet_tools._enforce_token_limit long_object "get_schema")) <= 5000.
Proof.
  destruct (X2_output_within_budget long_object "get_schema"
              (text_of (parquet_tools._enforce_token_limit long_object "get_schema")))
    as (H & _ & _); [by vm_compute | by vm_compute |].
  apply H. vm_compute. reflexivity.
Defined.

(** ** query_parquet_files: validation, limit, names, paths *)

Section MoreQuery.
Import parquet_tools.

Lemma missing_false w f :
  missing w f = false -> path_exists w (pathlib.of_str f) = Ok true.
Proof. intros H%negb_false_iff. by apply path_exists_true. Qed.

Lemma validate_loop_all w files :
  Forall (fun f => missing w f = false) files -> validate_loop w files = None.
Proof.
  induction 1 as [|f files Hf _ IH]; cbn [validate_loop]; [done|].
  by rewrite (missing_false _ _ Hf).
Qed.

(** The loop ends at the first file whose test does not succeed. *)
Lemma validate_loop_first w files : forall i f,
  files !! i = Some f -> missing w f = true ->
  (forall j g, (j < i)%nat -> files !! j = Some g -> missing w g = false) ->
  validate_loop w files = validate_loop w [f].
Proof.
  induction files as [|g files IH]; intros [|i] f Hi Hf Hbefore; try done.
  - injection Hi as ->. cbn [validate_loop]. revert Hf. unfold missing, path_exists, fs_exists.
    by destruct (fs_stat w _).
  - cbn [validate_loop]. rewrite (missing_false w g) by (apply (Hbefore 0%nat); [lia|done]).
    apply (IH i f Hi Hf). intros j h Hj Hh. apply (Hbefore (S j)); [lia|done].
Qed.

(** What validation raises: the FileNotFoundError of a file that is not
    there, or the OSError of an existence test. *)
Lemma validate_loop_raises w files e :
  validate_loop w files = Some e ->
  is_file_not_found e = true \/ exists text, e = OSError text.
Proof.
  induction files as [|f files IH]; cbn [validate_loop]; [done|].
  unfold path_exists, fs_exists. destruct (fs_stat w _).
  - intros [= <-]. by left.
  - apply IH.
  - apply IH.
  - intros [= <-]. right. eauto.
Qed.

Lemma unique_table_name_free base_name (T : gset string) :
  base_name ∉ T -> unique_table_name base_name T = base_name.
Proof.
  intros H. unfold unique_table_name.
  destruct (size T); cbn [next_free_name]; by destruct (decide (base_name ∈ T)).
Qed.


Lemma apply_limit_negative limit (l : list pyval) :
  limit < 0 -> apply_limit limit l = take (Z.to_nat (Z.of_nat (length l) + limit)) l.
Proof.
  intros H. unfold apply_limit, slice_to.
  destruct (Z.ltb_spec limit (Z.of_nat (length l))); [|lia].
  by destruct (Z.ltb_spec limit 0); [|lia].
Qed.

Lemma apply_limit_map (f : pyval -> pyval) limit l :
  apply_limit limit (map f l) = map f (apply_limit limit l).
Proof.
  unfold apply_limit, slice_to. rewrite length_map.
  destruct (limit <? Z.of_nat (length l))%Z; [|done].
  destruct (limit <? 0)%Z; symmetry; apply fmap_take.
Qed.

End MoreQuery.

(** X3.  Validation walks the files in order.  When every file exists the
    list comes back as it is (a single path as a list of one).  Otherwise
    the first file whose existence test does not succeed ends the call,
    before any connection is opened: when nothing is found at the path,
    query_parquet_files raises FileNotFoundError with the path as the
    caller wrote it; when the test itself fails (a name that is too long, a
    directory that may not be read), its OSError comes out as it is. *)
Theorem X3_missing_file (w : World) (parquet_files : files_arg) (query : string) (limit : Z)
    (s : Conns) :
  let files := files_of parquet_files in
  (Forall (fun f => missing w f = false) files ->
     parquet_tools._validate_parquet_files w parquet_files = Ok files) /\
  (forall i f,
     files !! i = Some f ->
     (forall j g, (j < i)%nat -> files !! j = Some g -> missing w g = false) ->
     (fs_stat w (pathlib.str (pathlib.of_str f)) = NoEntry ->
        parquet_tools.QueryParquetFilesPlugin w parquet_files query limit s =
          (Raise (FileNotFoundError
                    ("Parquet file not found: " +:+ f +:+ NL
                     +:+ "Please check the file path and ensure the file exists. "
                     +:+ "You may use 'list_tables_in_directory' to discover available parquet files.")),
           s)) /\
     (forall text,
        fs_stat w (pathlib.str (pathlib.of_str f)) = StatError text ->
        parquet_tools.QueryParquetFilesPlugin w parquet_files query limit s
          = (Raise (OSError text), s))).
Proof.
  cbv zeta. unfold parquet_tools.QueryParquetFilesPlugin, parquet_tools._validate_parquet_files.
  fold (files_of parquet_files). split.
  - intros Hall. by rewrite validate_loop_all.
  - intros i f Hi Hbefore.
    split; [intros Hst | intros text Hst];
      (rewrite (validate_loop_first _ _ i f Hi); [|unfold missing, fs_exists; by rewrite Hst|done]);
      cbn [parquet_tools.validate_loop]; unfold path_exists, fs_exists; by rewrite Hst.
Qed.

(** The second of three files is missing: it is the one named.  A file
    whose name is too long for the file system ends the call with the
    error of the test. *)
Lemma X3_witness :
  (exists msg,
     parquet_tools.QueryParquetFilesPlugin demo_world
       (FileList ["sales.parquet"; "nope.parquet"; "gone.parquet"]) "SELECT 1" 10 no_conns
       = (Raise (FileNotFoundError msg), no_conns) /\
     startswith msg "Parquet file not found: nope.parquet" = true) /\
  parquet_tools.QueryParquetFilesPlugin guarded_world
    (FileList ["sales.parquet"; "locked/x.parquet"]) "SELECT 1" 10 no_conns
    = (Raise (OSError "[Errno 13] Permission denied: 'locked/x.parquet'"), no_conns).
Proof.
  split.
  - destruct (X3_missing_file demo_world (FileList ["sales.parquet"; "nope.parquet"; "gone.parquet"])
                "SELECT 1" 10 no_conns) as [_ H].
    eexists. split.
    + apply (H 1%nat "nope.parquet"); [reflexivity | | reflexivity].
      intros [|j] g Hj; [intros [= <-]; reflexivity | lia].
    + reflexivity.
  - destruct (X3_missing_file guarded_world (FileList ["sales.parquet"; "locked/x.parquet"])
                "SELECT 1" 10 no_conns) as [_ H].
    apply (H 1%nat "locked/x.parquet"); [reflexivity | | reflexivity].
    intros [|j] g Hj; [intros [= <-]; reflexivity | lia].
Defined.

(** X4.  With a negative limit the slice counts from the end: of n rows the
    first max(0, n + limit) are handed on, so the last rows are dropped and
    a limit of -n or below hands on none. *)
Theorem X4_negative_limit (w : World) (parquet_files : files_arg) (query : string) (limit : Z)
    (s : Conns) (out : string) :
  limit < 0 ->
  (parquet_tools.QueryParquetFilesPlugin w parquet_files query limit s).1 = Ok out ->
  exists history rs result_json,
    engine w history query = Returns rs /\
    let n := Z.of_nat (length (rs_rows rs)) in
    let handed := take (Z.to_nat (n + limit))
                       (map parquet_tools._serialize_datetime (parquet_tools.rows_as_dicts rs)) in
    Z.of_nat (length handed) = Z.max 0 (n + limit) /\
    Json.dumps (PList handed) = Ok result_json /\
    parquet_tools._enforce_token_limit result_json "query_parquet_files" = Ok out.
Proof.
  intros Hlimit (files & history & rs & result_json & _ & He & Hd & Hout)%query_success.
  exists history, rs, result_json. split; [done|]. cbv zeta.
  rewrite apply_limit_negative in Hd by done.
  rewrite length_map in Hd. unfold parquet_tools.rows_as_dicts in Hd at 1. rewrite length_map in Hd.
  split; [|done].
  rewrite length_take, length_map. unfold parquet_tools.rows_as_dicts. rewrite length_map. lia.
Qed.

Lemma X4_witness :
  exists history rs result_json,
    engine demo_world history "SELECT * FROM sales" = Returns rs /\
    let n := Z.of_nat (length (rs_rows rs)) in
    let handed := take (Z.to_nat (n + -2))
                       (map parquet_tools._serialize_datetime (parquet_tools.rows_as_dicts rs)) in
    Z.of_nat (length handed) = Z.max 0 (n + -2) /\
    Json.dumps (PList handed) = Ok result_json /\
    parquet_tools._enforce_token_limit result_json "query_parquet_files"
      = Ok (text_of (parquet_tools.QueryParquetFilesPlugin demo_world (OneFile "sales.parquet")
                       "SELECT * FROM sales" (-2) no_conns).1).
Proof.
  apply (X4_negative_limit demo_world (OneFile "sales.parquet") "SELECT * FROM sales" (-2) no_conns);
    [lia | vm_compute; reflexivity].
Defined.



(** X6.  The path normalization is idempotent: normalizing a path that has
    been normalized against the same working directory changes nothing. *)
Theorem X6_relative_path_idempotent (cwd P : string) :
  let c := pathlib.of_str cwd in
  relative_path c (relative_path c P) = relative_path c P.
Proof.
  cbv zeta. unfold relative_path at 2.
  destruct (pathlib.is_absolute (pathlib.of_str P)) eqn:Habs.
  - destruct (pathlib.relative_to (pathlib.of_str P) (pathlib.of_str cwd)) as [r|e] eqn:Hrel.
    + assert (Hr : r = {| pathlib.root := EmptyString;
                          pathlib.parts := drop (length (pathlib.parts (pathlib.of_str cwd)))
                                                (pathlib.parts (pathlib.of_str P)) |}).
      { revert Hrel. unfold pathlib.relative_to. destruct (andb _ _); [by intros [= <-]|done]. }
      assert (Hwf : wf_path r).
      { subst r. destruct (of_str_wf P) as [_ HP]. split; [by left|].
        cbn [pathlib.parts]. by apply Forall_drop. }
      unfold relative_path. rewrite (of_str_str _ Hwf), Habs, Hrel. by subst r.
    + unfold relative_path. rewrite (of_str_str _ (of_str_wf P)). by rewrite Habs, Hrel.
  - unfold relative_path. by rewrite Habs.
Qed.

(** X7.  The serializer is idempotent, and it commutes with the row limit:
    cutting the serialized rows gives the rows the serializer makes of the
    cut ones. *)
Theorem X7_serialize_composes (v : pyval) (rows : list pyval) (limit : Z) :
  parquet_tools._serialize_datetime (parquet_tools._serialize_datetime v)
    = parquet_tools._serialize_datetime v /\
  parquet_tools.apply_limit limit (map parquet_tools._serialize_datetime rows)
    = map parquet_tools._serialize_datetime (parquet_tools.apply_limit limit rows).
Proof.
  split; [|apply apply_limit_map].
  apply serialize_without_timestamp, serialize_no_timestamp_left.
Qed.

(** ** query_parquet_files: what it raises *)

Section QueryFailures.
Import parquet_tools.

(** The enforcer raises no FileNotFoundError. *)
Lemma enforce_raises warning payload context e :
  (forall est cs sl, exists out, Json.dumps (warning context est cs sl) = Ok out) ->
  token_budget.enforce_with warning payload context = Raise e -> is_file_not_found e = false.
Proof.
  intros Hw. unfold token_budget.enforce_with.
  destruct (_ <=? _)%Z; [done|].
  unfold token_budget.current_size_of. destruct (startswith payload "[").
  - unfold Json.loads.
    destruct (Json.scan_once _ _) as [[v r]|]; [|by intros [= <-]].
    destruct (Json.skip_ws r); [|by intros [= <-]].
    destruct v; cbn [Json.py_len]; try (by intros [= <-]).
    + unfold token_budget.suggested_limit_of. destruct (_ =? 0)%Z.
      * intros H. destruct (Hw (token_budget._estimate_token_count payload) (Some (len body)) None)
          as [out Hout]. congruence.
      * destruct (token_budget.scaled_size _ _); cbn [Float.to_int]; try (by intros [= <-]).
        -- intros H.
           destruct (Hw (token_budget._estimate_token_count payload) (Some (len body)) (Some (Z.max 1 0)))
             as [out Hout]. congruence.
        -- intros H. match type of H with Json.dumps (warning _ ?a ?b ?c) = _ =>
             destruct (Hw a b c) as [out Hout] end. congruence.
    + unfold token_budget.suggested_limit_of. destruct (_ =? 0)%Z.
      * intros H. match type of H with Json.dumps (warning _ ?a ?b ?c) = _ =>
             destruct (Hw a b c) as [out Hout] end. congruence.
      * destruct (token_budget.scaled_size _ _); cbn [Float.to_int]; try (by intros [= <-]).
        -- intros H. match type of H with Json.dumps (warning _ ?a ?b ?c) = _ =>
             destruct (Hw a b c) as [out Hout] end. congruence.
        -- intros H. match type of H with Json.dumps (warning _ ?a ?b ?c) = _ =>
             destruct (Hw a b c) as [out Hout] end. congruence.
    + unfold token_budget.suggested_limit_of. destruct (_ =? 0)%Z.
      * intros H. match type of H with Json.dumps (warning _ ?a ?b ?c) = _ =>
             destruct (Hw a b c) as [out Hout] end. congruence.
      * destruct (token_budget.scaled_size _ _); cbn [Float.to_int]; try (by intros [= <-]).
        -- intros H. match type of H with Json.dumps (warning _ ?a ?b ?c) = _ =>
             destruct (Hw a b c) as [out Hout] end. congruence.
        -- intros H. match type of H with Json.dumps (warning _ ?a ?b ?c) = _ =>
             destruct (Hw a b c) as [out Hout] end. congruence.
  - cbn [token_budget.suggested_limit_of]. intros H.
    destruct (Hw (token_budget._estimate_token_count payload) None None) as [out Hout]. congruence.
Qed.

End QueryFailures.

Section QueryRaises.
Import parquet_tools.

Lemma query_body_raises w files query limit T e :
  query_body w files query limit = (T, Raise e) -> is_file_not_found e = false.
Proof.
  unfold query_body.
  pose proof (register_views_spec w (map (relative_path (pathlib.of_str (getcwd w))) files) ∅ []) as H.
  cbv zeta in H. destruct (register_views w _ ∅ []) as [T' [history|e']].
  - destruct (engine w history query) as [text|rs]; [by intros [= _ <-]|].
    unfold result_json_of. cbn [_serialize_datetime]. unfold Json.dumps.
    destruct (Json.encode 0 _) as [result_json|e'] eqn:Ed.
    + intros [= _ He]. eapply enforce_raises; [|exact He]. apply dumps_warning_suggestion.
    + intros [= _ <-]. by destruct (encode_raises_type _ _ _ Ed) as [ty ->].
  - destruct H as (k & text & _ & -> & _). by intros [= _ <-].
Qed.

Lemma query_except_runtime w query T e :
  is_file_not_found e = false ->
  exists msg, query_except w query T e = RuntimeError msg /\ query_error_prefix msg.
Proof.
  intros He. unfold query_except, query_error_prefix.
  destruct e; try done;
    (destruct (_ || _); [|destruct (_ || _)]); eexists; (split; [reflexivity|]);
    [left | right; left | right; right | left | right; left | right; right
    | left | right; left | right; right | left | right; left | right; right
    | left | right; left | right; right | left | right; left | right; right
    | left | right; left | right; right | left | right; left | right; right];
    apply startswith_spec; eauto.
Qed.

(** The message of an engine failure. *)
Lemma query_error_message w query T text :
  exists msg,
    query_except w query T (EngineError text) = RuntimeError msg /\
    occurs_in text msg /\
    occurs_in ("Query: " +:+ query) msg /\
    occurs_in ("Available tables: " +:+ available_tables w T +:+ NL) (msg +:+ NL).
Proof.
  cbn [query_except exn_str].
  destruct (_ || _); [|destruct (_ || _)]; eexists; (split; [reflexivity|]).
  - split; [apply occurs_in_skip, occurs_in_here|]. split.
    + do 3 apply occurs_in_skip. rewrite <- str_app_assoc. apply occurs_in_here.
    + rewrite !str_app_assoc. do 6 apply occurs_in_skip. rewrite <- !str_app_assoc.
      apply occurs_in_app_l, occurs_in_here.
  - split; [apply occurs_in_skip, occurs_in_here|]. split.
    + do 3 apply occurs_in_skip. rewrite <- str_app_assoc. apply occurs_in_here.
    + rewrite !str_app_assoc. do 6 apply occurs_in_skip. rewrite <- !str_app_assoc.
      apply occurs_in_app_l, occurs_in_here.
  - split; [apply occurs_in_skip, occurs_in_here|]. split.
    + do 3 apply occurs_in_skip. rewrite <- str_app_assoc. apply occurs_in_here.
    + rewrite !str_app_assoc. do 6 apply occurs_in_skip. rewrite <- !str_app_assoc.
      apply occurs_in_refl.
Qed.

Lemma available_tables_single w x : available_tables w ({[ x ]} ∪ ∅) = x.
Proof.
  rewrite (right_id_L ∅ (∪)).
  unfold available_tables. destruct (decide (_ = ∅)) as [E|_]; [set_solver|].
  pose proof (iter_set_perm w {[ x ]}) as Hp. rewrite elements_singleton in Hp.
  apply Permutation_singleton_r in Hp. by rewrite Hp.
Qed.

Lemma available_tables_none w : available_tables w ∅ = "None".
Proof. unfold available_tables. by destruct (decide (∅ = ∅)). Qed.

End QueryRaises.

(** X8.  What query_parquet_files raises, the engine being installed and
    the working directory being there.  Validation runs before the try
    block and before any connection is opened: what it raises comes out as
    it is, a FileNotFoundError for a file that is not there or the OSError
    of an existence test that fails.  Every failure inside the try block,
    of the engine, of json.dumps or of the enforcer, leaves as a
    RuntimeError whose message opens as one of the three categories. *)
Theorem X8_query_raises (w : World) (parquet_files : files_arg) (query : string) (limit : Z)
    (s : Conns) (e : exn) :
  (parquet_tools.QueryParquetFilesPlugin w parquet_files query limit s).1 = Raise e ->
  ((is_file_not_found e = true \/ exists text, e = OSError text) /\
   parquet_tools._validate_parquet_files w parquet_files = Raise e /\
   (parquet_tools.QueryParquetFilesPlugin w parquet_files query limit s).2 = s) \/
  (exists msg files,
     e = RuntimeError msg /\ query_error_prefix msg /\
     parquet_tools._validate_parquet_files w parquet_files = Ok files).
Proof.
  unfold parquet_tools.QueryParquetFilesPlugin.
  destruct (parquet_tools._validate_parquet_files w parquet_files) as [files|e'] eqn:Ev.
  - cbn [connect].
    destruct (parquet_tools.query_body w files query limit) as [T [out|e']] eqn:Eb; [done|].
    cbn [fst]. intros [= <-]. right.
    destruct (query_except_runtime w query T e' (query_body_raises _ _ _ _ _ _ Eb))
      as (msg & -> & Hmsg).
    by exists msg, files.
  - cbn [fst snd]. intros [= <-]. left. split; [|done].
    revert Ev. unfold parquet_tools._validate_parquet_files.
    destruct (parquet_tools.validate_loop w _) as [e|] eqn:El; [|done].
    intros [= <-]. by apply validate_loop_raises in El.
Qed.

(** A misspelt query leaves as a RuntimeError; a file under a directory
    that may not be searched ends the call with the OSError of the test. *)
Lemma X8_witness :
  (exists msg,
     error_of (parquet_tools.QueryParquetFilesPlugin demo_world (OneFile "sales.parquet")
                 "SELCT * FROM sales" 10 no_conns).1 = RuntimeError msg /\
     query_error_prefix msg) /\
  exists text,
    error_of (parquet_tools.QueryParquetFilesPlugin guarded_world (OneFile "locked/x.parquet")
                "SELECT 1" 10 no_conns).1 = OSError text.
Proof.
  split.
  - destruct (X8_query_raises demo_world (OneFile "sales.parquet") "SELCT * FROM sales" 10 no_conns
                (error_of (parquet_tools.QueryParquetFilesPlugin demo_world (OneFile "sales.parquet")
                             "SELCT * FROM sales" 10 no_conns).1))
      as [(_ & H & _)|(msg & files & H1 & H2 & _)]; [vm_compute; reflexivity | |].
    + vm_compute in H. discriminate H.
    + exists msg. split; [exact H1 | exact H2].
  - destruct (X8_query_raises guarded_world (OneFile "locked/x.parquet") "SELECT 1" 10 no_conns
                (error_of (parquet_tools.QueryParquetFilesPlugin guarded_world
                             (OneFile "locked/x.parquet") "SELECT 1" 10 no_conns).1))
      as [([H | H] & _)|(msg & files & _ & _ & H)]; [vm_compute; reflexivity | | |].
    + vm_compute in H. discriminate H.
    + exact H.
    + vm_compute in H. discriminate H.
Defined.

(** X9.  A DATE or TIME column defeats the query: when a row that is handed
    on holds a date or a time, and no value of a class that json.dumps
    refuses as well (Decimal, bytes, UUID, timedelta), json.dumps refuses
    the date or time and the call raises the generic RuntimeError, whose
    message quotes the TypeError and the query. *)
Theorem X9_date_column (w : World) (parquet_files : files_arg) (query : string) (limit : Z)
    (s : Conns) (files : list string) (table_names : gset string) (history : list string)
    (rs : ResultSet) :
  parquet_tools._validate_parquet_files w parquet_files = Ok files ->
  parquet_tools.register_views w (map (relative_path (pathlib.of_str (getcwd w))) files) ∅ []
    = (table_names, Ok history) ->
  engine w history query = Returns rs ->
  has_date_or_time
    (PList (parquet_tools.apply_limit limit
              (map parquet_tools._serialize_datetime (parquet_tools.rows_as_dicts rs)))) = true ->
  has_other
    (PList (parquet_tools.apply_limit limit
              (map parquet_tools._serialize_datetime (parquet_tools.rows_as_dicts rs)))) = false ->
  exists msg ty,
    (parquet_tools.QueryParquetFilesPlugin w parquet_files query limit s).1 = Raise (RuntimeError msg) /\
    (ty = "date" \/ ty = "time") /\
    msg = "Query execution failed: Object of type " +:+ ty +:+ " is not JSON serializable" +:+ NL
          +:+ "Query: " +:+ query +:+ NL
          +:+ "Available tables: " +:+ parquet_tools.available_tables w table_names.
Proof.
  intros Hv Hreg He Hdate Hother. unfold parquet_tools.QueryParquetFilesPlugin. rewrite Hv.
  cbn [connect]. unfold parquet_tools.query_body. rewrite Hreg, He.
  unfold parquet_tools.result_json_of. cbn [parquet_tools._serialize_datetime].
  assert (Hnone : has_datetime
            (PList (parquet_tools.apply_limit limit
                      (map parquet_tools._serialize_datetime (parquet_tools.rows_as_dicts rs)))) = false).
  { rewrite apply_limit_map. cbn [has_datetime].
    induction (parquet_tools.apply_limit limit (parquet_tools.rows_as_dicts rs)) as [|x l IH];
      cbn [map existsb]; [done|]. by rewrite serialize_no_timestamp_left, IH. }
  unfold Json.dumps.
  destruct (encode_date_or_time _ Hdate Hnone Hother 0) as [-> | ->]; cbn [fst].
  - eexists. exists "date". split; [|split; [by left|reflexivity]]. reflexivity.
  - eexists. exists "time". split; [|split; [by right|reflexivity]]. reflexivity.
Qed.

Lemma X9_witness :
  exists msg,
    (parquet_tools.QueryParquetFilesPlugin dated_world (OneFile "events.parquet")
       "SELECT * FROM events" 10 no_conns).1 = Raise (RuntimeError msg) /\
    startswith msg "Query execution failed: Object of type date is not JSON serializable" = true.
Proof.
  destruct (X9_date_column dated_world (OneFile "events.parquet") "SELECT * FROM events" 10 no_conns
              ["events.parquet"] {[ "events" ]}
              [parquet_tools.create_view_sql "events" "events.parquet"] dated_rows)
    as (msg & ty & H1 & _ & H3);
    [vm_compute; reflexivity | vm_compute; reflexivity | vm_compute; reflexivity
    | vm_compute; reflexivity | vm_compute; reflexivity |].
  exists msg. split; [exact H1|].
  clear H3. vm_compute in H1. injection H1 as <-. vm_compute. reflexivity.
Defined.

(** X10.  A table name is entered into the set before its view is created.
    So when the CREATE VIEW of the first file fails, the error message
    offers that very table as available, although no view exists. *)
Theorem X10_failed_view_listed (w : World) (parquet_files : files_arg) (query : string) (limit : Z)
    (s : Conns) (file_path : string) (rest : list string) (text : string) :
  let relative := relative_path (pathlib.of_str (getcwd w)) file_path in
  parquet_tools._validate_parquet_files w parquet_files = Ok (file_path :: rest) ->
  engine w [] (parquet_tools.create_view_sql (stem_of relative) relative) = Fails text ->
  exists msg,
    (parquet_tools.QueryParquetFilesPlugin w parquet_files query limit s).1 = Raise (RuntimeError msg) /\
    occurs_in text msg /\
    occurs_in ("Available tables: " +:+ stem_of relative +:+ NL) (msg +:+ NL).
Proof.
  cbv zeta. intros Hv He. unfold parquet_tools.QueryParquetFilesPlugin. rewrite Hv. cbn [connect].
  unfold parquet_tools.query_body. cbn [map parquet_tools.register_views].
  fold (stem_of (relative_path (pathlib.of_str (getcwd w)) file_path)).
  rewrite unique_table_name_free by set_solver. rewrite He. cbn [fst].
  destruct (query_error_message w query
              ({[ stem_of (relative_path (pathlib.of_str (getcwd w)) file_path) ]} ∪ ∅) text)
    as (msg & -> & H1 & _ & H3).
  exists msg. split; [done|]. split; [done|]. by rewrite available_tables_single in H3.
Qed.

Lemma X10_witness :
  exists msg,
    (parquet_tools.QueryParquetFilesPlugin broken_world (OneFile "sales.parquet")
       "SELECT * FROM sales" 10 no_conns).1 = Raise (RuntimeError msg) /\
    occurs_in ("Available tables: sales" +:+ NL) (msg +:+ NL).
Proof.
  destruct (X10_failed_view_listed broken_world (OneFile "sales.parquet") "SELECT * FROM sales" 10
              no_conns "sales.parquet" [] "IO Error: No files found that match the pattern")
    as (msg & H1 & _ & H3); [vm_compute; reflexivity | vm_compute; reflexivity |].
  exists msg. split; [exact H1 | exact H3].
Defined.

(** X11.  An empty list of files passes validation: the query runs on an
    empty database, and when the engine refuses it the message says that
    no table is available. *)
Theorem X11_no_files (w : World) (query : string) (limit : Z) (s : Conns) (text : string) :
  engine w [] query = Fails text ->
  exists msg,
    (parquet_tools.QueryParquetFilesPlugin w (FileList []) query limit s).1
      = Raise (RuntimeError msg) /\
    occurs_in text msg /\
    occurs_in ("Available tables: None" +:+ NL) (msg +:+ NL).
Proof.
  intros He. unfold parquet_tools.QueryParquetFilesPlugin.
  cbn [parquet_tools._validate_parquet_files parquet_tools.validate_loop connect].
  unfold parquet_tools.query_body. cbn [map parquet_tools.register_views]. rewrite He.
  destruct (query_error_message w query ∅ text) as (msg & -> & H1 & _ & H3).
  exists msg. rewrite available_tables_none in H3. split; [done|]. split; [done|exact H3].
Qed.

Lemma X11_witness :
  exists msg,
    (parquet_tools.QueryParquetFilesPlugin demo_world (FileList []) "SELCT 1" 10 no_conns).1
      = Raise (RuntimeError msg) /\
    occurs_in ("Available tables: None" +:+ NL) (msg +:+ NL).
Proof.
  destruct (X11_no_files demo_world "SELCT 1" 10 no_conns
              ("Parser Error: syntax error at or near " +:+ DQ +:+ "SELCT" +:+ DQ))
    as (msg & H1 & _ & H3); [vm_compute; reflexivity|].
  exists msg. split; [exact H1 | exact H3].
Defined.

(** ** get_schema *)

Section Schema.
Import get_schema.

Lemma schema_body_raises w parquet_file e :
  schema_body w parquet_file = Raise e -> is_file_not_found e = false.
Proof.
  unfold schema_body.
  destruct (engine w [] _) as [text|r]; [by intros [= <-]|].
  destruct (engine w _ _) as [text|c]; [by intros [= <-]|].
  destruct (fetchone c) as [row|]; [|by intros [= <-]].
  destruct row as [|row_count row]; cbn [first_column]; [by intros [= <-]|].
  unfold Json.dumps. destruct (Json.encode 0 _) as [result_json|e'] eqn:Ed.
  - intros He. eapply enforce_raises; [|exact He]. apply dumps_warning.
  - intros [= <-]. by destruct (encode_raises_type _ _ _ Ed) as [ty ->].
Qed.

Lemma schema_info_plain parquet_file n columns :
  plain (schema_info_of parquet_file (PInt n) columns) = true.
Proof.
  cbn [schema_info_of plain forallb snd andb]. rewrite andb_true_r.
  induction columns as [|c columns IH]; cbn [map forallb]; [done|]. by rewrite IH.
Qed.

End Schema.

(** X12.  What get_schema raises, the engine being installed and the
    working directory being there.  The existence test stands before the
    try block and before any connection is opened: when nothing is found
    at the path the call raises FileNotFoundError with the path as the
    caller wrote it, and when the test itself fails its OSError comes out
    as it is.  Every failure after that, whatever its kind, leaves as a
    RuntimeError that wraps the text of the cause and names the normalized
    path. *)
Theorem X12_schema_raises (w : World) (parquet_file : string) (s : Conns) (e : exn) :
  let relative := relative_path (pathlib.of_str (getcwd w)) parquet_file in
  (get_schema.GetSchemaPlugin w parquet_file s).1 = Raise e ->
  (fs_stat w (pathlib.str (pathlib.of_str parquet_file)) = NoEntry /\
   get_schema.GetSchemaPlugin w parquet_file s =
     (Raise (FileNotFoundError
               ("Parquet file not found: " +:+ parquet_file +:+ NL
                +:+ "Please verify the file path. Use 'list_tables_in_directory' to discover available files.")),
      s)) \/
  (exists text,
     fs_stat w (pathlib.str (pathlib.of_str parquet_file)) = StatError text /\
     get_schema.GetSchemaPlugin w parquet_file s = (Raise (OSError text), s)) \/
  (missing w parquet_file = false /\
   exists cause,
     get_schema.schema_body w relative = Raise cause /\
     e = RuntimeError (schema_failure (exn_str cause) relative)).
Proof.
  cbv zeta. unfold get_schema.GetSchemaPlugin, missing, path_exists, fs_exists.
  destruct (fs_stat w (pathlib.str (pathlib.of_str parquet_file))) as [| | |text];
    [intros _; by left | | | intros _; right; left; by exists text];
    (cbn [connect fst negb]; intros H; right; right; split; [done|];
     destruct (get_schema.schema_body w _) as [out|cause] eqn:Eb; [done|];
     exists cause; split; [done|]; injection H as <-;
     pose proof (schema_body_raises _ _ _ Eb) as Hc; by destruct cause).
Qed.

(** A file the engine cannot read gives the RuntimeError; a file under a
    directory that may not be searched gives the OSError of the test. *)
Lemma X12_witness :
  (exists msg,
     error_of (get_schema.GetSchemaPlugin demo_world "sales.parquet" no_conns).1 = RuntimeError msg /\
     startswith msg "Failed to extract schema from parquet file: " = true) /\
  get_schema.GetSchemaPlugin guarded_world "locked/x.parquet" no_conns
    = (Raise (OSError "[Errno 13] Permission denied: 'locked/x.parquet'"), no_conns).
Proof.
  split.
  - destruct (X12_schema_raises demo_world "sales.parquet" no_conns
                (error_of (get_schema.GetSchemaPlugin demo_world "sales.parquet" no_conns).1))
      as [[H _]|[(text & H & _)|(_ & cause & _ & H)]]; [vm_compute; reflexivity | | |].
    + vm_compute in H. discriminate H.
    + vm_compute in H. discriminate H.
    + exists (schema_failure (exn_str cause)
                (relative_path (pathlib.of_str (getcwd demo_world)) "sales.parquet")).
      split; [exact H|]. apply startswith_spec. eexists. reflexivity.
  - destruct (X12_schema_raises guarded_world "locked/x.parquet" no_conns
                (error_of (get_schema.GetSchemaPlugin guarded_world "locked/x.parquet" no_conns).1))
      as [[H _]|[(text & H1 & H2)|(H & _)]]; [vm_compute; reflexivity | | |].
    + vm_compute in H. discriminate H.
    + rewrite H2. vm_compute in H1. injection H1 as <-. reflexivity.
    + vm_compute in H. discriminate H.
Defined.

(** X13.  When the COUNT statement yields no row, get_schema raises its own
    RuntimeError inside the try block, and the except clause wraps it: the
    message of the call holds both texts. *)
Theorem X13_schema_no_count (w : World) (parquet_file : string) (s : Conns)
    (described counted : ResultSet) :
  let relative := relative_path (pathlib.of_str (getcwd w)) parquet_file in
  missing w parquet_file = false ->
  engine w [] (schema_sql relative) = Returns described ->
  engine w [schema_sql relative] (count_sql relative) = Returns counted ->
  rs_rows counted = [] ->
  (get_schema.GetSchemaPlugin w parquet_file s).1 =
    Raise (RuntimeError (schema_failure "Failed to read row count from parquet file" relative)).
Proof.
  cbv zeta. intros Hm Hd Hc Hrows. unfold get_schema.GetSchemaPlugin.
  rewrite (missing_false _ _ Hm). cbn [connect fst].
  unfold get_schema.schema_body. rewrite Hd, Hc. unfold fetchone. by rewrite Hrows.
Qed.

Lemma X13_witness :
  (get_schema.GetSchemaPlugin countless_world "t.parquet" no_conns).1 =
    Raise (RuntimeError (schema_failure "Failed to read row count from parquet file" "t.parquet")).
Proof.
  apply (X13_schema_no_count countless_world "t.parquet" no_conns
           {| description := [("id", "INTEGER")]; rs_rows := [] |}
           {| description := []; rs_rows := [] |}); reflexivity.
Defined.

(** X14.  On success get_schema encodes a dict of three keys: file, the
    normalized path and not the path as written; row_count; and columns,
    one name and type per column of the description, in its order.  With an
    integer row count json.dumps accepts the dict and the call returns what
    budget enforcement makes of the text. *)
Theorem X14_schema_info (w : World) (parquet_file : string) (s : Conns)
    (described counted : ResultSet) (n : Z) (more : list pyval) (others : list (list pyval)) :
  let relative := relative_path (pathlib.of_str (getcwd w)) parquet_file in
  let schema_info := schema_info_of relative (PInt n) (description described) in
  missing w parquet_file = false ->
  engine w [] (schema_sql relative) = Returns described ->
  engine w [schema_sql relative] (count_sql relative) = Returns counted ->
  rs_rows counted = (PInt n :: more) :: others ->
  exists result_json,
    Json.dumps schema_info = Ok result_json /\
    (forall out, get_schema._enforce_token_limit result_json "get_schema" = Ok out ->
       (get_schema.GetSchemaPlugin w parquet_file s).1 = Ok out) /\
    (len result_json < 2 ^ 53 ->
       exists out, (get_schema.GetSchemaPlugin w parquet_file s).1 = Ok out).
Proof.
  cbv zeta. intros Hm Hd Hc Hrows.
  destruct (loads_dumps _ (schema_info_plain
              (relative_path (pathlib.of_str (getcwd w)) parquet_file) n (description described)))
    as (result_json & Hdumps & _).
  exists result_json. split; [exact Hdumps|].
  assert (Hcall : forall out, get_schema._enforce_token_limit result_json "get_schema" = Ok out ->
                    (get_schema.GetSchemaPlugin w parquet_file s).1 = Ok out).
  { intros out Hout.
    unfold get_schema.GetSchemaPlugin. rewrite (missing_false _ _ Hm). cbn [connect fst].
    unfold get_schema.schema_body. rewrite Hd, Hc. unfold fetchone. rewrite Hrows.
    cbn [head first_column]. fold (schema_info_of (relative_path (pathlib.of_str (getcwd w)) parquet_file)
                                     (PInt n) (description described)).
    by rewrite Hdumps, Hout. }
  split; [exact Hcall|]. intros Hlen.
  destruct (enforce_dumps token_budget.warning _ result_json "get_schema"
              (dumps_warning "get_schema")
              (schema_info_plain (relative_path (pathlib.of_str (getcwd w)) parquet_file) n
                 (description described)) Hdumps Hlen) as [out Hout].
  exists out. by apply Hcall.
Qed.

Lemma X14_witness :
  exists result_json,
    Json.dumps (schema_info_of "data/good.parquet" (PInt 3) [("id", "INTEGER"); ("item", "VARCHAR")])
      = Ok result_json /\
    (get_schema.GetSchemaPlugin demo_world "data/good.parquet" no_conns).1
      = Ok result_json.
Proof.
  destruct (X14_schema_info demo_world "data/good.parquet" no_conns
              {| description := [("id", "INTEGER"); ("item", "VARCHAR")]; rs_rows := [] |}
              {| description := [("count_star()", "BIGINT")]; rs_rows := [[PInt 3]] |} 3 [] [])
    as (result_json & H1 & H2 & _); [vm_compute; reflexivity | reflexivity | reflexivity | reflexivity |].
  exists result_json. split; [exact H1|]. apply H2.
  vm_compute in H1. injection H1 as <-. vm_compute. reflexivity.
Defined.

(** ** The copies in parquet_tools.py *)

Section Copies.
Import token_budget.

Lemma enforce_copies payload context :
  copies_agree (enforce_with token_budget.warning payload context)
               (enforce_with parquet_tools.warning payload context).
Proof.
  unfold enforce_with. destruct (_ <=? _)%Z; [by left|].
  destruct (current_size_of payload) as [cs|e]; [|done].
  destruct (suggested_limit_of _ cs) as [sl|e]; [|done].
  destruct (dumps_warning context (_estimate_token_count payload) cs sl) as [a Ha].
  destruct (dumps_warning_suggestion context (_estimate_token_count payload) cs sl) as [b Hb].
  rewrite Ha, Hb. right. eauto 10.
Qed.

Lemma copies_agree_wrap (f : exn -> exn) r r' :
  copies_agree r r' ->
  copies_agree (match r with Ok v => Ok v | Raise e => Raise (f e) end)
               (match r' with Ok v => Ok v | Raise e => Raise (f e) end).
Proof. destruct r, r'; cbn [copies_agree]; try done. by intros ->. Qed.

Lemma schema_body_copies w parquet_file :
  copies_agree (get_schema.schema_body w parquet_file)
               (parquet_tools_inspect.schema_body w parquet_file).
Proof.
  unfold get_schema.schema_body, parquet_tools_inspect.schema_body.
  destruct (engine w [] _); [done|]. destruct (engine w _ _); [done|].
  destruct (fetchone _); [|done]. destruct (first_column _); [|done].
  destruct (Json.dumps _); [|done]. apply enforce_copies.
Qed.

End Copies.

(** X15.  The get_schema and list_tables_in_directory of parquet_tools.py
    behave as the ones of the stand-alone files: the same connections are
    left open, so the listing leaks the same ones; the same exceptions are
    raised; the same text is returned, an overflow report apart, which in
    parquet_tools.py carries the suggestion in addition. *)
Theorem X15_copies_agree (w : World) (path : string) (s : Conns) :
  (parquet_tools_inspect.GetSchemaPlugin w path s).2 = (get_schema.GetSchemaPlugin w path s).2 /\
  copies_agree (get_schema.GetSchemaPlugin w path s).1
               (parquet_tools_inspect.GetSchemaPlugin w path s).1 /\
  (parquet_tools_inspect.ListTablesInDirectoryPlugin w path s).2
    = (list_tables_in_directory.ListTablesInDirectoryPlugin w path s).2 /\
  copies_agree (list_tables_in_directory.ListTablesInDirectoryPlugin w path s).1
               (parquet_tools_inspect.ListTablesInDirectoryPlugin w path s).1.
Proof.
  split; [|split; [|split]].
  - unfold parquet_tools_inspect.GetSchemaPlugin, get_schema.GetSchemaPlugin.
    by destruct (path_exists w _) as [[|]|].
  - unfold parquet_tools_inspect.GetSchemaPlugin, get_schema.GetSchemaPlugin.
    destruct (path_exists w _) as [[|]|]; [|done|done]. cbn [connect fst].
    apply copies_agree_wrap, schema_body_copies.
  - unfold parquet_tools_inspect.ListTablesInDirectoryPlugin,
      list_tables_in_directory.ListTablesInDirectoryPlugin.
    destruct (path_exists w _) as [[|]|]; [|done|done].
    destruct (path_is_dir w _) as [[|]|]; [|done|done].
    destruct (list_tables_in_directory.list_files _ _ _ _ _) as [files_info s'].
    by destruct (Json.dumps _).
  - unfold parquet_tools_inspect.ListTablesInDirectoryPlugin,
      list_tables_in_directory.ListTablesInDirectoryPlugin.
    destruct (path_exists w _) as [[|]|]; [|done|done].
    destruct (path_is_dir w _) as [[|]|]; [|done|done].
    destruct (list_tables_in_directory.list_files _ _ _ _ _) as [files_info s'].
    destruct (Json.dumps _); [|done]. apply enforce_copies.
Qed.

(** ** auto_rca_script.py: the task description *)

Section TaskDescription.
Import auto_rca_script.
Local Open Scope nat_scope.

Lemma startswith_get s p : startswith s p = true ->
  forall i c, String.get i p = Some c -> String.get i s = Some c.
Proof.
  revert p. induction s as [|d s IH]; intros [|c p]; cbn [startswith]; try done.
  destruct (Ascii.eqb_spec c d) as [->|]; [|done]. intros H [|i] x; cbn [String.get]; [done|].
  by apply IH.
Qed.

Lemma no_quote_get s i c : no_quote s = true -> String.get i s = Some c -> c <> dquote.
Proof.
  revert i. induction s as [|d s IH]; intros i; cbn [no_quote String.get]; [done|].
  intros [Hd Hs]%andb_true_iff. destruct i as [|i]; [|by apply IH].
  intros [= <-] ->. by rewrite Ascii.eqb_refl in Hd.
Qed.

Lemma marker_get k c : k < 19 -> String.get k marker = Some c -> c <> dquote.
Proof.
  intros Hk. do 19 (destruct k as [|k]; [by intros [= <-]|]). lia.
Qed.

(** After text without a quote the marker starts where it stands, not
    before. *)
Lemma startswith_marker_late c pre rest :
  no_quote (String c pre) = true -> startswith (String c pre +:+ marker +:+ rest) marker = false.
Proof.
  intros Hq. destruct (startswith _ marker) eqn:E; [|done]. exfalso.
  pose proof (startswith_get _ _ E 19 dquote eq_refl) as Hg.
  assert (Hm : String.length marker = 22) by reflexivity.
  assert (Hp : 1 <= String.length (String c pre)) by (cbn [String.length]; lia).
  revert Hq Hg Hp. generalize (String c pre). intros p Hq Hg Hp.
  destruct (Nat.lt_ge_cases 19 (String.length p)) as [Hlt|Hge].
  - rewrite <- append_correct1 in Hg by done. by apply (no_quote_get _ _ _ Hq Hg).
  - replace 19 with ((19 - String.length p) + String.length p) in Hg by lia.
    rewrite <- append_correct2 in Hg.
    rewrite <- append_correct1 in Hg by lia.
    by apply (marker_get (19 - String.length p) dquote ltac:(lia) Hg).
Qed.

Lemma find_marker pre rest :
  no_quote pre = true -> find marker (pre +:+ marker +:+ rest) = Some (String.length pre).
Proof.
  induction pre as [|c pre IH]; intros Hq.
  - rewrite str_app_nil_l.
    assert (Hs : startswith (marker +:+ rest) marker = true) by (apply startswith_spec; eauto).
    revert Hs. generalize (marker +:+ rest). intros s Hs. destruct s; cbn [find]; by rewrite Hs.
  - pose proof (startswith_marker_late c pre rest Hq) as Hl.
    rewrite str_app_cons in Hl |- *. cbn [find String.length]. rewrite Hl.
    cbn [no_quote] in Hq. apply andb_true_iff in Hq as [_ Hq]. by rewrite (IH Hq).
Qed.

Lemma startswith_quote_free post p :
  no_quote post = true -> startswith post (String dquote p) = false.
Proof.
  destruct post as [|c post]; cbn [startswith no_quote]; [done|].
  intros [Hc _]%andb_true_iff. rewrite Ascii.eqb_sym. by destruct (Ascii.eqb c dquote).
Qed.

Lemma rfind_quote_free post : no_quote post = true -> rfind triple_quote post = None.
Proof.
  intros Hq. induction post as [|c post IH]; [done|].
  cbn [rfind]. rewrite IH by (cbn [no_quote] in Hq; by apply andb_true_iff in Hq as [_ ?]).
  change triple_quote with (String dquote (String dquote (String dquote EmptyString))).
  by rewrite (startswith_quote_free _ _ Hq).
Qed.

Lemma rfind_app sub a x i :
  rfind sub x = Some i -> rfind sub (a +:+ x) = Some (String.length a + i).
Proof.
  intros H. induction a as [|c a IH]; [done|].
  rewrite str_app_cons. cbn [rfind String.length]. by rewrite IH.
Qed.

(** The last three quotes of a text that ends without a quote. *)
Lemma rfind_closing a post :
  no_quote post = true -> rfind triple_quote (a +:+ triple_quote +:+ post) = Some (String.length a).
Proof.
  intros Hq. rewrite (rfind_app _ _ _ 0); [f_equal; lia|].
  change (triple_quote +:+ post) with (String dquote (String dquote (String dquote post))).
  cbn [rfind]. rewrite (rfind_quote_free _ Hq).
  change triple_quote with (String dquote (String dquote (String dquote EmptyString))).
  cbn [startswith]. rewrite !Ascii.eqb_refl.
  rewrite !(startswith_quote_free _ _ Hq). by destruct post.
Qed.

Lemma substring_middle a b c :
  substring (String.length a) (String.length b) (a +:+ b +:+ c) = b.
Proof.
  induction a as [|x a IH]; cbn [String.length].
  - rewrite str_app_nil_l. induction b as [|y b IHb]; cbn [String.length].
    + by destruct c.
    + rewrite str_app_cons. cbn [substring]. by rewrite IHb.
  - rewrite str_app_cons. cbn [substring]. apply IH.
Qed.

Lemma substring_none n s : substring n 0 s = EmptyString.
Proof. revert n. induction s as [|c s IH]; intros [|n]; cbn [substring]; auto. Qed.

End TaskDescription.

(** X16.  From a problem file of the usual form, text, the marker
    TASK_DESCRIPTION = and three quotes, the description, three quotes,
    text, the script takes the description, stripped of surrounding
    whitespace.  The text before and after holds no double quote; the
    description itself may hold any, since the last three quotes of the
    file close it. *)
Theorem X16_task_description (pre body post : string) :
  no_quote pre = true ->
  no_quote post = true ->
  auto_rca_script.task_description
    (pre +:+ auto_rca_script.marker +:+ body +:+ auto_rca_script.triple_quote +:+ post)
    = auto_rca_script.strip body.
Proof.
  intros Hpre Hpost. unfold auto_rca_script.task_description.
  rewrite (find_marker pre _ Hpre).
  replace (pre +:+ auto_rca_script.marker +:+ body +:+ auto_rca_script.triple_quote +:+ post)
    with ((pre +:+ auto_rca_script.marker +:+ body) +:+ auto_rca_script.triple_quote +:+ post)
    by (by rewrite !str_app_assoc).
  rewrite (rfind_closing _ post Hpost). cbv zeta. unfold auto_rca_script.slice.
  rewrite !str_length_app.
  replace (String.length pre + (String.length auto_rca_script.marker + String.length body)
           - (String.length pre + String.length auto_rca_script.marker))%nat
    with (String.length body) by lia.
  rewrite <- str_length_app.
  replace ((pre +:+ auto_rca_script.marker +:+ body) +:+ auto_rca_script.triple_quote +:+ post)
    with ((pre +:+ auto_rca_script.marker) +:+ body +:+ auto_rca_script.triple_quote +:+ post)
    by (by rewrite !str_app_assoc).
  by rewrite substring_middle.
Qed.

Lemma X16_witness :
  auto_rca_script.task_description
    (("# question 3" +:+ NL) +:+ auto_rca_script.marker
     +:+ (NL +:+ "Which service is the " +:+ DQ +:+ "root cause" +:+ DQ +:+ "?" +:+ NL)
     +:+ auto_rca_script.triple_quote +:+ NL)
    = "Which service is the " +:+ DQ +:+ "root cause" +:+ DQ +:+ "?".
Proof.
  rewrite (X16_task_description ("# question 3" +:+ NL)
             (NL +:+ "Which service is the " +:+ DQ +:+ "root cause" +:+ DQ +:+ "?" +:+ NL) NL);
    reflexivity.
Defined.

(** X17.  When the three quotes of the marker are the last of the file, the
    description is never closed: the slice ends before it starts, the
    description is empty and the run stops before a session is created,
    whatever text follows the marker. *)
Theorem X17_unterminated_description (pre rest : string) :
  no_quote pre = true ->
  no_quote rest = true ->
  auto_rca_script.task_description (pre +:+ auto_rca_script.marker +:+ rest) = EmptyString /\
  auto_rca_script.read_task (pre +:+ auto_rca_script.marker +:+ rest)
    = auto_rca_script.EmptyTaskDescription.
Proof.
  intros Hpre Hrest.
  assert (E : auto_rca_script.task_description (pre +:+ auto_rca_script.marker +:+ rest)
              = EmptyString).
  { unfold auto_rca_script.task_description. rewrite (find_marker pre _ Hpre).
    replace (pre +:+ auto_rca_script.marker +:+ rest)
      with ((pre +:+ "TASK_DESCRIPTION = ") +:+ auto_rca_script.triple_quote +:+ rest)
      by (unfold auto_rca_script.marker; by rewrite !str_app_assoc).
    rewrite (rfind_closing _ rest Hrest). cbv zeta. unfold auto_rca_script.slice.
    rewrite str_length_app.
    replace (String.length pre + String.length "TASK_DESCRIPTION = "
             - (String.length pre + String.length auto_rca_script.marker))%nat with 0%nat
      by (change (String.length auto_rca_script.marker) with 22%nat; cbn [String.length]; lia).
    by rewrite substring_none. }
  split; [exact E|]. unfold auto_rca_script.read_task. by rewrite E.
Qed.

Lemma X17_witness :
  auto_rca_script.read_task
    (auto_rca_script.marker +:+ (NL +:+ "Which service is the root cause?" +:+ NL))
    = auto_rca_script.EmptyTaskDescription.
Proof.
  apply (X17_unterminated_description EmptyString
           (NL +:+ "Which service is the root cause?" +:+ NL)); reflexivity.
Defined.

(** ** Rows as dicts, table names of files, the suggestion text *)

Section RowDicts.
Import parquet_tools.

Lemma dict_get_set k k' v d :
  dict_get k (dict_set k' v d) = if String.eqb k k' then Some v else dict_get k d.
Proof.
  induction d as [|[k0 v0] d IH]; cbn [dict_set dict_get]; [done|].
  destruct (String.eqb_spec k' k0) as [->|Hne]; cbn [dict_get].
  - by destruct (String.eqb k k0).
  - rewrite IH. destruct (String.eqb_spec k k0) as [->|]; [|done].
    destruct (String.eqb_spec k0 k') as [->|]; done.
Qed.

Lemma dict_get_fold k pairs : forall d,
  dict_get k (fold_left (fun d kv => dict_set (fst kv) (snd kv) d) pairs d) =
    match last_value k pairs with
    | Some v => Some v
    | None => dict_get k d
    end.
Proof.
  induction pairs as [|[k' v] pairs IH]; intros d; cbn [fold_left last_value fst snd]; [done|].
  rewrite IH. destruct (last_value k pairs); [done|]. rewrite dict_get_set.
  by destruct (String.eqb k k').
Qed.

Lemma dict_set_fresh k v d :
  k ∉ map fst d -> dict_set k v d = (d ++ [(k, v)])%list.
Proof.
  induction d as [|[k0 v0] d IH]; cbn [dict_set map fst app]; [done|].
  intros Hk. destruct (String.eqb_spec k k0) as [->|_]; [set_solver|].
  rewrite IH; [done|set_solver].
Qed.

Lemma dict_fold_fresh pairs : forall d,
  NoDup (map fst d ++ map fst pairs) ->
  fold_left (fun d kv => dict_set (fst kv) (snd kv) d) pairs d = (d ++ pairs)%list.
Proof.
  induction pairs as [|[k v] pairs IH]; intros d; cbn [fold_left map fst snd].
  - intros _. by rewrite app_nil_r.
  - intros Hnd. rewrite dict_set_fresh.
    + rewrite IH; [by rewrite <- app_assoc|].
      rewrite map_app. cbn [map fst]. by rewrite <- app_assoc.
    + apply NoDup_app in Hnd as (_ & Hdis & _). intros Hin. apply (Hdis k Hin). by left.
Qed.

Lemma zip_fst_sublist {A B} (a : list A) (b : list B) : sublist (map fst (zip a b)) a.
Proof.
  revert b. induction a as [|x a IH]; intros [|y b]; cbn [zip map fst];
    [done | done | apply sublist_nil_l | by apply sublist_skip].
Qed.

End RowDicts.

(** X18.  A row becomes a dict by zip: with column names that differ
    pairwise the dict holds the pairs of name and value in column order.  In
    general a name holds the value of the last column that bears it, so of
    two columns of the same name the first is lost. *)
Theorem X18_row_dicts (rs : ResultSet) :
  let columns := map fst (description rs) in
  (NoDup columns ->
     parquet_tools.rows_as_dicts rs = map (fun row => PDict (zip columns row)) (rs_rows rs)) /\
  (forall row name,
     dict_get name (dict_of_pairs (zip columns row)) = last_value name (zip columns row)).
Proof.
  cbv zeta. split.
  - intros Hnd. unfold parquet_tools.rows_as_dicts. apply map_ext. intros row. f_equal.
    unfold dict_of_pairs. rewrite dict_fold_fresh; [done|]. cbn [map app].
    eapply sublist_NoDup; [exact Hnd | apply zip_fst_sublist].
  - intros row name. unfold dict_of_pairs. rewrite dict_get_fold.
    by destruct (last_value name _).
Qed.

Lemma X18_witness :
  parquet_tools.rows_as_dicts three_rows
    = [ PDict [("id", PInt 1); ("item", PStr "ink")];
        PDict [("id", PInt 2); ("item", PStr "pen")];
        PDict [("id", PInt 3); ("item", PStr "nib")] ].
Proof.
  destruct (X18_row_dicts three_rows) as [H _]. rewrite H; [reflexivity|].
  apply (bool_decide_unpack _). vm_compute. exact I.
Defined.

Section Stems.
Import pathlib.

Lemma split_app a b : split (a +:+ String "/" b) = (split a ++ split b)%list.
Proof.
  induction a as [|c a IH]; [done|]. rewrite str_app_cons. cbn [split].
  destruct (Ascii.eqb c "/"); rewrite IH; [done|].
  assert (split a <> []) by (destruct a as [|d a]; cbn [split]; [done|];
    destruct (Ascii.eqb d "/"); [done | by destruct (split a)]).
  by destruct (split a).
Qed.

Lemma rfind_suffix n : rfind "." (n +:+ ".parquet") = Some (String.length n).
Proof.
  induction n as [|c n IH]; [done|]. rewrite str_app_cons. cbn [rfind String.length]. by rewrite IH.
Qed.

Lemma substring_prefix a b : substring 0 (String.length a) (a +:+ b) = a.
Proof.
  induction a as [|c a IH]; cbn [String.length].
  - rewrite str_app_nil_l. by destruct b.
  - rewrite str_app_cons. cbn [substring]. by rewrite IH.
Qed.

Lemma no_slash_app a b : no_slash a = true -> no_slash b = true -> no_slash (a +:+ b) = true.
Proof.
  induction a as [|c a IH]; [done|]. rewrite str_app_cons. cbn [no_slash].
  intros [-> Ha]%andb_true_iff Hb. by rewrite IH.
Qed.

Lemma stem_parquet root ps n :
  n <> EmptyString -> stem {| root := root; parts := ps ++ [n +:+ ".parquet"] |} = n.
Proof.
  intros Hn. unfold stem, name. cbn [parts]. rewrite List.last_last, rfind_suffix.
  rewrite str_length_app. change (String.length ".parquet") with 8%nat.
  destruct n as [|c n]; [done|]. cbn [String.length].
  destruct (Nat.ltb_spec 0 (S (String.length n))); [|lia].
  destruct (Nat.ltb_spec (S (String.length n)) (S (String.length n) + 8 - 1)); [|lia].
  cbn [andb]. apply (substring_prefix (String c n)).
Qed.

Lemma is_part_parquet n : is_part (n +:+ ".parquet") = true.
Proof.
  unfold is_part. destruct n as [|c n]; [done|]. rewrite str_app_cons. cbn [String.eqb].
  destruct n as [|d n]; [|rewrite str_app_cons; by destruct (Ascii.eqb c ".")].
  rewrite str_app_nil_l. by destruct (Ascii.eqb c ".").
Qed.

End Stems.

(** X19.  The table of a file name.parquet is called name, whatever
    directory the path goes through: the base name loses its last suffix
    only, so a.b.parquet gives a.b. *)
Theorem X19_stem_of_parquet (directory name : string) :
  name <> EmptyString ->
  no_slash name = true ->
  stem_of (name +:+ ".parquet") = name /\
  stem_of (directory +:+ "/" +:+ name +:+ ".parquet") = name.
Proof.
  intros Hn Hs.
  assert (Hfile : pathlib.split (name +:+ ".parquet") = [name +:+ ".parquet"])
    by (apply split_single, no_slash_app; done).
  unfold stem_of, pathlib.of_str. split.
  - rewrite Hfile. rewrite filter_cons_True by apply is_part_parquet.
    rewrite filter_nil. by apply (stem_parquet _ []).
  - rewrite (str_app_cons "/" EmptyString), str_app_nil_l, split_app, Hfile.
    rewrite filter_app, filter_cons_True by apply is_part_parquet.
    rewrite filter_nil. by apply stem_parquet.
Qed.

Lemma X19_witness :
  stem_of ("sales.2024" +:+ ".parquet") = "sales.2024" /\
  stem_of ("/data/in" +:+ "/" +:+ "sales.2024" +:+ ".parquet") = "sales.2024".
Proof. apply (X19_stem_of_parquet "/data/in" "sales.2024"); [discriminate | reflexivity]. Defined.

(** X20.  The suggestion text of a report agrees with its suggested_limit
    field: with a limit k the text holds (try LIMIT k), and without one it
    holds no such hint. *)
Theorem X20_suggestion_text (context : string) (token_estimate : Z) (current_size : option Z) :
  (forall k, k <> 0 ->
     exists text,
       field "suggestion" (parquet_tools.warning context token_estimate current_size (Some k))
         = Some (PStr text) /\
       occurs_in (" (try LIMIT " +:+ pretty k +:+ ")") text) /\
  (exists text,
     field "suggestion" (parquet_tools.warning context token_estimate current_size None)
       = Some (PStr text) /\
     str_contains text "try LIMIT" = false).
Proof.
  split.
  - intros k Hk. eexists. split; [reflexivity|].
    unfold parquet_tools.suggestion_parts. destruct (Z.eqb_spec k 0) as [|_]; [done|].
    rewrite join_cons, join_cons. apply occurs_in_skip, occurs_in_skip, occurs_in_app_l.
    apply occurs_in_skip. rewrite <- str_app_assoc. apply occurs_in_refl.
  - eexists. split; [reflexivity|]. vm_compute. reflexivity.
Qed.

Lemma X20_witness :
  exists text,
    field "suggestion" (parquet_tools.warning "query_parquet_files" 8240 (Some 309) (Some 149))
      = Some (PStr text) /\
    occurs_in (" (try LIMIT " +:+ pretty 149 +:+ ")") text.
Proof.
  destruct (X20_suggestion_text "query_parquet_files" 8240 (Some 309)) as [H _].
  apply (H 149). discriminate.
Defined.
